(** * RemoteConfig: the heartbeat committers [auto_committer.py] and
    [auto_committer_readme.py]

    A shallow embedding of the two command-line programs and the proofs
    of the properties their specification states about them.

    Conventions of the model.
    - Python text ([str]) is represented by its UTF-8 encoding, a Rocq
      [string] whose characters are the bytes.  White space is the
      set of characters [str.isspace] holds of, each matched by its
      encoding.  Case mapping is modelled on the ASCII range; the only
      case-insensitive test of the programs looks for an ASCII marker.
    - Files are byte strings kept in a finite map indexed by the printed
      path.  The platform is POSIX: text written with a line feed is
      stored with a line feed.
    - Everything the programs do not own (the git executable, the clock,
      file-system permissions, home directories and symbolic links, the
      range of a sleep, signals) sits behind the [Host] class. *)

From Stdlib Require Import String Ascii List ZArith QArith Bool Lia.
From stdpp Require Import gmap strings.

Import ListNotations.
Local Open Scope list_scope.
Local Open Scope string_scope.

(** ** Python text *)

Module Text.

Definition nl : string := String (ascii_of_nat 10) EmptyString.

Definition code (c : ascii) : nat := nat_of_ascii c.

(** [str.lower] on the ASCII range: [A]..[Z] move 32 places up. *)
Definition lower_char (c : ascii) : ascii :=
  if (65 <=? code c)%nat && (code c <=? 90)%nat
  then ascii_of_nat (code c + 32) else c.

Fixpoint lower (s : string) : string :=
  match s with
  | EmptyString => EmptyString
  | String c r => String (lower_char c) (lower r)
  end.

(** [needle in hay]. *)
Fixpoint contains (needle hay : string) : bool :=
  String.prefix needle hay ||
  match hay with
  | EmptyString => false
  | String _ r => contains needle r
  end.

(** [s.endswith(suffix)]. *)
Fixpoint endswith (s suffix : string) : bool :=
  String.eqb s suffix ||
  match s with
  | EmptyString => false
  | String _ r => endswith r suffix
  end.

(** The characters [str.strip] removes are those [str.isspace] holds
    of.  On the ASCII range: tab, line feed, vertical tab, form feed,
    carriage return, the four separators 28..31 and the space. *)
Definition is_space (c : ascii) : bool :=
  ((9 <=? code c)%nat && (code c <=? 13)%nat) ||
  ((28 <=? code c)%nat && (code c <=? 32)%nat).

(** Beyond it, by their UTF-8 encodings: U+0085 and U+00A0 on two
    bytes; *)
Definition is_space2 (a b : ascii) : bool :=
  (code a =? 194)%nat && ((code b =? 133)%nat || (code b =? 160)%nat).

(** U+1680, U+2000..U+200A, U+2028, U+2029, U+202F, U+205F and U+3000
    on three. *)
Definition is_space3 (a b c : ascii) : bool :=
  ((code a =? 225)%nat && (code b =? 154)%nat && (code c =? 128)%nat) ||
  ((code a =? 226)%nat && (code b =? 128)%nat &&
   (((128 <=? code c)%nat && (code c <=? 138)%nat) ||
    (code c =? 168)%nat || (code c =? 169)%nat || (code c =? 175)%nat)) ||
  ((code a =? 226)%nat && (code b =? 129)%nat && (code c =? 159)%nat) ||
  ((code a =? 227)%nat && (code b =? 128)%nat && (code c =? 128)%nat).

(** The text is one white-space character. *)
Definition space_char (s : string) : bool :=
  match s with
  | String a EmptyString => is_space a
  | String a (String b EmptyString) => is_space2 a b
  | String a (String b (String c EmptyString)) => is_space3 a b c
  | _ => false
  end.

Fixpoint lstrip (s : string) : string :=
  match s with
  | EmptyString => EmptyString
  | String a r1 =>
      if is_space a then lstrip r1
      else
        match r1 with
        | EmptyString => s
        | String b r2 =>
            if is_space2 a b then lstrip r2
            else
              match r2 with
              | EmptyString => s
              | String c r3 => if is_space3 a b c then lstrip r3 else s
              end
        end
  end.

(** From the right: what is kept of the rest has no white space at its
    end, so with one more character in front there is some only when
    the whole is one white-space character. *)
Fixpoint rstrip (s : string) : string :=
  match s with
  | EmptyString => EmptyString
  | String c r =>
      let kept := String c (rstrip r) in
      if space_char kept then EmptyString else kept
  end.

Definition strip (s : string) : string := rstrip (lstrip s).

(** The text is white space throughout. *)
Fixpoint all_space (s : string) : bool :=
  match s with
  | EmptyString => true
  | String a r1 =>
      (is_space a && all_space r1) ||
      match r1 with
      | EmptyString => false
      | String b r2 =>
          (is_space2 a b && all_space r2) ||
          match r2 with
          | EmptyString => false
          | String c r3 => is_space3 a b c && all_space r3
          end
      end
  end.

(** The text starts with a white-space character; it ends with one. *)
Definition starts_spaced (s : string) : bool :=
  match s with
  | EmptyString => false
  | String a r1 =>
      is_space a ||
      match r1 with
      | EmptyString => false
      | String b r2 =>
          is_space2 a b ||
          match r2 with
          | EmptyString => false
          | String c _ => is_space3 a b c
          end
      end
  end.

Fixpoint ends_spaced (s : string) : bool :=
  space_char s ||
  match s with
  | EmptyString => false
  | String _ r => ends_spaced r
  end.

(** [sep.join(parts)]. *)
Fixpoint join (sep : string) (parts : list string) : string :=
  match parts with
  | [] => EmptyString
  | [p] => p
  | p :: rest => p ++ sep ++ join sep rest
  end.

End Text.

(** ** Results of the external collaborator, exceptions *)

(** What [subprocess.run(..., capture_output=True, text=True)] hands
    back once the child has exited. *)
Record CommandResult := {
  returncode : Z;
  stdout : string;
  stderr : string
}.

Inductive exn :=
| CalledProcessError (r : CommandResult)
| AttributeError (name : string)
| NameError (name : string)
| KeyError (key : string)
| IndexError
| ValueError (msg : string)
| OverflowError (msg : string)
| RuntimeError (msg : string)
| OSError (msg : string)
| TypeError (msg : string)
| KeyboardInterrupt
| SystemExit (status : Z).

(** ** [pathlib] on a POSIX system *)

Module Pathlib.

(** How a path starts: with nothing, with one slash, or with the two
    slashes that POSIX leaves to the implementation and [pathlib] keeps
    apart from one.  Three slashes or more count as one. *)
Inductive anchor := Relative | Root | DoubleRoot.

Definition anchor_eqb (a b : anchor) : bool :=
  match a, b with
  | Relative, Relative | Root, Root | DoubleRoot, DoubleRoot => true
  | _, _ => false
  end.

Record Path := {
  root : anchor;
  parts : list string
}.

Definition absolute (p : Path) : bool :=
  match root p with
  | Relative => false
  | _ => true
  end.

Fixpoint split_slash (s cur : string) : list string :=
  match s with
  | EmptyString => [cur]
  | String c r =>
      if Ascii.eqb c "/" then cur :: split_slash r EmptyString
      else split_slash r (cur ++ String c EmptyString)
  end.

Definition kept (part : string) : bool :=
  negb (String.eqb part "") && negb (String.eqb part ".").

Definition anchor_of (s : string) : anchor :=
  if String.prefix "//" s && negb (String.prefix "///" s) then DoubleRoot
  else if String.prefix "/" s then Root
  else Relative.

(** [Path(s)]: empty and [.] components are dropped. *)
Definition parse (s : string) : Path :=
  {| root := anchor_of s;
     parts := List.filter kept (split_slash s EmptyString) |}.

(** [p / s]: an absolute right operand replaces the left one. *)
Definition joinpath (p : Path) (s : string) : Path :=
  let q := parse s in
  if absolute q then q
  else {| root := root p; parts := (parts p ++ parts q)%list |}.

(** [p.parent]. *)
Definition parent (p : Path) : Path :=
  {| root := root p; parts := removelast (parts p) |}.

Fixpoint strip_parts (base l : list string) : option (list string) :=
  match base, l with
  | [], _ => Some l
  | b :: base', x :: l' =>
      if String.eqb b x then strip_parts base' l' else None
  | _ :: _, [] => None
  end.

(** [p.relative_to(base)]; [None] stands for the [ValueError]. *)
Definition relative_to (p base : Path) : option Path :=
  if anchor_eqb (root p) (root base) then
    match strip_parts (parts base) (parts p) with
    | Some rest => Some {| root := Relative; parts := rest |}
    | None => None
    end
  else None.

(** [str(p)]. *)
Definition str (p : Path) : string :=
  match root p, parts p with
  | Relative, [] => "."
  | Relative, ps => Text.join "/" ps
  | Root, ps => "/" ++ Text.join "/" ps
  | DoubleRoot, ps => "//" ++ Text.join "/" ps
  end.

(** The path and its ancestors below the root, outermost first. *)
Fixpoint lineage_from (start : anchor) (seen rest : list string) : list Path :=
  match rest with
  | [] => []
  | x :: rest' =>
      let here := (seen ++ [x])%list in
      {| root := start; parts := here |} :: lineage_from start here rest'
  end.

Definition lineage (p : Path) : list Path :=
  lineage_from (root p) [] (parts p).

End Pathlib.

(** ** [datetime] and [strftime] *)

Module Datetime.

Record datetime := {
  year : N;
  month : N;
  day : N;
  hour : N;
  minute : N;
  second : N;
  microsecond : N
}.

Definition digit (n : N) : ascii := ascii_of_N (48 + n mod 10).

Fixpoint dec_fuel (fuel : nat) (n : N) : string :=
  match fuel with
  | O => EmptyString
  | S f =>
      if (n <? 10)%N then String (digit n) EmptyString
      else dec_fuel f (n / 10) ++ String (digit n) EmptyString
  end.

(** Decimal numeral of [n], no padding. *)
Definition dec (n : N) : string := dec_fuel (S (N.to_nat (N.log2 n))) n.

Fixpoint zeros (k : nat) : string :=
  match k with
  | O => EmptyString
  | S k' => String "0" (zeros k')
  end.

(** Left padding with zeros up to [width] characters. *)
Definition zpad (width : nat) (s : string) : string :=
  zeros (width - String.length s) ++ s.

(** One directive of [strftime]. *)
Definition directive (c : ascii) (t : datetime) : string :=
  if Ascii.eqb c "Y" then dec (year t)
  else if Ascii.eqb c "m" then zpad 2 (dec (month t))
  else if Ascii.eqb c "d" then zpad 2 (dec (day t))
  else if Ascii.eqb c "H" then zpad 2 (dec (hour t))
  else if Ascii.eqb c "M" then zpad 2 (dec (minute t))
  else if Ascii.eqb c "S" then zpad 2 (dec (second t))
  else if Ascii.eqb c "f" then zpad 6 (dec (microsecond t))
  else if Ascii.eqb c "%" then "%"
  else String "%" (String c EmptyString).

(** [t.strftime(fmt)] for the directives above. *)
Fixpoint strftime (t : datetime) (fmt : string) : string :=
  match fmt with
  | EmptyString => EmptyString
  | String c r =>
      if Ascii.eqb c "%" then
        match r with
        | EmptyString => String c EmptyString
        | String d r' => directive d t ++ strftime t r'
        end
      else String c (strftime t r)
  end.


End Datetime.

(** ** Text files: the [utf-8] codec with [errors="ignore"], newlines *)

Module Codec.

Definition cont (c : ascii) : bool :=
  (128 <=? Text.code c)%nat && (Text.code c <? 192)%nat.

(** Second byte of a three-byte sequence: a continuation byte that
    yields neither an overlong form nor a surrogate. *)
Definition second3 (c0 c1 : ascii) : bool :=
  cont c1 &&
  negb ((Text.code c0 =? 224)%nat && (Text.code c1 <? 160)%nat) &&
  negb ((Text.code c0 =? 237)%nat && (160 <=? Text.code c1)%nat).

(** Second byte of a four-byte sequence: no overlong form, nothing
    above U+10FFFF. *)
Definition second4 (c0 c1 : ascii) : bool :=
  cont c1 &&
  negb ((Text.code c0 =? 240)%nat && (Text.code c1 <? 144)%nat) &&
  negb ((Text.code c0 =? 244)%nat && (144 <=? Text.code c1)%nat).

(** [bytes.decode("utf-8", errors="ignore")] followed by re-encoding:
    well-formed sequences are kept, the bytes of a malformed one are
    dropped (the lead byte alone, or the lead byte and the one or two
    continuation bytes accepted before the offending byte; a sequence
    cut short by the end of the data is dropped whole). *)
Fixpoint decode_ignore (s : string) : string :=
  match s with
  | EmptyString => EmptyString
  | String c0 r0 =>
      let b0 := Text.code c0 in
      if (b0 <? 128)%nat then String c0 (decode_ignore r0)
      else if (b0 <? 194)%nat then decode_ignore r0
      else if (b0 <? 224)%nat then
        match r0 with
        | EmptyString => EmptyString
        | String c1 r1 =>
            if cont c1 then String c0 (String c1 (decode_ignore r1))
            else decode_ignore r0
        end
      else if (b0 <? 240)%nat then
        match r0 with
        | EmptyString => EmptyString
        | String c1 r1 =>
            if second3 c0 c1 then
              match r1 with
              | EmptyString => EmptyString
              | String c2 r2 =>
                  if cont c2
                  then String c0 (String c1 (String c2 (decode_ignore r2)))
                  else decode_ignore r1
              end
            else decode_ignore r0
        end
      else if (b0 <? 245)%nat then
        match r0 with
        | EmptyString => EmptyString
        | String c1 r1 =>
            if second4 c0 c1 then
              match r1 with
              | EmptyString => EmptyString
              | String c2 r2 =>
                  if cont c2 then
                    match r2 with
                    | EmptyString => EmptyString
                    | String c3 r3 =>
                        if cont c3
                        then String c0 (String c1 (String c2
                                 (String c3 (decode_ignore r3))))
                        else decode_ignore r2
                    end
                  else decode_ignore r1
              end
            else decode_ignore r0
        end
      else decode_ignore r0
  end.

(** Well-formed UTF-8, by the same case analysis. *)
Fixpoint well_formed (s : string) : bool :=
  match s with
  | EmptyString => true
  | String c0 r0 =>
      let b0 := Text.code c0 in
      if (b0 <? 128)%nat then well_formed r0
      else if (b0 <? 194)%nat then false
      else if (b0 <? 224)%nat then
        match r0 with
        | String c1 r1 => cont c1 && well_formed r1
        | EmptyString => false
        end
      else if (b0 <? 240)%nat then
        match r0 with
        | String c1 (String c2 r2) =>
            second3 c0 c1 && cont c2 && well_formed r2
        | _ => false
        end
      else if (b0 <? 245)%nat then
        match r0 with
        | String c1 (String c2 (String c3 r3)) =>
            second4 c0 c1 && cont c2 && cont c3 && well_formed r3
        | _ => false
        end
      else false
  end.

Definition cr : ascii := ascii_of_nat 13.
Definition lf : ascii := ascii_of_nat 10.

(** Reading in text mode with the default [newline=None]: [\r\n] and a
    lone [\r] both arrive as [\n]. *)
Fixpoint universal_newlines (s : string) : string :=
  match s with
  | EmptyString => EmptyString
  | String c r =>
      if Ascii.eqb c cr then
        match r with
        | String c' r' =>
            if Ascii.eqb c' lf then String lf (universal_newlines r')
            else String lf (universal_newlines r)
        | EmptyString => String lf EmptyString
        end
      else String c (universal_newlines r)
  end.

Fixpoint no_cr (s : string) : bool :=
  match s with
  | EmptyString => true
  | String c r => negb (Ascii.eqb c cr) && no_cr r
  end.

(** What [read_text(encoding="utf-8", errors="ignore")] returns for a
    file holding [data]. *)
Definition read_text_ignore (data : string) : string :=
  universal_newlines (decode_ignore data).

End Codec.

(** ** [str.format] with the single keyword argument [ts] *)

Module Format.

Inductive mode :=
| Literal
| Opened
| Closed
| Name (acc : string).

Definition cons_out (c : ascii) (r : exn + string) : exn + string :=
  match r with
  | inr s => inr (String c s)
  | inl e => inl e
  end.

Definition app_out (v : string) (r : exn + string) : exn + string :=
  match r with
  | inr s => inr (v ++ s)
  | inl e => inl e
  end.

Definition is_digit (c : ascii) : bool :=
  (48 <=? Text.code c)%nat && (Text.code c <=? 57)%nat.

Definition ssize_max : N := 9223372036854775807.

(** The integer a field name denotes: [None] when some character is
    not a digit, [Some None] when the digits overflow the index type. *)
Fixpoint get_integer (s : string) (acc : N) : option (option N) :=
  match s with
  | EmptyString => Some (Some acc)
  | String c r =>
      if is_digit c then
        let d := N.of_nat (Text.code c - 48) in
        if (((ssize_max - d) / 10) <? acc)%N then Some None
        else get_integer r (acc * 10 + d)%N
      else None
  end.

(** Looking a plain field name up in [args = ()], [kwargs = {ts: ts}]. *)
Definition lookup (name ts : string) : exn + string :=
  match name with
  | EmptyString => inl IndexError
  | _ =>
      match get_integer name 0 with
      | Some (Some _) => inl IndexError
      | Some None => inl (ValueError "Too many decimal digits in format string")
      | None => if String.eqb name "ts" then inr ts else inl (KeyError name)
      end
  end.

(** Characters that make a replacement field more than a plain name:
    conversion, format specification, attribute or index lookup, and
    bytes outside ASCII. *)
Definition elaborate (c : ascii) : bool :=
  Ascii.eqb c ":" || Ascii.eqb c "!" || Ascii.eqb c "[" || Ascii.eqb c "." ||
  (128 <=? Text.code c)%nat.

Section Scan.

(** The rendering of a template that starts with an elaborate field is
    left to the Python runtime. *)
Variable elaborate_field : string -> string -> exn + string.
Variable ts : string.

Fixpoint scan (m : mode) (t : string) : exn + string :=
  match t with
  | EmptyString =>
      match m with
      | Literal => inr EmptyString
      | Opened => inl (ValueError "Single '{' encountered in format string")
      | Closed => inl (ValueError "Single '}' encountered in format string")
      | Name _ => inl (ValueError "expected '}' before end of string")
      end
  | String c r =>
      match m with
      | Literal =>
          if Ascii.eqb c "{" then scan Opened r
          else if Ascii.eqb c "}" then scan Closed r
          else cons_out c (scan Literal r)
      | Closed =>
          if Ascii.eqb c "}" then cons_out "}" (scan Literal r)
          else inl (ValueError "Single '}' encountered in format string")
      | Opened =>
          if Ascii.eqb c "{" then cons_out "{" (scan Literal r)
          else if Ascii.eqb c "}" then
            match lookup EmptyString ts with
            | inr v => app_out v (scan Literal r)
            | inl e => inl e
            end
          else if elaborate c then elaborate_field (String "{" t) ts
          else scan (Name (String c EmptyString)) r
      | Name acc =>
          if Ascii.eqb c "}" then
            match lookup acc ts with
            | inr v => app_out v (scan Literal r)
            | inl e => inl e
            end
          else if Ascii.eqb c "{" then
            inl (ValueError "unexpected '{' in field name")
          else if elaborate c then elaborate_field (String "{" (acc ++ t)) ts
          else scan (Name (acc ++ String c EmptyString)) r
      end
  end.

(** [template.format(ts=ts)]. *)
Definition format (template : string) : exn + string := scan Literal template.

End Scan.

(** The reading of the specification: every occurrence of the
    placeholder, left to right, gives way to the timestamp. *)
Fixpoint substitute (template ts : string) : string :=
  match template with
  | EmptyString => EmptyString
  | String c0 r0 =>
      match r0 with
      | String c1 (String c2 (String c3 r3)) =>
          if Ascii.eqb c0 "{" && Ascii.eqb c1 "t" && Ascii.eqb c2 "s" &&
             Ascii.eqb c3 "}"
          then ts ++ substitute r3 ts
          else String c0 (substitute r0 ts)
      | _ => String c0 (substitute r0 ts)
      end
  end.

(** Templates whose braces all belong to a placeholder. *)
Fixpoint plain (template : string) : bool :=
  match template with
  | EmptyString => true
  | String c0 r0 =>
      match r0 with
      | String c1 (String c2 (String c3 r3)) =>
          if Ascii.eqb c0 "{" && Ascii.eqb c1 "t" && Ascii.eqb c2 "s" &&
             Ascii.eqb c3 "}"
          then plain r3
          else negb (Ascii.eqb c0 "{") && negb (Ascii.eqb c0 "}") && plain r0
      | _ => negb (Ascii.eqb c0 "{") && negb (Ascii.eqb c0 "}") && plain r0
      end
  end.

End Format.

(** ** The host: file store, collaborator, clock, signals *)

Inductive node :=
| File (data : string)
| Dir.

Abbreviation FS := (gmap string node).

Inductive fs_op := Stat | Mkdir | OpenAppend | OpenTruncate | ReadText.

(** How one call of [subprocess.run] ends: the child exits, or the call
    itself raises (no executable, an interrupt while waiting). *)
Inductive spawned :=
| Exited (r : CommandResult)
| Failed (e : exn).

Inductive stream := Stdout | Stderr.

Inductive event :=
| Clock (t : Datetime.datetime)
| Write (path data : string)
| Spawn (cmd : list string) (cwd : string)
| Sleep (secs : Q)
| Print (to : stream) (text : string).

Class Host (E : Type) := {
  (** one run of the collaborator in a working directory; it sees and
      may change the files *)
  spawn : list string -> string -> FS -> E -> spawned * FS * E;
  (** [datetime.now(timezone.utc)] *)
  now : E -> Datetime.datetime * E;
  (** a file operation the system refuses (permissions, quota, ...) *)
  fault : fs_op -> string -> E -> option exn;
  (** a length in seconds as the interpreter converts it for a sleep:
      a number of nanoseconds, or nothing when it is out of the range
      of the platform *)
  nanoseconds : Q -> option Z;
  (** a sleep the operating system refuses *)
  sleep_fault : Q -> E -> option exn;
  (** whether an interrupt ends a sleep of the given length *)
  interrupted : Q -> E -> bool * E;
  (** [Path(s).expanduser().resolve()]: the path, or what one of the
      two calls raises (no home directory for the user named after the
      tilde, a loop of symbolic links) *)
  resolve : string -> E -> exn + Pathlib.Path;
  (** [str.format] from a field with a conversion, a format
      specification or a lookup onwards *)
  elaborate_field : string -> string -> exn + string;
  (** [str] of a float *)
  float_str : Q -> string
}.

(** ** The interpreter state and its monad *)

(** How a block of statements ends: normally, by an exception, by the
    [continue] of the enclosing loop, or not within the observed number
    of iterations. *)
Inductive outcome (A : Type) :=
| Normal (a : A)
| Raised (e : exn)
| Continued
| Looping.

Arguments Normal {A} a.
Arguments Raised {A} e.
Arguments Continued {A}.
Arguments Looping {A}.

Section Machine.

Context {E : Type} {H : Host E}.

Record World := {
  files : FS;
  host : E;
  trace : list event
}.

Definition emit (ev : event) (w : World) : World :=
  {| files := files w; host := host w; trace := (trace w ++ [ev])%list |}.

Definition M (A : Type) : Type := World -> outcome A * World.

Definition ret {A} (a : A) : M A := fun w => (Normal a, w).

Definition bind {A B} (m : M A) (k : A -> M B) : M B :=
  fun w =>
    match m w with
    | (Normal a, w') => k a w'
    | (Raised e, w') => (Raised e, w')
    | (Continued, w') => (Continued, w')
    | (Looping, w') => (Looping, w')
    end.

Definition raise {A} (e : exn) : M A := fun w => (Raised e, w).

Definition continue_ {A} : M A := fun w => (Continued, w).

(** [try: body  except ...: handler]; [handler e = None] when no clause
    matches [e]. *)
Definition try_except {A} (body : M A) (handler : exn -> option (M A)) : M A :=
  fun w =>
    match body w with
    | (Raised e, w') =>
        match handler e with
        | Some h => h w'
        | None => (Raised e, w')
        end
    | other => other
    end.

Definition lift {A} (r : exn + A) : M A :=
  match r with
  | inr a => ret a
  | inl e => raise e
  end.

End Machine.

Arguments World E : clear implicits.
Arguments M E A : clear implicits.

Notation "'let*' x ':=' m 'in' k" := (bind m (fun x => k))
  (at level 10, x name, m at level 100, k at level 200).

(** ** The library calls the programs make *)

(** A [float]: a number, the negative zero, an infinity or a NaN. *)
Inductive pyfloat :=
| Finite (q : Q)
| NegZero
| Infinite (negative : bool)
| NaN.

Inductive pyval :=
| VStr (s : string)
| VFloat (f : pyfloat)
| VBool (b : bool)
| VNone.

(** Truth value of an object in a condition. *)
Definition truthy (v : pyval) : bool :=
  match v with
  | VStr s => negb (String.eqb s "")
  | VFloat (Finite q) => negb (Qeq_bool q 0)
  | VFloat NegZero => false
  | VFloat _ => true
  | VBool b => b
  | VNone => false
  end.

Abbreviation Namespace := (gmap string pyval).

Section Library.

Context {E : Type} {H : Host E}.

(** [str(v)], as an f-string interpolates it. *)
Definition pystr (v : pyval) : string :=
  match v with
  | VStr s => s
  | VFloat (Finite q) => float_str q
  | VFloat NegZero => "-0.0"
  | VFloat (Infinite false) => "inf"
  | VFloat (Infinite true) => "-inf"
  | VFloat NaN => "nan"
  | VBool true => "True"
  | VBool false => "False"
  | VNone => "None"
  end.

(** [args.name]. *)
Definition getattr (args : Namespace) (name : string) : M E pyval :=
  match args !! name with
  | Some v => ret v
  | None => raise (AttributeError name)
  end.

Definition hasattr (args : Namespace) (name : string) : bool :=
  match args !! name with
  | Some _ => true
  | None => false
  end.

(** An object used where the library wants a [str] or a number. *)
Definition expect_str (v : pyval) : M E string :=
  match v with
  | VStr s => ret s
  | _ => raise (TypeError "expected str")
  end.

Definition expect_float (v : pyval) : M E pyfloat :=
  match v with
  | VFloat f => ret f
  | _ => raise (TypeError "expected float")
  end.

(** [print(item, ..., file=to)]: the items separated by a space, then a
    line feed. *)
Definition print (to : stream) (items : list string) : M E unit :=
  fun w => (Normal tt, emit (Print to (Text.join " " items ++ Text.nl)) w).

(** [sys.exit(status)]. *)
Definition sys_exit {A} (status : Z) : M E A := raise (SystemExit status).

Definition too_large : exn :=
  OverflowError "timestamp too large to convert to C _PyTime_t".

(** The seconds [time.sleep] goes on to sleep, or what it raises
    first.  The argument is converted to a number of nanoseconds, which
    fails for a NaN and for a length out of range; only then is the
    sign looked at. *)
Definition timeout (secs : pyfloat) : exn + Q :=
  match secs with
  | NaN => inl (ValueError "Invalid value NaN (not a number)")
  | Infinite _ => inl too_large
  | NegZero => inr 0%Q
  | Finite q =>
      match nanoseconds q with
      | None => inl too_large
      | Some ns =>
          if (ns <? 0)%Z
          then inl (ValueError "sleep length must be non-negative")
          else inr q
      end
  end.

(** [time.sleep(secs)]. *)
Definition time_sleep (secs : pyfloat) : M E unit :=
  fun w =>
    match timeout secs with
    | inl e => (Raised e, w)
    | inr q =>
        match sleep_fault q (host w) with
        | Some e => (Raised e, w)
        | None =>
            let '(hit, h') := interrupted q (host w) in
            let w' := emit (Sleep q)
                        {| files := files w; host := h'; trace := trace w |} in
            if hit then (Raised KeyboardInterrupt, w') else (Normal tt, w')
        end
    end.

(** [datetime.now(timezone.utc)]. *)
Definition datetime_now : M E Datetime.datetime :=
  fun w =>
    let '(t, h') := now (host w) in
    (Normal t, emit (Clock t)
                 {| files := files w; host := h'; trace := trace w |}).

(** [subprocess.run(cmd, cwd=cwd, check=True, capture_output=True,
    text=True)]. *)
Definition subprocess_run (cmd : list string) (cwd : Pathlib.Path)
  : M E CommandResult :=
  fun w =>
    let '(res, fs', h') := spawn cmd (Pathlib.str cwd) (files w) (host w) in
    let w' := emit (Spawn cmd (Pathlib.str cwd))
                {| files := fs'; host := h'; trace := trace w |} in
    match res with
    | Exited r =>
        if (returncode r =? 0)%Z then (Normal r, w')
        else (Raised (CalledProcessError r), w')
    | Failed e => (Raised e, w')
    end.

(** [p.exists()]: a missing entry is no error, a refused look-up
    (no permission to search a directory on the way) is. *)
Definition path_exists (p : Pathlib.Path) : M E bool :=
  fun w =>
    match fault Stat (Pathlib.str p) (host w) with
    | Some e => (Raised e, w)
    | None =>
        (Normal (match files w !! Pathlib.str p with
                 | Some _ => true
                 | None => false
                 end), w)
    end.

Fixpoint make_dirs (ps : list Pathlib.Path) (fs : FS) : exn + FS :=
  match ps with
  | [] => inr fs
  | p :: rest =>
      match fs !! Pathlib.str p with
      | Some (File _) => inl (OSError "not a directory")
      | Some Dir => make_dirs rest fs
      | None => make_dirs rest (<[Pathlib.str p := Dir]> fs)
      end
  end.

(** [p.mkdir(parents=True, exist_ok=True)]. *)
Definition mkdir_parents (p : Pathlib.Path) : M E unit :=
  fun w =>
    match fault Mkdir (Pathlib.str p) (host w) with
    | Some e => (Raised e, w)
    | None =>
        match make_dirs (Pathlib.lineage p) (files w) with
        | inr fs' =>
            (Normal tt, {| files := fs'; host := host w; trace := trace w |})
        | inl e => (Raised e, w)
        end
    end.

(** [p.read_text(encoding="utf-8", errors="ignore")]. *)
Definition read_text (p : Pathlib.Path) : M E string :=
  fun w =>
    match fault ReadText (Pathlib.str p) (host w) with
    | Some e => (Raised e, w)
    | None =>
        match files w !! Pathlib.str p with
        | Some (File data) => (Normal (Codec.read_text_ignore data), w)
        | Some Dir => (Raised (OSError "is a directory"), w)
        | None => (Raised (OSError "no such file"), w)
        end
    end.

(** [p.open("a", encoding="utf-8")]: the file is created when absent
    and left as it is otherwise. *)
Definition open_append (p : Pathlib.Path) : M E unit :=
  fun w =>
    match fault OpenAppend (Pathlib.str p) (host w) with
    | Some e => (Raised e, w)
    | None =>
        match files w !! Pathlib.str p with
        | Some (File _) => (Normal tt, w)
        | Some Dir => (Raised (OSError "is a directory"), w)
        | None =>
            (Normal tt, {| files := <[Pathlib.str p := File ""]> (files w);
                           host := host w; trace := trace w |})
        end
    end.

(** [p.open("w", encoding="utf-8")]: the file is created or emptied. *)
Definition open_truncate (p : Pathlib.Path) : M E unit :=
  fun w =>
    match fault OpenTruncate (Pathlib.str p) (host w) with
    | Some e => (Raised e, w)
    | None =>
        match files w !! Pathlib.str p with
        | Some Dir => (Raised (OSError "is a directory"), w)
        | _ =>
            (Normal tt, {| files := <[Pathlib.str p := File ""]> (files w);
                           host := host w; trace := trace w |})
        end
    end.

(** [f.write(data)] on a file opened by one of the two calls above:
    the data goes to the end of the file. *)
Definition f_write (p : Pathlib.Path) (data : string) : M E unit :=
  fun w =>
    let old := match files w !! Pathlib.str p with
               | Some (File d) => d
               | _ => EmptyString
               end in
    (Normal tt,
     emit (Write (Pathlib.str p) data)
       {| files := <[Pathlib.str p := File (old ++ data)]> (files w);
          host := host w; trace := trace w |}).

End Library.

(** ** The two programs *)

Inductive program :=
| AutoCommitter          (** auto_committer.py *)
| AutoCommitterReadme.   (** auto_committer_readme.py *)

(** The values [argparse] obtains from the command line, defaults
    filled in. *)
Record Options := {
  opt_repo : string;
  opt_branch : string;
  opt_remote : string;
  opt_file : string;
  opt_interval : pyfloat;
  opt_message : string;
  opt_author : option string;
  opt_no_push : bool;
  opt_line_template : string;
  opt_prepend : bool
}.

Fixpoint underscored (s : string) : string :=
  match s with
  | EmptyString => EmptyString
  | String c r =>
      String (if Ascii.eqb c "-" then "_"%char else c) (underscored r)
  end.

Fixpoint undashed (s : string) : string :=
  match s with
  | EmptyString => EmptyString
  | String c r => if Ascii.eqb c "-" then undashed r else s
  end.

(** The attribute [add_argument] stores an option under: the option
    string without its leading dashes, inner dashes turned into
    underscores. *)
Definition dest (flag : string) : string := underscored (undashed flag).

Definition optional (a : option string) : pyval :=
  match a with
  | Some s => VStr s
  | None => VNone
  end.

(** [ap.parse_args()] for the options each program declares. *)
Definition parse_args (p : program) (o : Options) : Namespace :=
  let common : list (string * pyval) :=
    [ (dest "--repo", VStr (opt_repo o));
      (dest "--branch", VStr (opt_branch o));
      (dest "--remote", VStr (opt_remote o));
      (dest "--file", VStr (opt_file o));
      (dest "--interval", VFloat (opt_interval o));
      (dest "--message", VStr (opt_message o));
      (dest "--author", optional (opt_author o));
      (dest "--no-push", VBool (opt_no_push o)) ] in
  match p with
  | AutoCommitter => list_to_map common
  | AutoCommitterReadme =>
      list_to_map
        (common ++
         [ (dest "--line-template", VStr (opt_line_template o));
           (dest "--prepend", VBool (opt_prepend o)) ])%list
  end.

Definition stamp : string := "%Y-%m-%dT%H:%M:%S.%fZ".

Definition marker : string := "nothing to commit".

Section Programs.

Context {E : Type} {H : Host E}.

(** auto_committer.py 22-25, auto_committer_readme.py 28-30. *)
Definition sh (cmd : list string) (cwd : Pathlib.Path) : M E string :=
  let* r := subprocess_run cmd cwd in
  ret (Text.strip (stdout r)).

(** auto_committer.py 27-33, auto_committer_readme.py 32-37. *)
Definition ensure_branch (repo : Pathlib.Path) (branch : string) : M E unit :=
  try_except
    (let* _ := sh ["git"; "rev-parse"; "--verify"; branch] repo in
     let* _ := sh ["git"; "checkout"; branch] repo in
     ret tt)
    (fun e =>
       match e with
       | CalledProcessError _ =>
           Some (let* _ := sh ["git"; "checkout"; "-b"; branch] repo in
                 ret tt)
       | _ => None
       end).

(** auto_committer.py 35-42. *)
Definition write_heartbeat (file_path : Pathlib.Path) : M E string :=
  let* _ := mkdir_parents (Pathlib.parent file_path) in
  let* t := datetime_now in
  let now_ := Datetime.strftime t stamp in
  let payload := "heartbeat: " ++ now_ ++ Text.nl in
  let* _ := open_append file_path in
  let* _ := f_write file_path payload in
  ret now_.

(** auto_committer_readme.py 39-51. *)
Definition write_line (file_path : Pathlib.Path) (line : string)
    (prepend : bool) : M E unit :=
  let* _ := mkdir_parents (Pathlib.parent file_path) in
  if prepend then
    let* present := path_exists file_path in
    let* existing :=
      (if present then read_text file_path else ret EmptyString) in
    let* _ := open_truncate file_path in
    let* _ := f_write file_path
                (line ++ (if negb (Text.endswith line Text.nl)
                          then Text.nl else "")) in
    f_write file_path existing
  else
    let* _ := open_append file_path in
    f_write file_path
      (line ++ (if negb (Text.endswith line Text.nl) then Text.nl else "")).

(** The start of the loop body, up to the changed file:
    auto_committer.py 78, auto_committer_readme.py 87-91. *)
Definition mutate (p : program) (args : Namespace) (target : Pathlib.Path)
  : M E string :=
  match p with
  | AutoCommitter => write_heartbeat target
  | AutoCommitterReadme =>
      let* t := datetime_now in
      let ts := Datetime.strftime t stamp in
      let* _ :=
        (if hasattr args "line-template"
         then (let* _ := getattr args "line" in raise (NameError "template"))
         else getattr args "line_template") in
      let* template := getattr args "line_template" in
      let* template := expect_str template in
      let* line := lift (Format.format elaborate_field ts template) in
      let* prepend := getattr args "prepend" in
      let* _ := write_line target line (truthy prepend) in
      ret ts
  end.

(** auto_committer.py 80, auto_committer_readme.py 93-94. *)
Definition stage (repo target : Pathlib.Path) : M E unit :=
  match Pathlib.relative_to target repo with
  | Some rel =>
      let* _ := sh ["git"; "add"; Pathlib.str rel] repo in
      ret tt
  | None => raise (ValueError "path is not in the subpath of the repository")
  end.

(** auto_committer.py 81-83, auto_committer_readme.py 96-98. *)
Definition commit_cmd (args : Namespace) (ts : string) : M E (list string) :=
  let* message := getattr args "message" in
  let cmd := ["git"; "commit"; "-m"; pystr message ++ " " ++ ts] in
  let* author := getattr args "author" in
  if truthy author then
    let* author := expect_str author in
    ret (cmd ++ ["--author"; author])%list
  else ret cmd.

(** auto_committer.py 84-93, auto_committer_readme.py 100-108. *)
Definition commit (args : Namespace) (repo : Pathlib.Path) (ts : string)
  : M E unit :=
  let* cmd := commit_cmd args ts in
  try_except
    (let* _ := sh cmd repo in ret tt)
    (fun e =>
       match e with
       | CalledProcessError r =>
           Some (if Text.contains marker (Text.lower (stdout r ++ stderr r))
                 then ret tt
                 else
                   let* _ := print Stderr
                               ["Commit failed:" ++ Text.nl;
                                stdout r; stderr r] in
                   let* secs := getattr args "interval" in
                   let* secs := expect_float secs in
                   let* _ := time_sleep secs in
                   continue_)
       | _ => None
       end).

(** auto_committer.py 95-99, auto_committer_readme.py 110-114.  The
    condition of the first file reads [args.no-push], the difference of
    the attribute [no] and the name [push]. *)
Definition push (p : program) (args : Namespace) (repo : Pathlib.Path)
  : M E unit :=
  let* no_push :=
    match p with
    | AutoCommitter =>
        let* _ := getattr args "no" in raise (NameError "push")
    | AutoCommitterReadme => getattr args "no_push"
    end in
  if negb (truthy no_push) then
    let* remote := getattr args "remote" in
    let* remote := expect_str remote in
    let* branch := getattr args "branch" in
    let* branch := expect_str branch in
    try_except
      (let* _ := sh ["git"; "push"; remote; branch] repo in ret tt)
      (fun e =>
         match e with
         | CalledProcessError r =>
             Some (print Stderr
                     ["Push failed (will retry on next loop):" ++ Text.nl;
                      stdout r; stderr r])
         | _ => None
         end)
  else ret tt.

(** auto_committer.py 101, auto_committer_readme.py 116. *)
Definition pause (args : Namespace) : M E unit :=
  let* secs := getattr args "interval" in
  let* secs := expect_float secs in
  time_sleep secs.

(** One pass through the body of [while True]:
    auto_committer.py 78-101, auto_committer_readme.py 87-116. *)
Definition iteration (p : program) (args : Namespace)
    (repo target : Pathlib.Path) : M E unit :=
  let* ts := mutate p args target in
  let* _ := stage repo target in
  let* _ := commit args repo ts in
  let* _ := push p args repo in
  pause args.

(** [while True: body], observed for [n] passes. *)
Fixpoint while_true (n : nat) (body : M E unit) : M E unit :=
  match n with
  | O => fun w => (Looping, w)
  | S k =>
      fun w =>
        match body w with
        | (Normal _, w') | (Continued, w') => while_true k body w'
        | other => other
        end
  end.

(** auto_committer.py 56-74, auto_committer_readme.py 67-83: everything
    before the loop; the result is the repository and the target file. *)
Definition startup (p : program) (args : Namespace)
  : M E (Pathlib.Path * Pathlib.Path) :=
  let* repo_arg := getattr args "repo" in
  let* repo_arg := expect_str repo_arg in
  let* repo := (fun w => lift (resolve repo_arg (host w)) w) in
  let* present := path_exists (Pathlib.joinpath repo ".git") in
  let* _ :=
    (if negb present then
       let* _ := print Stderr
                   ["ERROR: " ++ Pathlib.str repo ++
                    " does not look like a git repository (.git missing)"] in
       sys_exit 2
     else ret tt) in
  let* _ :=
    try_except
      (let* status := sh ["git"; "status"; "--porcelain"] repo in
       if negb (String.eqb status "") then
         print Stderr
           ["NOTE: Working tree has changes; they may be included in commits."]
       else ret tt)
      (fun e =>
         match e with
         | CalledProcessError r =>
             Some (let* _ := print Stderr [stderr r] in sys_exit 3)
         | _ => None
         end) in
  let* branch := getattr args "branch" in
  let* branch_s := expect_str branch in
  let* _ := ensure_branch repo branch_s in
  let* remote := getattr args "remote" in
  let* file := getattr args "file" in
  let* interval := getattr args "interval" in
  match p with
  | AutoCommitter =>
      let* _ := print Stdout
                  ["Starting loop: repo=" ++ Pathlib.str repo ++
                   ", branch=" ++ pystr branch ++
                   ", remote=" ++ pystr remote ++
                   ", every " ++ pystr interval ++ "s"] in
      let* file_s := expect_str file in
      ret (repo, Pathlib.joinpath repo file_s)
  | AutoCommitterReadme =>
      let* file_s := expect_str file in
      let target := Pathlib.joinpath repo file_s in
      let* _ := print Stdout
                  ["Starting: repo=" ++ Pathlib.str repo ++
                   ", branch=" ++ pystr branch ++
                   ", file=" ++ pystr file ++
                   ", every " ++ pystr interval ++ "s"] in
      ret (repo, target)
  end.

(** [main()], the loop observed for [n] passes. *)
Definition main (p : program) (o : Options) (n : nat) : M E unit :=
  let args := parse_args p o in
  let* paths := startup p args in
  try_except
    (while_true n (iteration p args (fst paths) (snd paths)))
    (fun e =>
       match e with
       | KeyboardInterrupt =>
           Some (print Stdout [Text.nl ++ "Stopped by user."])
       | _ => None
       end).

(** The status the process ends with, when it has ended and the status
    is fixed by the program: the status passed to [sys.exit], 0 when
    [main] returns, 1 after a traceback. *)
Definition exit_status {A} (r : outcome A) : option Z :=
  match r with
  | Normal _ => Some 0%Z
  | Raised (SystemExit status) => Some status
  | Raised KeyboardInterrupt => None
  | Raised _ => Some 1%Z
  | Continued => None
  | Looping => None
  end.

End Programs.

(** ** An in-memory collaborator

    A small repository that answers the seven commands the programs
    issue.  It is the concrete host the general statements below are
    instantiated with. *)

Module Fake.

Record Repo := {
  heads : gmap string (list string);  (** branch to commit messages, newest first *)
  head : string;                      (** the branch checked out *)
  staged : bool;                      (** something was added since the last commit *)
  reachable : bool;                   (** the remote accepts pushes *)
  sound : bool;                       (** the metadata can be read *)
  canned : list (option CommandResult); (** failures injected into the next calls *)
  pushes : nat;
  ticks : N
}.

Definition ok (out : string) : CommandResult :=
  {| returncode := 0; stdout := out; stderr := "" |}.

Definition ko (status : Z) (out err : string) : CommandResult :=
  {| returncode := status; stdout := out; stderr := err |}.

Definition tip (r : Repo) : list string :=
  match heads r !! head r with
  | Some log => log
  | None => []
  end.

Definition with_heads (hs : gmap string (list string)) (b : string)
    (st : bool) (r : Repo) : Repo :=
  {| heads := hs; head := b; staged := st; reachable := reachable r;
     sound := sound r; canned := canned r; pushes := pushes r;
     ticks := ticks r |}.

Definition with_canned (l : list (option CommandResult)) (r : Repo) : Repo :=
  {| heads := heads r; head := head r; staged := staged r;
     reachable := reachable r; sound := sound r; canned := l;
     pushes := pushes r; ticks := ticks r |}.

Definition git (cmd : list string) (r : Repo) : CommandResult * Repo :=
  match cmd with
  | [_; verb; flag; b] =>
      if String.eqb verb "rev-parse" then
        match heads r !! b with
        | Some _ => (ok (b ++ Text.nl), r)
        | None => (ko 128 "" "fatal: Needed a single revision", r)
        end
      else if String.eqb verb "checkout" then
        match heads r !! b with
        | Some _ => (ko 128 "" "fatal: a branch with that name already exists", r)
        | None => (ok "", with_heads (<[b := tip r]> (heads r)) b (staged r) r)
        end
      else if String.eqb verb "push" then
        if reachable r then
          (ok "",
           {| heads := heads r; head := head r; staged := staged r;
              reachable := reachable r; sound := sound r; canned := canned r;
              pushes := S (pushes r); ticks := ticks r |})
        else (ko 1 "" "fatal: unable to access the remote", r)
      else if String.eqb verb "commit" then
        if staged r then
          (ok "", with_heads (<[head r := b :: tip r]> (heads r)) (head r) false r)
        else (ko 1 ("nothing to commit, working tree clean" ++ Text.nl) "", r)
      else (ko 1 "" "usage", r)
  | [_; verb; b] =>
      if String.eqb verb "checkout" then
        match heads r !! b with
        | Some _ => (ok "", with_heads (heads r) b (staged r) r)
        | None => (ko 1 "" "error: pathspec did not match", r)
        end
      else if String.eqb verb "add" then
        (ok "", with_heads (heads r) (head r) true r)
      else if String.eqb verb "status" then
        if sound r then (ok "", r)
        else (ko 128 "" "fatal: not a git repository", r)
      else (ko 1 "" "usage", r)
  | _ => (ko 1 "" "usage", r)
  end.

(** One call: the injected failure when one is due, the repository's
    own answer otherwise. *)
Definition respond (cmd : list string) (r : Repo) : CommandResult * Repo :=
  match canned r with
  | Some res :: rest =>
      if (returncode res =? 0)%Z then git cmd (with_canned rest r)
      else (res, with_canned rest r)
  | None :: rest => git cmd (with_canned rest r)
  | [] => git cmd r
  end.

Definition clock (r : Repo) : Datetime.datetime * Repo :=
  ({| Datetime.year := 2024; Datetime.month := 1; Datetime.day := 1;
      Datetime.hour := 0; Datetime.minute := 0; Datetime.second := 0;
      Datetime.microsecond := ticks r |},
   {| heads := heads r; head := head r; staged := staged r;
      reachable := reachable r; sound := sound r; canned := canned r;
      pushes := pushes r; ticks := (ticks r + 1)%N |}).

(** The conversion of a sleep length on a 64-bit platform: the
    nanoseconds, rounded away from zero, when they fit a signed 64-bit
    integer. *)
Definition to_nanoseconds (q : Q) : option Z :=
  let n := (Qnum q * 10 ^ 9)%Z in
  let d := Zpos (Qden q) in
  let ns := if (0 <=? n)%Z then (- ((- n) / d))%Z else (n / d)%Z in
  if ((- 2 ^ 63 <=? ns) && (ns <? 2 ^ 63))%Z then Some ns else None.

(** Components with every [..] and the component before it removed. *)
Definition collapse (l : list string) : list string :=
  rev (fold_left
         (fun seen x =>
            if String.eqb x ".." then tl seen else x :: seen)
         l []).

(** [Path(s).expanduser().resolve()] on a machine without symbolic
    links and without home directories, the process running in
    [/srv]: a path that starts with a tilde cannot be expanded, any
    other is made absolute and collapsed. *)
Definition locate (s : string) : exn + Pathlib.Path :=
  if String.prefix "~" s
  then inl (RuntimeError "Could not determine home directory.")
  else inr {| Pathlib.root := Pathlib.Root;
              Pathlib.parts :=
                collapse
                  (Pathlib.parts
                     (Pathlib.joinpath (Pathlib.parse "/srv") s)) |}.

#[global] Instance repo_host : Host Repo := {
  spawn cmd cwd fs r := let '(res, r') := respond cmd r in (Exited res, fs, r');
  now := clock;
  fault _ _ _ := None;
  nanoseconds := to_nanoseconds;
  sleep_fault _ _ := None;
  interrupted _ r := (false, r);
  resolve s _ := locate s;
  elaborate_field _ _ := inl (ValueError "unsupported format field");
  float_str _ := "1.0"
}.

(** A clone in [/srv/repo] with one commit on [main]. *)
Definition repo0 (online : bool) : Repo :=
  {| heads := {[ "main" := ["initial"] ]}; head := "main"; staged := false;
     reachable := online; sound := true; canned := []; pushes := 0;
     ticks := 0 |}.

Definition world0 (online : bool) : World Repo :=
  {| files := {[ "/srv/repo" := Dir; "/srv/repo/.git" := Dir;
                 "/srv/repo/README.md" := File ("A" ++ Text.nl) ]};
     host := repo0 online;
     trace := [] |}.

(** The same directory with unreadable metadata, and without any. *)
Definition damaged : World Repo :=
  {| files := files (world0 true);
     host := {| heads := ∅; head := "main"; staged := false;
                reachable := true; sound := false; canned := [];
                pushes := 0; ticks := 0 |};
     trace := [] |}.

Definition bare : World Repo :=
  {| files := {[ "/srv/repo" := Dir ]}; host := repo0 true; trace := [] |}.

(** The clone with failures injected into the next calls. *)
Definition inject (l : list (option CommandResult)) (w : World Repo)
  : World Repo :=
  {| files := files w; host := with_canned l (host w); trace := trace w |}.

Definition root : Pathlib.Path := Pathlib.parse "/srv/repo".

Definition readme : Pathlib.Path := Pathlib.joinpath root "README.md".

(** The defaults of the command line, for the clone above. *)
Definition options (branch : string) : Options :=
  {| opt_repo := "/srv/repo"; opt_branch := branch; opt_remote := "origin";
     opt_file := "README.md"; opt_interval := Finite 1;
     opt_message := "[bot] heartbeat";
     opt_author := None; opt_no_push := false;
     opt_line_template := "- heartbeat {ts}"; opt_prepend := false |}.

End Fake.

(** The same command line with another interval: [argparse] takes
    whatever [float] accepts, a negative number, [inf] and [nan]
    included. *)
Definition every (f : pyfloat) : Options :=
  {| opt_repo := "/srv/repo"; opt_branch := "main"; opt_remote := "origin";
     opt_file := "README.md"; opt_interval := f;
     opt_message := "[bot] heartbeat"; opt_author := None;
     opt_no_push := false; opt_line_template := "- heartbeat {ts}";
     opt_prepend := false |}.

Definition hasty : Options := every (Finite (-1)).

(** ** A scripted host

    Its collaborator plays back a list of outcomes, one per call, and
    its sleeps can be cut short.  It stands for a machine without the
    executable, or a user who interrupts. *)

Module Scripted.

Record Stage := {
  script : list spawned;
  impatient : bool
}.

Definition play (s : Stage) : spawned * Stage :=
  match script s with
  | [] => (Exited (Fake.ok ""), s)
  | x :: rest => (x, {| script := rest; impatient := impatient s |})
  end.

Definition epoch : Datetime.datetime :=
  {| Datetime.year := 2024; Datetime.month := 1; Datetime.day := 1;
     Datetime.hour := 0; Datetime.minute := 0; Datetime.second := 0;
     Datetime.microsecond := 0 |}.

#[global] Instance stage_host : Host Stage := {
  spawn cmd cwd fs s := let '(res, s') := play s in (res, fs, s');
  now s := (epoch, s);
  fault _ _ _ := None;
  nanoseconds := Fake.to_nanoseconds;
  sleep_fault _ _ := None;
  interrupted _ s := (impatient s, s);
  resolve p _ := Fake.locate p;
  elaborate_field _ _ := inl (ValueError "unsupported format field");
  float_str _ := "1.0"
}.

Definition world (l : list spawned) (hurry : bool) : World Stage :=
  {| files := {[ "/srv" := Dir; "/srv/repo" := Dir; "/srv/repo/.git" := Dir ]};
     host := {| script := l; impatient := hurry |};
     trace := [] |}.

(** A machine with nothing on its disk. *)
Definition blank : World Stage :=
  {| files := ∅; host := {| script := []; impatient := false |};
     trace := [] |}.

End Scripted.

(** ** A collaborator with tags

    A repository whose names are branches or tags, and whose head is on
    a branch or detached.  A tag verifies as a revision and can be
    checked out, which detaches the head. *)

Module Tagged.

Record Repo := {
  branches : list string;
  tags : list string;
  head : option string   (** the branch checked out, if any *)
}.

Definition known (name : string) (l : list string) : bool :=
  existsb (String.eqb name) l.

Definition git (cmd : list string) (r : Repo) : CommandResult * Repo :=
  match cmd with
  | [_; verb; flag; name] =>
      if String.eqb verb "rev-parse" then
        if known name (branches r) || known name (tags r)
        then (Fake.ok ("1f3a9c07" ++ Text.nl), r)
        else (Fake.ko 128 "" "fatal: Needed a single revision", r)
      else if String.eqb verb "checkout" then
        if known name (branches r)
        then (Fake.ko 128 "" "fatal: a branch with that name already exists", r)
        else (Fake.ok "",
              {| branches := name :: branches r; tags := tags r;
                 head := Some name |})
      else (Fake.ko 1 "" "usage", r)
  | [_; verb; name] =>
      if String.eqb verb "checkout" then
        if known name (branches r)
        then (Fake.ok "",
              {| branches := branches r; tags := tags r; head := Some name |})
        else if known name (tags r)
        then ({| returncode := 0; stdout := "";
                stderr := "Note: switching to a detached HEAD" |},
              {| branches := branches r; tags := tags r; head := None |})
        else (Fake.ko 1 "" "error: pathspec did not match", r)
      else (Fake.ko 1 "" "usage", r)
  | _ => (Fake.ko 1 "" "usage", r)
  end.

#[global] Instance tagged_host : Host Repo := {
  spawn cmd cwd fs r := let '(res, r') := git cmd r in (Exited res, fs, r');
  now r := (Scripted.epoch, r);
  fault _ _ _ := None;
  nanoseconds := Fake.to_nanoseconds;
  sleep_fault _ _ := None;
  interrupted _ r := (false, r);
  resolve s _ := Fake.locate s;
  elaborate_field _ _ := inl (ValueError "unsupported format field");
  float_str _ := "1.0"
}.

(** A clone on [main] with the release tag [v1]. *)
Definition world0 : World Repo :=
  {| files := {[ "/srv/repo" := Dir; "/srv/repo/.git" := Dir ]};
     host := {| branches := ["main"]; tags := ["v1"]; head := Some "main" |};
     trace := [] |}.

End Tagged.

(** * Properties *)

(** ** Text *)

Module TextFacts.
Import Text.

Lemma app_cons (c : ascii) (a b : string) :
  String c a ++ b = String c (a ++ b).
Proof. reflexivity. Qed.

Lemma app_nil (s : string) : "" ++ s = s.
Proof. reflexivity. Qed.

Lemma lstrip_split_bounded (n : nat) :
  forall s, String.length s <= n ->
    exists lead, s = lead ++ lstrip s /\ all_space lead = true /\
                 starts_spaced (lstrip s) = false.
Proof.
  induction n as [|n IH]; intros s Hn.
  - destruct s; [|simpl in Hn; lia]. exists EmptyString. repeat split.
  - destruct s as [|a r1]; [exists EmptyString; repeat split|].
    simpl in Hn. cbn [lstrip].
    destruct (is_space a) eqn:Ha.
    { destruct (IH r1 ltac:(lia)) as (lead & Heq & Hsp & Hfirst).
      exists (String a lead). rewrite app_cons, <- Heq.
      cbn [all_space]. rewrite Ha, Hsp. repeat split. exact Hfirst. }
    destruct r1 as [|b r2].
    { exists EmptyString. cbn [starts_spaced]. rewrite Ha. repeat split. }
    simpl in Hn.
    destruct (is_space2 a b) eqn:Hab.
    { destruct (IH r2 ltac:(lia)) as (lead & Heq & Hsp & Hfirst).
      exists (String a (String b lead)). rewrite !app_cons, <- Heq.
      cbn [all_space]. rewrite Hab, Hsp, orb_true_r. repeat split.
      exact Hfirst. }
    destruct r2 as [|c r3].
    { exists EmptyString. cbn [starts_spaced]. rewrite Ha, Hab.
      repeat split. }
    simpl in Hn.
    destruct (is_space3 a b c) eqn:Habc.
    { destruct (IH r3 ltac:(lia)) as (lead & Heq & Hsp & Hfirst).
      exists (String a (String b (String c lead))).
      rewrite !app_cons, <- Heq.
      cbn [all_space]. rewrite Habc, Hsp, !orb_true_r. repeat split.
      exact Hfirst. }
    exists EmptyString. cbn [starts_spaced]. rewrite Ha, Hab, Habc.
    repeat split.
Qed.

Lemma lstrip_split (s : string) :
  exists lead, s = lead ++ lstrip s /\ all_space lead = true /\
               starts_spaced (lstrip s) = false.
Proof. exact (lstrip_split_bounded (String.length s) s (le_n _)). Qed.

(** One white-space character in front of white space. *)
Lemma all_space_char (p t : string) :
  space_char p = true -> all_space t = true -> all_space (p ++ t) = true.
Proof.
  intros Hp Ht.
  destruct p as [|a [|b [|c [|d p]]]]; try discriminate Hp;
    cbn [space_char] in Hp; rewrite ?app_cons, app_nil; cbn [all_space];
    rewrite Hp, Ht, ?orb_true_r; reflexivity.
Qed.

Lemma rstrip_split (s : string) :
  exists trail, s = rstrip s ++ trail /\ all_space trail = true /\
                ends_spaced (rstrip s) = false.
Proof.
  induction s as [|c r IH].
  - exists EmptyString. repeat split.
  - destruct IH as (trail & Heq & Hsp & Hlast). cbn [rstrip].
    destruct (space_char (String c (rstrip r))) eqn:Hc.
    + exists (String c r). rewrite app_nil. repeat split.
      rewrite Heq, <- app_cons. apply all_space_char; assumption.
    + exists trail. rewrite app_cons, <- Heq. repeat split; [exact Hsp|].
      cbn [ends_spaced]. rewrite Hc, Hlast. reflexivity.
Qed.

Lemma starts_spaced_app (a b : string) :
  starts_spaced a = true -> starts_spaced (a ++ b) = true.
Proof.
  destruct a as [|x [|y [|z a]]]; cbn [starts_spaced]; try discriminate;
    rewrite ?app_cons, ?app_nil; cbn [starts_spaced].
  - rewrite orb_false_r. intros ->. reflexivity.
  - rewrite orb_false_r. intros Hs. apply orb_true_iff in Hs.
    destruct Hs as [-> | Hs]; [reflexivity|].
    destruct b; rewrite Hs, ?orb_true_r; reflexivity.
  - intros Hs. exact Hs.
Qed.

Lemma rstrip_first (s : string) :
  starts_spaced s = false -> starts_spaced (rstrip s) = false.
Proof.
  intros Hs. destruct (rstrip_split s) as (trail & Heq & _ & _).
  destruct (starts_spaced (rstrip s)) eqn:Hr; [|reflexivity].
  rewrite Heq, (starts_spaced_app _ trail Hr) in Hs. discriminate Hs.
Qed.

(** [strip] removes a run of white space at each end and nothing else. *)
Lemma strip_split (s : string) :
  exists lead trail,
    s = lead ++ strip s ++ trail /\
    all_space lead = true /\ all_space trail = true /\
    starts_spaced (strip s) = false /\ ends_spaced (strip s) = false.
Proof.
  destruct (lstrip_split s) as (lead & Hs & Hlead & Hfirst).
  destruct (rstrip_split (lstrip s)) as (trail & Hl & Htrail & Hlast).
  exists lead, trail. unfold strip.
  repeat split; try assumption.
  - rewrite <- Hl. exact Hs.
  - apply rstrip_first. exact Hfirst.
Qed.

Lemma contains_prefix (needle hay : string) :
  String.prefix needle hay = true -> contains needle hay = true.
Proof.
  destruct hay; simpl; intros ->; reflexivity.
Qed.

Lemma endswith_app_nl (s : string) : endswith (s ++ nl) nl = true.
Proof.
  induction s as [|c r IH].
  - reflexivity.
  - rewrite app_cons. simpl endswith. rewrite IH. apply orb_true_r.
Qed.

End TextFacts.

(** ** The monad *)

Section MonadFacts.

Context {E : Type} {H : Host E}.

Lemma bind_normal {A B} (m : M E A) (k : A -> M E B) (w w1 : World E) a :
  m w = (Normal a, w1) -> bind m k w = k a w1.
Proof. intros Hm. unfold bind. rewrite Hm. reflexivity. Qed.

Lemma bind_raised {A B} (m : M E A) (k : A -> M E B) (w w1 : World E) e :
  m w = (Raised e, w1) -> bind m k w = (Raised e, w1).
Proof. intros Hm. unfold bind. rewrite Hm. reflexivity. Qed.

Lemma bind_normal_inv {A B} (m : M E A) (k : A -> M E B) (w w' : World E) b :
  bind m k w = (Normal b, w') ->
  exists a w1, m w = (Normal a, w1) /\ k a w1 = (Normal b, w').
Proof.
  unfold bind. destruct (m w) as [[a|e| |] w1]; try discriminate.
  intros Hk. exists a, w1. split; [reflexivity | exact Hk].
Qed.


Lemma try_except_passes {A} (body : M E A) handler (w w1 : World E) a :
  body w = (Normal a, w1) -> try_except body handler w = (Normal a, w1).
Proof. intros Hb. unfold try_except. rewrite Hb. reflexivity. Qed.

Lemma try_except_handles {A} (body : M E A) handler (w w1 : World E) e h :
  body w = (Raised e, w1) -> handler e = Some h ->
  try_except body handler w = h w1.
Proof. intros Hb Hh. unfold try_except. rewrite Hb, Hh. reflexivity. Qed.

Lemma ret_inv {A} (a b : A) (w w' : World E) :
  ret a w = (Normal b, w') -> a = b /\ w = w'.
Proof. unfold ret. intros [= -> ->]. split; reflexivity. Qed.

End MonadFacts.

(** ** The gateway [sh] *)

Section Gateway.

Context {E : Type} {H : Host E}.

(** The world once the collaborator has answered: its files and state,
    and the call on the trace. *)
Definition answered (cmd : list string) (cwd : Pathlib.Path) (w : World E)
    (fs : FS) (h : E) : World E :=
  emit (Spawn cmd (Pathlib.str cwd))
    {| files := fs; host := h; trace := trace w |}.

Lemma subprocess_run_exited cmd cwd (w : World E) r fs h :
  spawn cmd (Pathlib.str cwd) (files w) (host w) = (Exited r, fs, h) ->
  subprocess_run cmd cwd w =
    (if (returncode r =? 0)%Z then Normal r
     else Raised (CalledProcessError r),
     answered cmd cwd w fs h).
Proof.
  intros Hs. unfold subprocess_run. rewrite Hs.
  destruct (returncode r =? 0)%Z; reflexivity.
Qed.

Lemma sh_success cmd cwd (w : World E) r fs h :
  spawn cmd (Pathlib.str cwd) (files w) (host w) = (Exited r, fs, h) ->
  returncode r = 0%Z ->
  sh cmd cwd w = (Normal (Text.strip (stdout r)), answered cmd cwd w fs h).
Proof.
  intros Hs Hr. unfold sh, bind.
  rewrite (subprocess_run_exited _ _ _ _ _ _ Hs), Hr. reflexivity.
Qed.

Lemma sh_failure cmd cwd (w : World E) r fs h :
  spawn cmd (Pathlib.str cwd) (files w) (host w) = (Exited r, fs, h) ->
  returncode r <> 0%Z ->
  sh cmd cwd w = (Raised (CalledProcessError r), answered cmd cwd w fs h).
Proof.
  intros Hs Hr. unfold sh, bind.
  rewrite (subprocess_run_exited _ _ _ _ _ _ Hs).
  destruct (Z.eqb_spec (returncode r) 0); [contradiction | reflexivity].
Qed.

Lemma sh_normal_inv cmd cwd (w w' : World E) out :
  sh cmd cwd w = (Normal out, w') ->
  exists r fs h,
    spawn cmd (Pathlib.str cwd) (files w) (host w) = (Exited r, fs, h) /\
    returncode r = 0%Z /\ out = Text.strip (stdout r) /\
    w' = answered cmd cwd w fs h.
Proof.
  unfold sh, bind, subprocess_run.
  destruct (spawn cmd (Pathlib.str cwd) (files w) (host w))
    as [[res fs] h] eqn:Hs.
  destruct res as [r|e]; [|discriminate].
  destruct (Z.eqb_spec (returncode r) 0) as [Hz|Hz]; [|discriminate].
  unfold ret. intros [= <- <-]. exists r, fs, h. repeat split. exact Hz.
Qed.

Lemma sh_raised_inv cmd cwd (w w' : World E) e :
  sh cmd cwd w = (Raised e, w') ->
  exists res fs h,
    spawn cmd (Pathlib.str cwd) (files w) (host w) = (res, fs, h) /\
    w' = answered cmd cwd w fs h.
Proof.
  unfold sh, bind, subprocess_run.
  destruct (spawn cmd (Pathlib.str cwd) (files w) (host w))
    as [[res fs] h] eqn:Hs.
  intros Hr. exists res, fs, h. split; [reflexivity|].
  destruct res as [r|e'].
  - destruct (returncode r =? 0)%Z; [discriminate|].
    injection Hr as _ <-. reflexivity.
  - injection Hr as _ <-. reflexivity.
Qed.

(** C9, as amended.  Whatever command the gateway runs: when the
    collaborator exits with status 0 the gateway returns its standard
    output with the white space at both ends removed and nothing else
    changed; when it exits with another status the gateway raises the
    error that carries the captured standard output and standard error
    as they are. *)
Theorem sh_propagates_output cmd cwd (w : World E) r fs h :
  spawn cmd (Pathlib.str cwd) (files w) (host w) = (Exited r, fs, h) ->
  (returncode r = 0%Z ->
     fst (sh cmd cwd w) = Normal (Text.strip (stdout r)) /\
     exists lead trail,
       stdout r = lead ++ Text.strip (stdout r) ++ trail /\
       Text.all_space lead = true /\ Text.all_space trail = true /\
       Text.starts_spaced (Text.strip (stdout r)) = false /\
       Text.ends_spaced (Text.strip (stdout r)) = false) /\
  (returncode r <> 0%Z ->
     fst (sh cmd cwd w) = Raised (CalledProcessError r)).
Proof.
  intros Hs. split; intros Hr.
  - split.
    + rewrite (sh_success _ _ _ _ _ _ Hs Hr). reflexivity.
    + apply TextFacts.strip_split.
  - rewrite (sh_failure _ _ _ _ _ _ Hs Hr). reflexivity.
Qed.

End Gateway.

Lemma sh_propagates_output_witness :
  fst (sh ["git"; "rev-parse"; "--verify"; "main"] (Pathlib.parse "/srv/repo")
         (Fake.world0 true)) = Normal "main" /\
  fst (sh ["git"; "rev-parse"; "--verify"; "gone"] (Pathlib.parse "/srv/repo")
         (Fake.world0 true)) =
    Raised (CalledProcessError
              (Fake.ko 128 "" "fatal: Needed a single revision")).
Proof.
  split.
  - assert (Hs : spawn ["git"; "rev-parse"; "--verify"; "main"]
                   (Pathlib.str (Pathlib.parse "/srv/repo"))
                   (files (Fake.world0 true)) (host (Fake.world0 true)) =
                 (Exited (Fake.ok ("main" ++ Text.nl)),
                  files (Fake.world0 true), Fake.repo0 true))
      by (vm_compute; reflexivity).
    destruct (sh_propagates_output _ _ _ _ _ _ Hs) as [Hok _].
    destruct (Hok eq_refl) as [Hret _]. exact Hret.
  - assert (Hs : spawn ["git"; "rev-parse"; "--verify"; "gone"]
                   (Pathlib.str (Pathlib.parse "/srv/repo"))
                   (files (Fake.world0 true)) (host (Fake.world0 true)) =
                 (Exited (Fake.ko 128 "" "fatal: Needed a single revision"),
                  files (Fake.world0 true), Fake.repo0 true))
      by (vm_compute; reflexivity).
    destruct (sh_propagates_output _ _ _ _ _ _ Hs) as [_ Hko].
    apply Hko. discriminate.
Defined.

(** C9 as stated fails: the output of a successful command is not
    returned exactly, the line feed that ends it is gone. *)
Lemma sh_output_not_exact :
  ~ (forall (E : Type) (H : Host E) cmd cwd (w : World E) r fs h,
       spawn cmd (Pathlib.str cwd) (files w) (host w) = (Exited r, fs, h) ->
       returncode r = 0%Z ->
       fst (sh cmd cwd w) = Normal (stdout r)).
Proof.
  intros claim.
  assert (Hs : spawn ["git"; "rev-parse"; "--verify"; "main"]
                 (Pathlib.str (Pathlib.parse "/srv/repo"))
                 (files (Fake.world0 true)) (host (Fake.world0 true)) =
               (Exited (Fake.ok ("main" ++ Text.nl)),
                files (Fake.world0 true), Fake.repo0 true))
    by (vm_compute; reflexivity).
  specialize (claim _ _ _ _ _ _ _ _ Hs eq_refl).
  vm_compute in claim. discriminate claim.
Qed.

(** ** Branch initialisation *)

Definition verify_cmd (branch : string) : list string :=
  ["git"; "rev-parse"; "--verify"; branch].

Definition checkout_cmd (branch : string) : list string :=
  ["git"; "checkout"; branch].

Definition create_cmd (branch : string) : list string :=
  ["git"; "checkout"; "-b"; branch].

Section BranchInitializer.

Context {E : Type} {H : Host E}.

(** What the collaborator says about its own state: the working tree
    is on a branch. *)
Variable on_branch : E -> string -> Prop.





End BranchInitializer.








(** ** The parsed command line *)

Lemma args_repo p o : parse_args p o !! "repo" = Some (VStr (opt_repo o)).
Proof. destruct p; reflexivity. Qed.

Lemma args_branch p o : parse_args p o !! "branch" = Some (VStr (opt_branch o)).
Proof. destruct p; reflexivity. Qed.

Lemma args_remote p o : parse_args p o !! "remote" = Some (VStr (opt_remote o)).
Proof. destruct p; reflexivity. Qed.

Lemma args_file p o : parse_args p o !! "file" = Some (VStr (opt_file o)).
Proof. destruct p; reflexivity. Qed.

Lemma args_interval p o :
  parse_args p o !! "interval" = Some (VFloat (opt_interval o)).
Proof. destruct p; reflexivity. Qed.

Lemma args_message p o :
  parse_args p o !! "message" = Some (VStr (opt_message o)).
Proof. destruct p; reflexivity. Qed.

Lemma args_author p o :
  parse_args p o !! "author" = Some (optional (opt_author o)).
Proof. destruct p; reflexivity. Qed.

Lemma args_no_push p o :
  parse_args p o !! "no_push" = Some (VBool (opt_no_push o)).
Proof. destruct p; reflexivity. Qed.

Lemma args_line_template o :
  parse_args AutoCommitterReadme o !! "line_template"
    = Some (VStr (opt_line_template o)).
Proof. reflexivity. Qed.

Lemma args_prepend o :
  parse_args AutoCommitterReadme o !! "prepend"
    = Some (VBool (opt_prepend o)).
Proof. reflexivity. Qed.

(** No option is stored under [no], and none under a name with a
    dash. *)
Lemma args_no p o : parse_args p o !! "no" = None.
Proof. destruct p; reflexivity. Qed.

Lemma args_line_template_dashed p o :
  parse_args p o !! "line-template" = None.
Proof. destruct p; reflexivity. Qed.

Ltac attrs :=
  unfold getattr, hasattr;
  rewrite ?args_repo, ?args_branch, ?args_remote, ?args_file, ?args_interval,
    ?args_message, ?args_author, ?args_no_push, ?args_line_template,
    ?args_prepend, ?args_no, ?args_line_template_dashed.

Lemma files_emit {E} ev (w : World E) : files (emit ev w) = files w.
Proof. reflexivity. Qed.

Lemma host_emit {E} ev (w : World E) : host (emit ev w) = host w.
Proof. reflexivity. Qed.

Lemma trace_emit {E} ev (w : World E) :
  trace (emit ev w) = (trace w ++ [ev])%list.
Proof. reflexivity. Qed.

Ltac mrun :=
  cbv [bind ret raise continue_ lift try_except sys_exit expect_str
       expect_float print negb truthy optional];
  cbn [files host trace fst snd];
  rewrite ?files_emit, ?host_emit.

(** ** Start-up *)

Definition status_cmd : list string := ["git"; "status"; "--porcelain"].

Section Startup.

Context {E : Type} {H : Host E}.

Lemma startup_unresolved p o (w : World E) e :
  resolve (opt_repo o) (host w) = inl e ->
  startup p (parse_args p o) w = (Raised e, w).
Proof.
  intros Hr. unfold startup. attrs. mrun. rewrite Hr. reflexivity.
Qed.

Lemma startup_uninspected p o (w : World E) repo e :
  resolve (opt_repo o) (host w) = inr repo ->
  fault Stat (Pathlib.str (Pathlib.joinpath repo ".git")) (host w) = Some e ->
  startup p (parse_args p o) w = (Raised e, w).
Proof.
  intros Hr Hf. unfold startup. attrs. mrun. rewrite Hr. mrun.
  unfold path_exists. rewrite Hf. reflexivity.
Qed.

Lemma startup_without_metadata p o (w : World E) repo :
  resolve (opt_repo o) (host w) = inr repo ->
  fault Stat (Pathlib.str (Pathlib.joinpath repo ".git")) (host w) = None ->
  files w !! Pathlib.str (Pathlib.joinpath repo ".git") = None ->
  startup p (parse_args p o) w =
    (Raised (SystemExit 2),
     emit (Print Stderr
             (Text.join " "
                ["ERROR: " ++ Pathlib.str repo ++
                 " does not look like a git repository (.git missing)"]
              ++ Text.nl)) w).
Proof.
  intros Hr Hf Hgit. unfold startup. attrs. mrun. rewrite Hr. mrun.
  unfold path_exists. rewrite Hf, Hgit. mrun. reflexivity.
Qed.

Lemma startup_status_fails p o (w : World E) repo r fs h :
  resolve (opt_repo o) (host w) = inr repo ->
  fault Stat (Pathlib.str (Pathlib.joinpath repo ".git")) (host w) = None ->
  files w !! Pathlib.str (Pathlib.joinpath repo ".git") <> None ->
  spawn status_cmd (Pathlib.str repo) (files w) (host w)
    = (Exited r, fs, h) ->
  returncode r <> 0%Z ->
  startup p (parse_args p o) w =
    (Raised (SystemExit 3),
     emit (Print Stderr (Text.join " " [stderr r] ++ Text.nl))
       (answered status_cmd repo w fs h)).
Proof.
  intros Hr Hf Hgit Hs Hz. unfold startup. attrs. mrun. rewrite Hr. mrun.
  unfold path_exists. rewrite Hf.
  destruct (files w !! Pathlib.str (Pathlib.joinpath repo ".git"))
    as [nd|] eqn:Hnd; [clear Hgit | contradiction].
  mrun. fold status_cmd.
  rewrite (sh_failure status_cmd repo w r fs h Hs Hz). mrun. reflexivity.
Qed.

(** C8, as amended.  Whatever the options and however long the loop is
    observed.  When the repository path resolves and its [.git] entry
    can be looked up, the process exits with status 2 if there is no
    such entry, and with status 3 if there is one and the initial
    [git status] exits with a non-zero status.  When the path does not
    resolve, or the look-up is refused, the exception of that call
    leaves [main] unhandled, before anything is printed or run: the
    process ends with a traceback, not with status 2. *)
Theorem startup_exit_codes p o n (w : World E) :
  (forall repo,
     resolve (opt_repo o) (host w) = inr repo ->
     fault Stat (Pathlib.str (Pathlib.joinpath repo ".git")) (host w) = None ->
     (files w !! Pathlib.str (Pathlib.joinpath repo ".git") = None ->
      exit_status (fst (main p o n w)) = Some 2%Z) /\
     (forall r fs h,
        files w !! Pathlib.str (Pathlib.joinpath repo ".git") <> None ->
        spawn status_cmd (Pathlib.str repo) (files w) (host w)
          = (Exited r, fs, h) ->
        returncode r <> 0%Z ->
        exit_status (fst (main p o n w)) = Some 3%Z)) /\
  (forall e,
     resolve (opt_repo o) (host w) = inl e ->
     main p o n w = (Raised e, w)) /\
  (forall repo e,
     resolve (opt_repo o) (host w) = inr repo ->
     fault Stat (Pathlib.str (Pathlib.joinpath repo ".git")) (host w)
       = Some e ->
     main p o n w = (Raised e, w)).
Proof.
  split; [|split].
  - intros repo Hr Hf. split.
    + intros Hgit. unfold main.
      rewrite (bind_raised _ _ _ _ _
                 (startup_without_metadata p o w repo Hr Hf Hgit)).
      reflexivity.
    + intros r fs h Hgit Hs Hz. unfold main.
      rewrite (bind_raised _ _ _ _ _
                 (startup_status_fails p o w repo r fs h Hr Hf Hgit Hs Hz)).
      reflexivity.
  - intros e Hr. unfold main.
    apply bind_raised. exact (startup_unresolved p o w e Hr).
  - intros repo e Hr Hf. unfold main.
    apply bind_raised. exact (startup_uninspected p o w repo e Hr Hf).
Qed.

End Startup.

Lemma startup_exit_codes_witness :
  exit_status (fst (main AutoCommitter (Fake.options "main") 3 Fake.bare))
    = Some 2%Z /\
  exit_status (fst (main AutoCommitterReadme (Fake.options "main") 3
                      Fake.damaged)) = Some 3%Z.
Proof.
  split.
  - destruct (startup_exit_codes AutoCommitter (Fake.options "main") 3
                Fake.bare) as [Hst _].
    destruct (Hst Fake.root eq_refl eq_refl) as [Hmissing _].
    apply Hmissing. vm_compute. reflexivity.
  - destruct (startup_exit_codes AutoCommitterReadme (Fake.options "main") 3
                Fake.damaged) as [Hst _].
    destruct (Hst Fake.root eq_refl eq_refl) as [_ Hfails].
    apply (Hfails (Fake.ko 128 "" "fatal: not a git repository")
                  (files Fake.damaged) (host Fake.damaged)).
    + vm_compute. discriminate.
    + vm_compute. reflexivity.
    + discriminate.
Defined.

(** The command line with a repository below the home directory of a
    user the machine does not know. *)
Definition homeless : Options :=
  {| opt_repo := "~nosuchuser/repo"; opt_branch := "main";
     opt_remote := "origin"; opt_file := "README.md";
     opt_interval := Finite 1; opt_message := "[bot] heartbeat";
     opt_author := None; opt_no_push := false;
     opt_line_template := "- heartbeat {ts}"; opt_prepend := false |}.

(** C8 as stated fails: a repository path that cannot be resolved ends
    the process before the metadata directory is looked for.  With
    nothing at all on the disk and a path below the home directory of
    an unknown user, the process ends with the [RuntimeError] of
    [expanduser], a traceback and status 1, not with status 2. *)
Lemma unresolved_path_is_not_status_2 :
  ~ (forall (E : Type) (H : Host E) p o n (w : World E),
       (forall path, files w !! path = None) ->
       exit_status (fst (main p o n w)) = Some 2%Z).
Proof.
  intros claim.
  specialize (claim Scripted.Stage _ AutoCommitter homeless 3 Scripted.blank).
  assert (Hrun : fst (main AutoCommitter homeless 3 Scripted.blank) =
                 Raised (RuntimeError "Could not determine home directory."))
    by (vm_compute; reflexivity).
  rewrite Hrun in claim. cbn [exit_status] in claim.
  assert (Hno : Some 1%Z <> Some 2%Z) by discriminate.
  apply Hno, claim. intros path. apply lookup_empty.
Qed.

(** ** The loop body *)

(** The command line of the commit, as the options determine it. *)
Definition commit_line (o : Options) (ts : string) : list string :=
  (["git"; "commit"; "-m"; (opt_message o ++ " " ++ ts)%string] ++
   match opt_author o with
   | Some a => if String.eqb a "" then [] else ["--author"; a]
   | None => []
   end)%list.

Definition push_line (o : Options) : list string :=
  ["git"; "push"; opt_remote o; opt_branch o].

Definition commit_failed_text (r : CommandResult) : string :=
  Text.join " " ["Commit failed:" ++ Text.nl; stdout r; stderr r] ++ Text.nl.

Definition push_failed_text (r : CommandResult) : string :=
  Text.join " " ["Push failed (will retry on next loop):" ++ Text.nl;
                 stdout r; stderr r] ++ Text.nl.

Section LoopBody.

Context {E : Type} {H : Host E}.

(** The pass up to the staged file: steps 1 and 2 of the loop. *)
Definition staged_pass (p : program) (args : Namespace)
    (repo target : Pathlib.Path) : M E string :=
  let* ts := mutate p args target in
  let* _ := stage repo target in
  ret ts.

(** The pass after the commit: push when enabled, then sleep. *)
Definition conclude (p : program) (args : Namespace) (repo : Pathlib.Path)
  : M E unit :=
  let* _ := push p args repo in
  pause args.

(** The world after a sleep that no signal cut short. *)
Definition slept (secs : Q) (w : World E) (h : E) : World E :=
  emit (Sleep secs) {| files := files w; host := h; trace := trace w |}.

Lemma iteration_split p args repo target (w : World E) :
  iteration p args repo target w =
    (let* ts := staged_pass p args repo target in
     let* _ := commit args repo ts in
     conclude p args repo) w.
Proof.
  unfold iteration, staged_pass, conclude, bind.
  destruct (mutate p args target w) as [[ts|e| |] w1]; try reflexivity.
  destruct (stage repo target w1) as [[u|e| |] w2]; reflexivity.
Qed.

Lemma commit_cmd_line p o ts (w : World E) :
  commit_cmd (parse_args p o) ts w = (Normal (commit_line o ts), w).
Proof.
  unfold commit_cmd, commit_line. attrs. mrun.
  destruct (opt_author o) as [a|]; simpl; [|reflexivity].
  destruct (String.eqb a ""); reflexivity.
Qed.

Lemma time_sleep_quiet secs q (w : World E) h :
  timeout secs = inr q ->
  sleep_fault q (host w) = None ->
  interrupted q (host w) = (false, h) ->
  time_sleep secs w = (Normal tt, slept q w h).
Proof.
  intros Hq Hf Hi. unfold time_sleep. rewrite Hq, Hf, Hi. reflexivity.
Qed.

Lemma time_sleep_refuses secs e (w : World E) :
  timeout secs = inl e -> time_sleep secs w = (Raised e, w).
Proof. intros Hq. unfold time_sleep. rewrite Hq. reflexivity. Qed.

Lemma time_sleep_refused secs q e (w : World E) :
  timeout secs = inr q -> sleep_fault q (host w) = Some e ->
  time_sleep secs w = (Raised e, w).
Proof. intros Hq Hf. unfold time_sleep. rewrite Hq, Hf. reflexivity. Qed.

Lemma while_true_next n (body : M E unit) (w w' : World E) o :
  body w = (o, w') -> (o = Normal tt \/ o = Continued) ->
  while_true (S n) body w = while_true n body w'.
Proof.
  intros Hb [-> | ->]; simpl; rewrite Hb; reflexivity.
Qed.

(** The commit step when the commit exits with a non-zero status and
    its output, in lower case, does not contain the marker: the
    failure is printed and the interval slept. *)
Lemma commit_reports p o repo (w1 : World E) ts r fs h :
  let cmd := commit_line o ts in
  spawn cmd (Pathlib.str repo) (files w1) (host w1) = (Exited r, fs, h) ->
  returncode r <> 0%Z ->
  Text.contains marker (Text.lower (stdout r ++ stderr r)) = false ->
  commit (parse_args p o) repo ts w1 =
    (let* _ := time_sleep (opt_interval o) in continue_)
      (emit (Print Stderr (commit_failed_text r)) (answered cmd repo w1 fs h)).
Proof.
  intros cmd Hs Hz Hm. unfold commit.
  rewrite (bind_normal _ _ _ _ _ (commit_cmd_line p o ts w1)).
  cbv beta. fold cmd.
  erewrite try_except_handles;
    [| rewrite (bind_raised _ _ _ _ _ (sh_failure cmd repo w1 r fs h Hs Hz));
       reflexivity
     | reflexivity].
  rewrite Hm. attrs. mrun. fold (commit_failed_text r). reflexivity.
Qed.

(** C1, as amended.  Take a pass of either program that has changed
    and staged the file, and whose commit exits with a non-zero status
    while its output, in lower case, does not contain the marker.  The
    pass prints the failure to the error stream and calls
    [time.sleep] with the interval.  When the interval is one
    [time.sleep] accepts (a number that is not negative and within the
    range of the platform), the system does not refuse the sleep and no
    signal cuts it short, the pass sleeps the interval and ends by
    [continue]: nothing else is run, in particular no push, and the
    loop goes on with its next pass, which starts at the change of the
    file.  When the interval is one [time.sleep] refuses, or the
    system refuses the sleep, the pass ends, the failure printed, with
    the exception of that call, which nothing in the program
    handles. *)
Theorem commit_failure_retries p o repo target (w w1 : World E) ts r fs h :
  let args := parse_args p o in
  let cmd := commit_line o ts in
  let w2 := emit (Print Stderr (commit_failed_text r))
              (answered cmd repo w1 fs h) in
  staged_pass p args repo target w = (Normal ts, w1) ->
  spawn cmd (Pathlib.str repo) (files w1) (host w1) = (Exited r, fs, h) ->
  returncode r <> 0%Z ->
  Text.contains marker (Text.lower (stdout r ++ stderr r)) = false ->
  (forall secs h',
     timeout (opt_interval o) = inr secs ->
     sleep_fault secs h = None ->
     interrupted secs h = (false, h') ->
     let w3 := slept secs w2 h' in
     iteration p args repo target w = (Continued, w3) /\
     trace w3 = (trace w1 ++ [Spawn cmd (Pathlib.str repo);
                              Print Stderr (commit_failed_text r);
                              Sleep secs])%list /\
     forall n,
       while_true (S n) (iteration p args repo target) w =
         while_true n (iteration p args repo target) w3) /\
  (forall e n,
     timeout (opt_interval o) = inl e \/
     (exists secs, timeout (opt_interval o) = inr secs /\
                   sleep_fault secs h = Some e) ->
     iteration p args repo target w = (Raised e, w2) /\
     while_true (S n) (iteration p args repo target) w = (Raised e, w2)).
Proof.
  intros args cmd w2 Hpre Hs Hz Hm.
  assert (Hit : iteration p args repo target w =
                  (let* _ := time_sleep (opt_interval o) in continue_) w2).
  { rewrite iteration_split. rewrite (bind_normal _ _ _ _ _ Hpre).
    cbv beta. unfold bind at 1. subst args.
    rewrite (commit_reports p o repo w1 ts r fs h Hs Hz Hm).
    fold cmd. fold w2. unfold bind, continue_.
    destruct (time_sleep (opt_interval o) w2) as [[u|e| |] w3];
      reflexivity. }
  split.
  - intros secs h' Hq Hf Hi w3.
    assert (Hc : iteration p args repo target w = (Continued, w3)).
    { rewrite Hit. unfold bind.
      rewrite (time_sleep_quiet (opt_interval o) secs w2 h' Hq Hf Hi).
      reflexivity. }
    split; [exact Hc | split].
    + unfold w3, slept, w2, answered, emit. cbn [trace].
      rewrite <- !app_assoc. reflexivity.
    + intros n.
      exact (while_true_next n _ w w3 Continued Hc (or_intror eq_refl)).
  - intros e n Hq.
    assert (Hr : iteration p args repo target w = (Raised e, w2)).
    { rewrite Hit. unfold bind. destruct Hq as [Hq | (secs & Hq & Hf)].
      - rewrite (time_sleep_refuses (opt_interval o) e w2 Hq). reflexivity.
      - rewrite (time_sleep_refused (opt_interval o) secs e w2 Hq Hf).
        reflexivity. }
    split; [exact Hr|]. cbn [while_true]. rewrite Hr. reflexivity.
Qed.

Lemma prefix_lower (a b : string) :
  String.prefix a b = true ->
  String.prefix (Text.lower a) (Text.lower b) = true.
Proof.
  revert b. induction a as [|c a IH]; intros b;
    [destruct b; reflexivity|].
  destruct b as [|d b]; simpl; [discriminate|].
  destruct (Ascii.ascii_dec c d) as [->|Hne]; [|discriminate].
  intros Hp. destruct (Ascii.ascii_dec (Text.lower_char d) (Text.lower_char d))
    as [_|Hbad]; [apply IH; exact Hp | contradiction].
Qed.

Lemma contains_cons (needle : string) (d : ascii) (hay : string) :
  Text.contains needle (String d hay) =
    String.prefix needle (String d hay) || Text.contains needle hay.
Proof. reflexivity. Qed.

Lemma contains_empty (needle : string) :
  Text.contains needle "" = String.prefix needle "" || false.
Proof. reflexivity. Qed.

Lemma contains_lower (needle hay : string) :
  Text.contains needle hay = true ->
  Text.contains (Text.lower needle) (Text.lower hay) = true.
Proof.
  induction hay as [|d hay IH].
  - rewrite contains_empty, orb_false_r. intros Hp.
    apply TextFacts.contains_prefix. exact (prefix_lower _ _ Hp).
  - rewrite contains_cons. intros Hc.
    change (Text.lower (String d hay))
      with (String (Text.lower_char d) (Text.lower hay)).
    rewrite contains_cons.
    apply orb_true_iff in Hc. destruct Hc as [Hp|Hc].
    + pose proof (prefix_lower needle (String d hay) Hp) as Hp'.
      change (Text.lower (String d hay))
        with (String (Text.lower_char d) (Text.lower hay)) in Hp'.
      rewrite Hp'. reflexivity.
    + rewrite (IH Hc). apply orb_true_r.
Qed.

(** An output that contains the marker is recognised by the test of
    the programs, which looks for it in the lower-cased output. *)
Lemma marker_detected (out : string) :
  Text.contains marker out = true ->
  Text.contains marker (Text.lower out) = true.
Proof. intros Hc. exact (contains_lower marker out Hc). Qed.

(** The step after a commit that exited with status 0, or with another
    status and the marker in its lower-cased output. *)
Lemma commit_passes p o repo (w1 : World E) ts r fs h :
  let cmd := commit_line o ts in
  spawn cmd (Pathlib.str repo) (files w1) (host w1) = (Exited r, fs, h) ->
  returncode r = 0%Z \/
  (returncode r <> 0%Z /\
   Text.contains marker (Text.lower (stdout r ++ stderr r)) = true) ->
  commit (parse_args p o) repo ts w1 = (Normal tt, answered cmd repo w1 fs h).
Proof.
  intros cmd Hs Hcase. unfold commit.
  rewrite (bind_normal _ _ _ _ _ (commit_cmd_line p o ts w1)).
  cbv beta. fold cmd. destruct Hcase as [Hz | [Hz Hm]].
  - apply try_except_passes.
    rewrite (bind_normal _ _ _ _ _ (sh_success cmd repo w1 r fs h Hs Hz)).
    reflexivity.
  - erewrite try_except_handles;
      [| rewrite (bind_raised _ _ _ _ _ (sh_failure cmd repo w1 r fs h Hs Hz));
         reflexivity
       | reflexivity].
    rewrite Hm. reflexivity.
Qed.

Lemma pass_after_commit p o repo target (w w1 : World E) ts r fs h :
  let cmd := commit_line o ts in
  staged_pass p (parse_args p o) repo target w = (Normal ts, w1) ->
  spawn cmd (Pathlib.str repo) (files w1) (host w1) = (Exited r, fs, h) ->
  returncode r = 0%Z \/
  (returncode r <> 0%Z /\
   Text.contains marker (Text.lower (stdout r ++ stderr r)) = true) ->
  iteration p (parse_args p o) repo target w =
    conclude p (parse_args p o) repo (answered cmd repo w1 fs h).
Proof.
  intros cmd Hpre Hs Hcase.
  rewrite iteration_split. rewrite (bind_normal _ _ _ _ _ Hpre). cbv beta.
  erewrite bind_normal; [reflexivity|].
  exact (commit_passes p o repo w1 ts r fs h Hs Hcase).
Qed.

(** C2.  Take a pass of either program that has changed and staged the
    file.  When its commit exits with a non-zero status and the marker
    occurs in its standard output followed by its standard error, the
    pass goes on exactly as when the commit exits with status 0: with
    what follows the commit, from the world in which the commit is the
    last thing that happened; nothing is printed and nothing slept. *)
Theorem nothing_to_commit_is_swallowed p o repo target (w w1 : World E)
    ts r fs h :
  let args := parse_args p o in
  let cmd := commit_line o ts in
  staged_pass p args repo target w = (Normal ts, w1) ->
  spawn cmd (Pathlib.str repo) (files w1) (host w1) = (Exited r, fs, h) ->
  returncode r = 0%Z \/
  (returncode r <> 0%Z /\
   Text.contains marker (stdout r ++ stderr r) = true) ->
  iteration p args repo target w =
    conclude p args repo (answered cmd repo w1 fs h) /\
  trace (answered cmd repo w1 fs h) =
    (trace w1 ++ [Spawn cmd (Pathlib.str repo)])%list.
Proof.
  intros args cmd Hpre Hs Hcase. split; [|reflexivity].
  rewrite iteration_split. rewrite (bind_normal _ _ _ _ _ Hpre). cbv beta.
  subst args. erewrite bind_normal; [reflexivity|].
  apply (commit_passes p o repo w1 ts r fs h Hs).
  destruct Hcase as [Hz | [Hz Hm]]; [left; exact Hz | right].
  split; [exact Hz | apply marker_detected; exact Hm].
Qed.

(** *** The push step *)

(** In auto_committer.py the condition of the push cannot be
    evaluated: the parsed options have no attribute [no]. *)
Lemma push_condition_raises o repo (w : World E) :
  push AutoCommitter (parse_args AutoCommitter o) repo w =
    (Raised (AttributeError "no"), w).
Proof. unfold push. attrs. mrun. reflexivity. Qed.

Lemma push_disabled o repo (w : World E) :
  opt_no_push o = true ->
  push AutoCommitterReadme (parse_args AutoCommitterReadme o) repo w =
    (Normal tt, w).
Proof. intros Hn. unfold push. attrs. mrun. rewrite Hn. reflexivity. Qed.

(** In auto_committer_readme.py a push that fails is printed to the
    error stream and the pass goes on. *)
Lemma push_failure_is_logged o repo (w : World E) r fs h :
  opt_no_push o = false ->
  spawn (push_line o) (Pathlib.str repo) (files w) (host w)
    = (Exited r, fs, h) ->
  returncode r <> 0%Z ->
  push AutoCommitterReadme (parse_args AutoCommitterReadme o) repo w =
    (Normal tt,
     emit (Print Stderr (push_failed_text r))
       (answered (push_line o) repo w fs h)).
Proof.
  intros Hn Hs Hz. unfold push. attrs. mrun. rewrite Hn. mrun.
  fold (push_line o).
  rewrite (sh_failure (push_line o) repo w r fs h Hs Hz). reflexivity.
Qed.

End LoopBody.

Lemma commit_failure_retries_witness :
  fst (iteration AutoCommitter
         (parse_args AutoCommitter (Fake.options "main")) Fake.root Fake.readme
         (Fake.inject [None; Some (Fake.ko 1 "" "error: cannot lock ref")]
            (Fake.world0 true))) = Continued /\
  fst (iteration AutoCommitterReadme
         (parse_args AutoCommitterReadme (Fake.options "main"))
         Fake.root Fake.readme
         (Fake.inject [None; Some (Fake.ko 1 "" "error: cannot lock ref")]
            (Fake.world0 true))) = Continued.
Proof.
  pose (w := Fake.inject [None; Some (Fake.ko 1 "" "error: cannot lock ref")]
               (Fake.world0 true)).
  pose (ts := "2024-01-01T00:00:00.000000Z").
  split.
  - pose (w1 := snd (staged_pass AutoCommitter
                       (parse_args AutoCommitter (Fake.options "main"))
                       Fake.root Fake.readme w)).
    destruct (commit_failure_retries AutoCommitter (Fake.options "main")
                Fake.root Fake.readme w w1 ts
                (Fake.ko 1 "" "error: cannot lock ref")
                (files w1) (Fake.with_canned [] (host w1))) as [Hretry _].
    + vm_compute. reflexivity.
    + vm_compute. reflexivity.
    + discriminate.
    + vm_compute. reflexivity.
    + destruct (Hretry 1%Q (Fake.with_canned [] (host w1))) as [Hit _].
      * vm_compute. reflexivity.
      * reflexivity.
      * reflexivity.
      * fold w. rewrite Hit. reflexivity.
  - pose (w1 := snd (staged_pass AutoCommitterReadme
                       (parse_args AutoCommitterReadme (Fake.options "main"))
                       Fake.root Fake.readme w)).
    destruct (commit_failure_retries AutoCommitterReadme (Fake.options "main")
                Fake.root Fake.readme w w1 ts
                (Fake.ko 1 "" "error: cannot lock ref")
                (files w1) (Fake.with_canned [] (host w1))) as [Hretry _].
    + vm_compute. reflexivity.
    + vm_compute. reflexivity.
    + discriminate.
    + vm_compute. reflexivity.
    + destruct (Hretry 1%Q (Fake.with_canned [] (host w1))) as [Hit _].
      * vm_compute. reflexivity.
      * reflexivity.
      * reflexivity.
      * fold w. rewrite Hit. reflexivity.
Defined.

(** C1 as stated fails: the command line accepts the interval [inf],
    and with it the failed commit is printed and the sleep that should
    follow raises [OverflowError], which ends the process.  A negative
    interval or a NaN does the same with [ValueError]. *)
Lemma commit_failure_can_be_fatal :
  ~ (forall (E : Type) (H : Host E) p o repo target (w w1 : World E)
            ts r fs h,
       staged_pass p (parse_args p o) repo target w = (Normal ts, w1) ->
       spawn (commit_line o ts) (Pathlib.str repo) (files w1) (host w1)
         = (Exited r, fs, h) ->
       returncode r <> 0%Z ->
       Text.contains marker (Text.lower (stdout r ++ stderr r)) = false ->
       fst (iteration p (parse_args p o) repo target w) = Continued).
Proof.
  intros claim.
  pose (o := every (Infinite false)).
  pose (w := Fake.inject [None; Some (Fake.ko 1 "" "error: cannot lock ref")]
               (Fake.world0 true)).
  pose (w1 := snd (staged_pass AutoCommitterReadme
                     (parse_args AutoCommitterReadme o)
                     Fake.root Fake.readme w)).
  specialize (claim Fake.Repo _ AutoCommitterReadme o Fake.root Fake.readme
                w w1 "2024-01-01T00:00:00.000000Z"
                (Fake.ko 1 "" "error: cannot lock ref")
                (files w1) (Fake.with_canned [] (host w1))).
  assert (Hrun : fst (iteration AutoCommitterReadme
                        (parse_args AutoCommitterReadme o)
                        Fake.root Fake.readme w) = Raised too_large)
    by (vm_compute; reflexivity).
  rewrite Hrun in claim.
  assert (Hno : @Raised unit too_large <> Continued) by discriminate.
  apply Hno, claim.
  - vm_compute. reflexivity.
  - vm_compute. reflexivity.
  - discriminate.
  - vm_compute. reflexivity.
Qed.

Lemma nothing_to_commit_is_swallowed_witness :
  let quiet := Fake.ko 1 ("On branch main" ++ Text.nl ++
                          "nothing to commit, working tree clean") "" in
  let w := Fake.inject [None; Some quiet] (Fake.world0 false) in
  let o := Fake.options "main" in
  fst (iteration AutoCommitterReadme (parse_args AutoCommitterReadme o)
         Fake.root Fake.readme w) = Normal tt /\
  fst (iteration AutoCommitter (parse_args AutoCommitter o)
         Fake.root Fake.readme w) = Raised (AttributeError "no").
Proof.
  intros quiet w o.
  pose (ts := "2024-01-01T00:00:00.000000Z").
  split.
  - pose (w1 := snd (staged_pass AutoCommitterReadme
                       (parse_args AutoCommitterReadme o)
                       Fake.root Fake.readme w)).
    destruct (nothing_to_commit_is_swallowed AutoCommitterReadme o
                Fake.root Fake.readme w w1 ts quiet
                (files w1) (Fake.with_canned [] (host w1))) as [Hit _].
    + vm_compute. reflexivity.
    + vm_compute. reflexivity.
    + right. split; [discriminate | vm_compute; reflexivity].
    + rewrite Hit. vm_compute. reflexivity.
  - pose (w1 := snd (staged_pass AutoCommitter (parse_args AutoCommitter o)
                       Fake.root Fake.readme w)).
    destruct (nothing_to_commit_is_swallowed AutoCommitter o
                Fake.root Fake.readme w w1 ts quiet
                (files w1) (Fake.with_canned [] (host w1))) as [Hit _].
    + vm_compute. reflexivity.
    + vm_compute. reflexivity.
    + right. split; [discriminate | vm_compute; reflexivity].
    + rewrite Hit. vm_compute. reflexivity.
Defined.

(** ** Counting what a run did *)

Definition count_events (P : event -> bool) (l : list event) : nat :=
  List.length (List.filter P l).

Definition is_clock (ev : event) : bool :=
  match ev with Clock _ => true | _ => false end.

Definition is_write (ev : event) : bool :=
  match ev with Write _ _ => true | _ => false end.

Definition is_push (ev : event) : bool :=
  match ev with
  | Spawn (_ :: verb :: _) _ => String.eqb verb "push"
  | _ => false
  end.

Definition is_commit (ev : event) : bool :=
  match ev with
  | Spawn (_ :: verb :: _) _ => String.eqb verb "commit"
  | _ => false
  end.

Section PushGuard.

Context {E : Type} {H : Host E}.

(** C3, the defect.  In auto_committer.py a pass whose commit exits
    with status 0 does not reach the push: evaluating the condition
    [args.no-push] raises [AttributeError], nothing catches it, and
    the loop ends there, whatever the number of passes asked for. *)
Theorem auto_committer_stops_before_push o repo target (w w1 : World E)
    ts r fs h :
  let args := parse_args AutoCommitter o in
  let cmd := commit_line o ts in
  staged_pass AutoCommitter args repo target w = (Normal ts, w1) ->
  spawn cmd (Pathlib.str repo) (files w1) (host w1) = (Exited r, fs, h) ->
  returncode r = 0%Z ->
  iteration AutoCommitter args repo target w =
    (Raised (AttributeError "no"), answered cmd repo w1 fs h) /\
  forall n,
    while_true (S n) (iteration AutoCommitter args repo target) w =
      (Raised (AttributeError "no"), answered cmd repo w1 fs h).
Proof.
  intros args cmd Hpre Hs Hz.
  assert (Hit : iteration AutoCommitter args repo target w =
                (Raised (AttributeError "no"), answered cmd repo w1 fs h)).
  { pose proof (pass_after_commit AutoCommitter o repo target
                  w w1 ts r fs h Hpre Hs (or_introl Hz)) as Hgo.
    subst args cmd. rewrite Hgo. unfold conclude.
    rewrite (bind_raised _ _ _ _ _ (push_condition_raises o repo _)).
    reflexivity. }
  split; [exact Hit|].
  intros n. simpl. rewrite Hit. reflexivity.
Qed.

End PushGuard.

Lemma auto_committer_stops_before_push_witness :
  let run := main AutoCommitter (Fake.options "main") 3 (Fake.world0 false) in
  fst (iteration AutoCommitter
         (parse_args AutoCommitter (Fake.options "main"))
         Fake.root Fake.readme (Fake.world0 false))
    = Raised (AttributeError "no") /\
  fst run = Raised (AttributeError "no") /\
  Fake.tip (host (snd run)) =
    ["[bot] heartbeat 2024-01-01T00:00:00.000000Z"; "initial"] /\
  count_events is_push (trace (snd run)) = 0 /\
  count_events is_commit (trace (snd run)) = 1.
Proof.
  intros run. split.
  - pose (w := Fake.world0 false).
    pose (w1 := snd (staged_pass AutoCommitter
                       (parse_args AutoCommitter (Fake.options "main"))
                       Fake.root Fake.readme w)).
    destruct (auto_committer_stops_before_push (Fake.options "main")
                Fake.root Fake.readme w w1 "2024-01-01T00:00:00.000000Z"
                (Fake.ok "") (files w1)
                (Fake.with_heads
                   (<["main" := ["[bot] heartbeat 2024-01-01T00:00:00.000000Z";
                                 "initial"]]> (Fake.heads (host w1)))
                   "main" false (host w1))) as [Hit _].
    + vm_compute. reflexivity.
    + vm_compute. reflexivity.
    + reflexivity.
    + fold w. rewrite Hit. reflexivity.
  - vm_compute. repeat split.
Defined.

(** The same run of auto_committer_readme.py, with a remote that
    refuses every push: three passes, three commits, three pushes
    tried and reported. *)
Lemma readme_push_failures_keep_committing :
  let run := main AutoCommitterReadme (Fake.options "main") 3
               (Fake.world0 false) in
  fst run = Looping /\
  Fake.tip (host (snd run)) =
    ["[bot] heartbeat 2024-01-01T00:00:00.000002Z";
     "[bot] heartbeat 2024-01-01T00:00:00.000001Z";
     "[bot] heartbeat 2024-01-01T00:00:00.000000Z"; "initial"] /\
  count_events is_push (trace (snd run)) = 3 /\
  count_events is_commit (trace (snd run)) = 3 /\
  Fake.pushes (host (snd run)) = 0.
Proof. vm_compute. repeat split. Qed.

(** ** The time stamp *)

Inductive slot :=
| Digit
| Exactly (c : ascii).

(** The shape of a text: a digit or a given character at each place. *)
Fixpoint shaped (pattern : list slot) (s : string) : bool :=
  match pattern, s with
  | [], EmptyString => true
  | Digit :: pattern', String c r => Format.is_digit c && shaped pattern' r
  | Exactly x :: pattern', String c r => Ascii.eqb x c && shaped pattern' r
  | _, _ => false
  end.



(** The number a decimal numeral denotes. *)
Fixpoint number (acc : N) (s : string) : N :=
  match s with
  | EmptyString => acc
  | String c r => number (acc * 10 + N.of_nat (Text.code c - 48)) r
  end.

Module DatetimeFacts.
Import Datetime.

Lemma length_app (a b : string) :
  String.length (a ++ b) = String.length a + String.length b.
Proof.
  induction a as [|c a IH]; [reflexivity|].
  rewrite TextFacts.app_cons. simpl. rewrite IH. reflexivity.
Qed.



Lemma digit_value (n : N) :
  N.of_nat (Text.code (digit n) - 48) = (n mod 10)%N.
Proof.
  unfold digit. pose proof (N.mod_upper_bound n 10 ltac:(discriminate)) as Hlt.
  generalize dependent (n mod 10)%N. intros k Hlt.
  assert (Hk : (k = 0 \/ k = 1 \/ k = 2 \/ k = 3 \/ k = 4 \/ k = 5 \/
                k = 6 \/ k = 7 \/ k = 8 \/ k = 9)%N) by lia.
  repeat (destruct Hk as [-> | Hk]; [reflexivity|]). rewrite Hk. reflexivity.
Qed.













End DatetimeFacts.

Module StampFacts.
Import Datetime DatetimeFacts.








Lemma shaped_length (pattern : list slot) (s : string) :
  shaped pattern s = true -> String.length s = List.length pattern.
Proof.
  revert s. induction pattern as [|x pattern IH]; intros s.
  - destruct s; [reflexivity | discriminate].
  - destruct s as [|c s]; [destruct x; discriminate|].
    destruct x; simpl; intros Hs; apply andb_true_iff in Hs;
      destruct Hs as [_ Hs]; rewrite (IH s Hs); reflexivity.
Qed.

End StampFacts.

(** ** The file store *)

(** The bytes of a regular file, nothing for anything else. *)
Definition content (fs : FS) (path : string) : string :=
  match fs !! path with
  | Some (File d) => d
  | _ => EmptyString
  end.

Lemma make_dirs_keeps (ps : list Pathlib.Path) :
  forall (fs fs' : FS) (k : string),
    make_dirs ps fs = inr fs' ->
    (forall v, fs !! k = Some v -> fs' !! k = Some v) /\
    (fs !! k = None -> fs' !! k = None \/ fs' !! k = Some Dir).
Proof.
  induction ps as [|p ps IH]; intros fs fs' k; simpl.
  - intros [= <-]. split; [tauto | left; assumption].
  - destruct (fs !! Pathlib.str p) as [[d|]|] eqn:Hp; [discriminate | |].
    + apply IH.
    + intros Hrec. destruct (IH _ _ k Hrec) as [Hsome Hnone].
      destruct (decide (Pathlib.str p = k)) as [<-|Hne].
      * split.
        -- intros v Hv. congruence.
        -- intros _. right. apply Hsome. apply lookup_insert_eq.
      * rewrite lookup_insert_ne in Hsome, Hnone by exact Hne.
        split; assumption.
Qed.

Lemma make_dirs_content (ps : list Pathlib.Path) (fs fs' : FS) (k : string) :
  make_dirs ps fs = inr fs' -> content fs' k = content fs k.
Proof.
  intros Hm. destruct (make_dirs_keeps ps fs fs' k Hm) as [Hsome Hnone].
  unfold content. destruct (fs !! k) as [v|] eqn:Hk.
  - rewrite (Hsome v eq_refl). reflexivity.
  - destruct (Hnone eq_refl) as [-> | ->]; reflexivity.
Qed.

(** ** What a block adds to the trace *)

Lemma count_events_app (P : event -> bool) (l l' : list event) :
  count_events P (l ++ l') = count_events P l + count_events P l'.
Proof.
  unfold count_events. rewrite List.filter_app, List.length_app. reflexivity.
Qed.

Lemma count_events_emit {E} (P : event -> bool) ev (w : World E) :
  count_events P (trace (emit ev w)) =
    count_events P (trace w) + (if P ev then 1 else 0).
Proof.
  rewrite trace_emit, count_events_app. unfold count_events at 2. simpl.
  destruct (P ev); reflexivity.
Qed.

(** Events of a kind that neither a command, nor a sleep, nor a
    printed line belongs to. *)
Definition passive (P : event -> bool) : Prop :=
  (forall c d, P (Spawn c d) = false) /\
  (forall q, P (Sleep q) = false) /\
  (forall s x, P (Print s x) = false).


Lemma is_clock_passive : passive is_clock.
Proof. repeat split. Qed.

Section Silent.

Context {E : Type} {H : Host E}.
Variable P : event -> bool.

(** A block that, however it ends, adds no event of the kind [P]. *)
Definition silent {A} (m : M E A) : Prop :=
  forall w o w',
    m w = (o, w') -> count_events P (trace w') = count_events P (trace w).

Lemma silent_ret {A} (a : A) : silent (ret a).
Proof. intros w o w' [= _ <-]. reflexivity. Qed.

Lemma silent_raise {A} e : silent (@raise E A e).
Proof. intros w o w' [= _ <-]. reflexivity. Qed.

Lemma silent_continue {A} : silent (@continue_ E A).
Proof. intros w o w' [= _ <-]. reflexivity. Qed.

Lemma silent_bind {A B} (m : M E A) (k : A -> M E B) :
  silent m -> (forall a, silent (k a)) -> silent (bind m k).
Proof.
  intros Hm Hk w o w'. unfold bind.
  destruct (m w) as [[a|e| |] w1] eqn:Hmw.
  - intros Hkw. rewrite (Hk a _ _ _ Hkw). exact (Hm _ _ _ Hmw).
  - intros [= _ <-]. exact (Hm _ _ _ Hmw).
  - intros [= _ <-]. exact (Hm _ _ _ Hmw).
  - intros [= _ <-]. exact (Hm _ _ _ Hmw).
Qed.

Lemma silent_try {A} (body : M E A) handler :
  silent body -> (forall e h, handler e = Some h -> silent h) ->
  silent (try_except body handler).
Proof.
  intros Hb Hh w o w'. unfold try_except.
  destruct (body w) as [[a|e| |] w1] eqn:Hbw.
  - intros [= _ <-]. exact (Hb _ _ _ Hbw).
  - destruct (handler e) as [h|] eqn:He.
    + intros Hhw. rewrite (Hh e h He _ _ _ Hhw). exact (Hb _ _ _ Hbw).
    + intros [= _ <-]. exact (Hb _ _ _ Hbw).
  - intros [= _ <-]. exact (Hb _ _ _ Hbw).
  - intros [= _ <-]. exact (Hb _ _ _ Hbw).
Qed.

Lemma silent_getattr args name : silent (getattr args name).
Proof.
  unfold getattr. destruct (args !! name); [apply silent_ret | apply silent_raise].
Qed.

Lemma silent_expect_str v : silent (expect_str v).
Proof. destruct v; first [apply silent_ret | apply silent_raise]. Qed.

Lemma silent_expect_float v : silent (expect_float v).
Proof. destruct v; first [apply silent_ret | apply silent_raise]. Qed.

Lemma silent_print to items : passive P -> silent (print to items).
Proof.
  intros (_ & _ & Hp) w o w'. unfold print. intros [= _ <-].
  rewrite count_events_emit, Hp. lia.
Qed.

Lemma silent_sleep secs : passive P -> silent (time_sleep secs).
Proof.
  intros (_ & Hs & _) w o w'. unfold time_sleep.
  destruct (timeout secs) as [e|q]; [intros [= _ <-]; reflexivity|].
  destruct (sleep_fault q (host w)); [intros [= _ <-]; reflexivity|].
  destruct (interrupted q (host w)) as [hit h'].
  destruct hit; intros [= _ <-]; rewrite count_events_emit, Hs; simpl; lia.
Qed.

Lemma silent_run cmd cwd : passive P -> silent (subprocess_run cmd cwd).
Proof.
  intros (Hc & _ & _) w o w'. unfold subprocess_run.
  destruct (spawn cmd (Pathlib.str cwd) (files w) (host w)) as [[res fs] h].
  destruct res as [r|e].
  - destruct (returncode r =? 0)%Z; intros [= _ <-];
      rewrite count_events_emit, Hc; simpl; lia.
  - intros [= _ <-]. rewrite count_events_emit, Hc. simpl. lia.
Qed.

Lemma silent_sh cmd cwd : passive P -> silent (sh cmd cwd).
Proof.
  intros HP. unfold sh. apply silent_bind; [apply silent_run; exact HP|].
  intros r. apply silent_ret.
Qed.


Lemma silent_pause args : passive P -> silent (pause args).
Proof.
  intros HP. unfold pause.
  apply silent_bind; [apply silent_getattr|]. intros v.
  apply silent_bind; [apply silent_expect_float|]. intros q.
  apply silent_sleep. exact HP.
Qed.

Lemma silent_commit_cmd args ts : silent (commit_cmd args ts).
Proof.
  unfold commit_cmd.
  apply silent_bind; [apply silent_getattr|]. intros m.
  apply silent_bind; [apply silent_getattr|]. intros a.
  destruct (truthy a); [|apply silent_ret].
  apply silent_bind; [apply silent_expect_str | intros; apply silent_ret].
Qed.


Lemma silent_push p args repo : passive P -> silent (push p args repo).
Proof.
  intros HP. unfold push. apply silent_bind.
  - destruct p; [|apply silent_getattr].
    apply silent_bind; [apply silent_getattr | intros; apply silent_raise].
  - intros v. destruct (negb (truthy v)); [|apply silent_ret].
    apply silent_bind; [apply silent_getattr|]. intros r1.
    apply silent_bind; [apply silent_expect_str|]. intros remote.
    apply silent_bind; [apply silent_getattr|]. intros b1.
    apply silent_bind; [apply silent_expect_str|]. intros branch.
    apply silent_try.
    + apply silent_bind; [apply silent_sh; exact HP | intros; apply silent_ret].
    + intros e h. destruct e; try discriminate. intros [= <-].
      apply silent_print. exact HP.
Qed.


End Silent.

(** ** The change of the file *)

Definition heartbeat_payload (ts : string) : string :=
  "heartbeat: " ++ ts ++ Text.nl.

(** A line with the line feed [write_line] adds when it lacks one. *)
Definition terminated (line : string) : string :=
  line ++ (if negb (Text.endswith line Text.nl) then Text.nl else "").

Section Mutator.

Context {E : Type} {H : Host E}.

Lemma mkdir_parents_ok p (w : World E) fs1 :
  fault Mkdir (Pathlib.str p) (host w) = None ->
  make_dirs (Pathlib.lineage p) (files w) = inr fs1 ->
  mkdir_parents p w =
    (Normal tt, {| files := fs1; host := host w; trace := trace w |}).
Proof. intros Hf Hm. unfold mkdir_parents. rewrite Hf, Hm. reflexivity. Qed.



End Mutator.


(** ** The codec and the template *)

Module CodecFacts.
Import Codec.

Lemma decode_well_formed_bounded (n : nat) :
  forall s, String.length s <= n ->
            well_formed s = true -> decode_ignore s = s.
Proof.
  induction n as [|n IH]; intros s Hn.
  - destruct s; [reflexivity | simpl in Hn; lia].
  - destruct s as [|c0 r0]; [reflexivity|].
    simpl in Hn. cbn [well_formed decode_ignore].
    destruct (Text.code c0 <? 128)%nat eqn:H1.
    { intros Hw. rewrite (IH r0) by (assumption || lia). reflexivity. }
    destruct (Text.code c0 <? 194)%nat eqn:H2; [discriminate|].
    destruct (Text.code c0 <? 224)%nat eqn:H3.
    { destruct r0 as [|c1 r1]; [discriminate|]. simpl in Hn.
      intros Hw. apply andb_true_iff in Hw. destruct Hw as [Hc1 Hw].
      rewrite Hc1, (IH r1) by (assumption || lia). reflexivity. }
    destruct (Text.code c0 <? 240)%nat eqn:H4.
    { destruct r0 as [|c1 [|c2 r2]]; try discriminate. simpl in Hn.
      intros Hw. apply andb_true_iff in Hw. destruct Hw as [Hw Hr].
      apply andb_true_iff in Hw. destruct Hw as [Hc1 Hc2].
      rewrite Hc1, Hc2, (IH r2) by (assumption || lia). reflexivity. }
    destruct (Text.code c0 <? 245)%nat eqn:H5; [|discriminate].
    destruct r0 as [|c1 [|c2 [|c3 r3]]]; try discriminate. simpl in Hn.
    intros Hw. apply andb_true_iff in Hw. destruct Hw as [Hw Hr].
    apply andb_true_iff in Hw. destruct Hw as [Hw Hc3].
    apply andb_true_iff in Hw. destruct Hw as [Hc1 Hc2].
    rewrite Hc1, Hc2, Hc3, (IH r3) by (assumption || lia). reflexivity.
Qed.

(** Decoding with [errors="ignore"] loses nothing of well-formed
    UTF-8. *)
Lemma decode_well_formed (s : string) :
  well_formed s = true -> decode_ignore s = s.
Proof. apply (decode_well_formed_bounded (String.length s)). lia. Qed.

Lemma universal_newlines_no_cr (s : string) :
  no_cr s = true -> universal_newlines s = s.
Proof.
  induction s as [|c r IH]; [reflexivity|].
  cbn [no_cr universal_newlines]. intros Hn.
  apply andb_true_iff in Hn. destruct Hn as [Hc Hr].
  destruct (Ascii.eqb c cr); [discriminate|].
  rewrite (IH Hr). reflexivity.
Qed.

(** A file of well-formed UTF-8 without carriage returns is read back
    as it is. *)
Lemma read_text_faithful (data : string) :
  well_formed data = true -> no_cr data = true ->
  read_text_ignore data = data.
Proof.
  intros Hw Hn. unfold read_text_ignore.
  rewrite (decode_well_formed data Hw). apply universal_newlines_no_cr, Hn.
Qed.

End CodecFacts.

Module FormatFacts.
Import Format.

Section Plain.

Variable elaborate_field : string -> string -> exn + string.
Variable ts : string.

Lemma scan_literal_char (c : ascii) (r : string) :
  Ascii.eqb c "{" = false -> Ascii.eqb c "}" = false ->
  scan elaborate_field ts Literal (String c r) =
    cons_out c (scan elaborate_field ts Literal r).
Proof. intros Ho Hc. cbn [scan]. rewrite Ho, Hc. reflexivity. Qed.

Lemma scan_literal_placeholder (r : string) :
  scan elaborate_field ts Literal
    (String "{" (String "t" (String "s" (String "}" r)))) =
    app_out ts (scan elaborate_field ts Literal r).
Proof. reflexivity. Qed.

Lemma substitute_char (c : ascii) (r : string) :
  Ascii.eqb c "{" = false ->
  substitute (String c r) ts = String c (substitute r ts).
Proof.
  intros Ho. destruct r as [|c1 [|c2 [|c3 r3]]]; cbn [substitute];
    rewrite ?Ho; reflexivity.
Qed.

Lemma plain_char (c : ascii) (r : string) :
  Ascii.eqb c "{" = false ->
  plain (String c r) = negb (Ascii.eqb c "}") && plain r.
Proof.
  intros Ho. destruct r as [|c1 [|c2 [|c3 r3]]]; cbn [plain];
    rewrite ?Ho; reflexivity.
Qed.

(** A plain template that starts with an opening brace starts with the
    placeholder. *)
Lemma plain_brace (r : string) :
  plain (String "{" r) = true ->
  exists r', r = String "t" (String "s" (String "}" r')) /\ plain r' = true.
Proof.
  destruct r as [|c1 [|c2 [|c3 r3]]]; cbn [plain]; try discriminate.
  change (Ascii.eqb "{" "{") with true. cbn [andb negb].
  destruct (Ascii.eqb_spec c1 "t") as [->|]; [|discriminate].
  destruct (Ascii.eqb_spec c2 "s") as [->|]; [|discriminate].
  destruct (Ascii.eqb_spec c3 "}") as [->|]; [|discriminate].
  intros Hp. exists r3. split; [reflexivity | exact Hp].
Qed.

Lemma format_plain_bounded (n : nat) :
  forall t, String.length t <= n -> plain t = true ->
            scan elaborate_field ts Literal t = inr (substitute t ts).
Proof.
  induction n as [|n IH]; intros t Hn.
  - destruct t; [reflexivity | simpl in Hn; lia].
  - destruct t as [|c r]; [reflexivity|]. simpl in Hn.
    destruct (Ascii.eqb_spec c "{") as [->|Hne].
    + intros Hp. destruct (plain_brace r Hp) as (r' & -> & Hp').
      simpl in Hn. rewrite scan_literal_placeholder.
      rewrite (IH r') by (assumption || lia). reflexivity.
    + assert (Ho : Ascii.eqb c "{" = false)
        by (apply Ascii.eqb_neq; exact Hne).
      rewrite (plain_char c r Ho). intros Hp.
      apply andb_true_iff in Hp. destruct Hp as [Hc Hp].
      apply negb_true_iff in Hc.
      rewrite (scan_literal_char c r Ho Hc), (substitute_char c r Ho).
      rewrite (IH r) by (assumption || lia). reflexivity.
Qed.

(** On a plain template [str.format] is the substitution of the
    timestamp for every placeholder. *)
Lemma format_plain (template : string) :
  plain template = true ->
  format elaborate_field ts template = inr (substitute template ts).
Proof. apply (format_plain_bounded (String.length template)). lia. Qed.

End Plain.

End FormatFacts.

(** ** [write_line] *)

Section WriteLine.

Context {E : Type} {H : Host E}.

Lemma write_line_append_runs target line (w : World E) fs1 :
  fault Mkdir (Pathlib.str (Pathlib.parent target)) (host w) = None ->
  make_dirs (Pathlib.lineage (Pathlib.parent target)) (files w) = inr fs1 ->
  fault OpenAppend (Pathlib.str target) (host w) = None ->
  fs1 !! Pathlib.str target <> Some Dir ->
  exists w',
    write_line target line false w = (Normal tt, w') /\
    files w' !! Pathlib.str target =
      Some (File (content (files w) (Pathlib.str target) ++ terminated line)) /\
    host w' = host w /\
    trace w' = (trace w ++ [Write (Pathlib.str target) (terminated line)])%list.
Proof.
  intros Hf Hm Hfa Hnd.
  rewrite <- (make_dirs_content _ _ _ (Pathlib.str target) Hm).
  unfold write_line.
  rewrite (bind_normal _ _ _ _ _ (mkdir_parents_ok _ _ _ Hf Hm)). cbv beta.
  fold (terminated line).
  unfold bind at 1. unfold open_append. cbn [host files trace].
  rewrite Hfa. unfold content.
  destruct (fs1 !! Pathlib.str target) as [[d|]|] eqn:Hk;
    [ | contradiction | ].
  - unfold f_write. cbn [files host trace]. rewrite Hk.
    eexists. split; [reflexivity|].
    rewrite files_emit. cbn [files host trace].
    rewrite lookup_insert_eq. repeat split.
  - unfold f_write. cbn [files host trace]. rewrite lookup_insert_eq.
    eexists. split; [reflexivity|].
    rewrite files_emit. cbn [files host trace].
    rewrite lookup_insert_eq. repeat split.
Qed.

Lemma write_line_prepend_runs target line (w : World E) fs1 :
  fault Mkdir (Pathlib.str (Pathlib.parent target)) (host w) = None ->
  make_dirs (Pathlib.lineage (Pathlib.parent target)) (files w) = inr fs1 ->
  fault Stat (Pathlib.str target) (host w) = None ->
  fault ReadText (Pathlib.str target) (host w) = None ->
  fault OpenTruncate (Pathlib.str target) (host w) = None ->
  fs1 !! Pathlib.str target <> Some Dir ->
  let existing :=
    Codec.read_text_ignore (content (files w) (Pathlib.str target)) in
  exists w',
    write_line target line true w = (Normal tt, w') /\
    files w' !! Pathlib.str target =
      Some (File (terminated line ++ existing)) /\
    host w' = host w /\
    trace w' = (trace w ++ [Write (Pathlib.str target) (terminated line);
                            Write (Pathlib.str target) existing])%list.
Proof.
  intros Hf Hm Hfs Hfr Hft Hnd existing. subst existing.
  rewrite <- (make_dirs_content _ _ _ (Pathlib.str target) Hm).
  unfold write_line.
  rewrite (bind_normal _ _ _ _ _ (mkdir_parents_ok _ _ _ Hf Hm)). cbv beta.
  fold (terminated line).
  unfold bind at 1. unfold path_exists. cbn [host files trace].
  rewrite Hfs.
  unfold content.
  destruct (fs1 !! Pathlib.str target) as [[d|]|] eqn:Hk;
    [ | contradiction | ].
  - unfold bind at 1. unfold read_text. cbn [host files trace].
    rewrite Hfr, Hk.
    unfold bind at 1. unfold open_truncate. cbn [host files trace].
    rewrite Hft, Hk.
    unfold bind, f_write. cbn [files host trace].
    rewrite lookup_insert_eq, files_emit. cbn [files].
    rewrite lookup_insert_eq. rewrite TextFacts.app_nil.
    eexists. split; [reflexivity|].
    rewrite files_emit. cbn [files host trace].
    rewrite lookup_insert_eq. repeat split.
    unfold emit. cbn [trace]. rewrite <- app_assoc. reflexivity.
  - unfold bind at 1. unfold ret at 1.
    unfold bind at 1. unfold open_truncate. cbn [host files trace].
    rewrite Hft, Hk.
    unfold bind, f_write. cbn [files host trace].
    rewrite lookup_insert_eq, files_emit. cbn [files].
    rewrite lookup_insert_eq. rewrite TextFacts.app_nil.
    eexists. split; [reflexivity|].
    rewrite files_emit. cbn [files host trace].
    rewrite lookup_insert_eq. repeat split.
    unfold emit. cbn [trace]. rewrite <- app_assoc. reflexivity.
Qed.

Lemma terminated_cases (line : string) :
  (Text.endswith line Text.nl = true -> terminated line = line) /\
  (Text.endswith line Text.nl = false -> terminated line = line ++ Text.nl).
Proof.
  unfold terminated. split; intros ->; simpl; [|reflexivity].
  induction line as [|c r IH]; [reflexivity|].
  rewrite TextFacts.app_cons, IH. reflexivity.
Qed.

End WriteLine.

Section Prepend.

Context {E : Type} {H : Host E}.

(** C4, as amended.  In prepend mode, when the file system refuses
    nothing, the new file is the line, a line feed if the line lacks
    one, and then the prior contents as text mode reads them back:
    undecodable bytes dropped, carriage returns turned into line
    feeds.  For prior contents that are well-formed UTF-8 without
    carriage returns these are the prior contents themselves; with
    [A] and a line feed before and the line [B], the file becomes [B],
    line feed, [A], line feed. *)
Theorem prepend_keeps_readable_prior target line (w : World E) fs1 :
  fault Mkdir (Pathlib.str (Pathlib.parent target)) (host w) = None ->
  make_dirs (Pathlib.lineage (Pathlib.parent target)) (files w) = inr fs1 ->
  fault Stat (Pathlib.str target) (host w) = None ->
  fault ReadText (Pathlib.str target) (host w) = None ->
  fault OpenTruncate (Pathlib.str target) (host w) = None ->
  fs1 !! Pathlib.str target <> Some Dir ->
  let prior := content (files w) (Pathlib.str target) in
  exists w',
    write_line target line true w = (Normal tt, w') /\
    files w' !! Pathlib.str target =
      Some (File (line ++
                  (if negb (Text.endswith line Text.nl) then Text.nl else "")
                  ++ Codec.read_text_ignore prior)) /\
    (Codec.well_formed prior = true -> Codec.no_cr prior = true ->
     files w' !! Pathlib.str target =
       Some (File (line ++
                   (if negb (Text.endswith line Text.nl) then Text.nl else "")
                   ++ prior))).
Proof.
  intros Hf Hm Hfs Hfr Hft Hnd prior.
  destruct (write_line_prepend_runs target line w fs1 Hf Hm Hfs Hfr Hft Hnd)
    as (w' & Hrun & Hfile & _ & _).
  fold prior in Hfile. unfold terminated in Hfile.
  assert (Hassoc : forall a b c : string, (a ++ b) ++ c = a ++ b ++ c).
  { intros a b c. induction a as [|x a IH]; [reflexivity|].
    rewrite !TextFacts.app_cons, IH. reflexivity. }
  rewrite Hassoc in Hfile.
  exists w'. split; [exact Hrun | split; [exact Hfile|]].
  intros Hw Hn. rewrite Hfile.
  rewrite (CodecFacts.read_text_faithful prior Hw Hn). reflexivity.
Qed.

End Prepend.

Lemma prepend_keeps_readable_prior_witness :
  files (snd (write_line Fake.readme "B" true (Fake.world0 true)))
    !! "/srv/repo/README.md" =
    Some (File ("B" ++ Text.nl ++ "A" ++ Text.nl)).
Proof.
  destruct (prepend_keeps_readable_prior Fake.readme "B" (Fake.world0 true)
              (<["/srv" := Dir]> (files (Fake.world0 true))))
    as (w' & Hrun & _ & Hfile).
  - reflexivity.
  - vm_compute. reflexivity.
  - reflexivity.
  - reflexivity.
  - reflexivity.
  - vm_compute. discriminate.
  - rewrite Hrun. cbn [snd].
    assert (Hw : Codec.well_formed
                   (content (files (Fake.world0 true))
                      (Pathlib.str Fake.readme)) = true)
      by (vm_compute; reflexivity).
    assert (Hn : Codec.no_cr
                   (content (files (Fake.world0 true))
                      (Pathlib.str Fake.readme)) = true)
      by (vm_compute; reflexivity).
    specialize (Hfile Hw Hn). vm_compute in Hfile. vm_compute. exact Hfile.
Defined.

(** C4 as stated fails: prior contents that end in a carriage return
    and a line feed do not come back as they were. *)
Lemma prepend_alters_carriage_returns :
  ~ (forall (E : Type) (H : Host E) target line (w w' : World E),
       write_line target line true w = (Normal tt, w') ->
       files w' !! Pathlib.str target =
         Some (File (line ++
                     (if negb (Text.endswith line Text.nl)
                      then Text.nl else "")
                     ++ content (files w) (Pathlib.str target)))).
Proof.
  intros claim.
  pose (w := {| files := {[ "/srv/repo" := Dir;
                            "/srv/repo/README.md" :=
                              File (String "A" (String Codec.cr Text.nl)) ]};
                host := Fake.repo0 true; trace := [] |}).
  specialize (claim Fake.Repo Fake.repo_host Fake.readme "B" w
                (snd (write_line Fake.readme "B" true w))).
  assert (Hrun : write_line Fake.readme "B" true w =
                 (Normal tt, snd (write_line Fake.readme "B" true w)))
    by (vm_compute; reflexivity).
  specialize (claim Hrun). vm_compute in claim. discriminate claim.
Qed.

Section Templated.

Context {E : Type} {H : Host E}.

(** The world once the clock has been read. *)
Definition ticked (w : World E) (t : Datetime.datetime) (h : E) : World E :=
  emit (Clock t) {| files := files w; host := h; trace := trace w |}.

Lemma readme_mutate_renders o target (w : World E) t h1 line :
  now (host w) = (t, h1) ->
  Format.format elaborate_field (Datetime.strftime t stamp)
    (opt_line_template o) = inr line ->
  mutate AutoCommitterReadme (parse_args AutoCommitterReadme o) target w =
    (let* _ := write_line target line (opt_prepend o) in
     ret (Datetime.strftime t stamp)) (ticked w t h1).
Proof.
  intros Hnow Hfmt. unfold mutate.
  unfold bind at 1. unfold datetime_now. rewrite Hnow. fold (ticked w t h1).
  attrs. mrun. rewrite Hfmt. reflexivity.
Qed.

Lemma readme_mutate_fails o target (w : World E) t h1 e :
  now (host w) = (t, h1) ->
  Format.format elaborate_field (Datetime.strftime t stamp)
    (opt_line_template o) = inl e ->
  mutate AutoCommitterReadme (parse_args AutoCommitterReadme o) target w =
    (Raised e, ticked w t h1).
Proof.
  intros Hnow Hfmt. unfold mutate.
  unfold bind at 1. unfold datetime_now. rewrite Hnow. fold (ticked w t h1).
  attrs. mrun. rewrite Hfmt. reflexivity.
Qed.

(** C5, as amended.  In append-templated mode, for a template whose
    braces all belong to [{ts}] placeholders, the line is the template
    with the stamp of the clock reading in place of every placeholder,
    and the file gains that line at its end, with a line feed added
    exactly when the line does not end in one. *)
Theorem templated_line_appended o target (w : World E) t h1 fs1 :
  Format.plain (opt_line_template o) = true ->
  opt_prepend o = false ->
  now (host w) = (t, h1) ->
  fault Mkdir (Pathlib.str (Pathlib.parent target)) h1 = None ->
  make_dirs (Pathlib.lineage (Pathlib.parent target)) (files w) = inr fs1 ->
  fault OpenAppend (Pathlib.str target) h1 = None ->
  fs1 !! Pathlib.str target <> Some Dir ->
  let ts := Datetime.strftime t stamp in
  let line := Format.substitute (opt_line_template o) ts in
  Format.format elaborate_field ts (opt_line_template o) = inr line /\
  (exists w',
     mutate AutoCommitterReadme (parse_args AutoCommitterReadme o) target w
       = (Normal ts, w') /\
     files w' !! Pathlib.str target =
       Some (File (content (files w) (Pathlib.str target) ++
                   line ++
                   (if Text.endswith line Text.nl then "" else Text.nl)))).
Proof.
  intros Hplain Hprep Hnow Hf Hm Hfa Hnd ts line.
  pose proof (FormatFacts.format_plain elaborate_field ts _ Hplain) as Hfmt.
  fold line in Hfmt. split; [exact Hfmt|].
  rewrite (readme_mutate_renders o target w t h1 line Hnow Hfmt).
  rewrite Hprep.
  destruct (write_line_append_runs target line (ticked w t h1) fs1)
    as (w' & Hrun & Hfile & _ & _); try assumption.
  rewrite (bind_normal _ _ _ _ _ Hrun). cbv beta.
  exists w'. split; [reflexivity|].
  rewrite Hfile. unfold terminated, ticked. rewrite files_emit. cbn [files].
  destruct (Text.endswith line Text.nl); reflexivity.
Qed.

End Templated.

Lemma templated_line_appended_witness :
  let ts := "2024-01-01T00:00:00.000000Z" in
  Format.format elaborate_field ts "- heartbeat {ts}" =
    inr ("- heartbeat " ++ ts) /\
  files (snd (mutate AutoCommitterReadme
                (parse_args AutoCommitterReadme (Fake.options "main"))
                Fake.readme (Fake.world0 true))) !! "/srv/repo/README.md" =
    Some (File ("A" ++ Text.nl ++ "- heartbeat " ++ ts ++ Text.nl)).
Proof.
  intros ts.
  destruct (templated_line_appended (Fake.options "main") Fake.readme
              (Fake.world0 true)
              (fst (Fake.clock (host (Fake.world0 true))))
              (snd (Fake.clock (host (Fake.world0 true))))
              (<["/srv" := Dir]> (files (Fake.world0 true))))
    as (Hfmt & w' & Hrun & Hfile).
  - reflexivity.
  - reflexivity.
  - reflexivity.
  - reflexivity.
  - vm_compute. reflexivity.
  - reflexivity.
  - vm_compute. discriminate.
  - split; [exact Hfmt|].
    rewrite Hrun. cbn [snd]. vm_compute in Hfile. vm_compute. exact Hfile.
Defined.

(** C5 as stated fails: a template with a brace that is no placeholder
    is not rendered by substitution; [{x}] raises [KeyError]. *)
Lemma format_is_not_substitution :
  ~ (forall (elaborate : string -> string -> exn + string)
            (template ts : string),
       Format.format elaborate ts template =
         inr (Format.substitute template ts)).
Proof.
  intros claim.
  specialize (claim (fun _ _ => inl IndexError) "{x}"
                "2024-01-01T00:00:00.000000Z").
  vm_compute in claim. discriminate claim.
Qed.

(** ** One reading of the clock per pass *)

Ltac crack Hyp :=
  repeat (match type of Hyp with
          | context [match ?x with _ => _ end] => destruct x eqn:?
          | context [if ?b then _ else _] => destruct b eqn:?
          end; try discriminate Hyp).

Section Inversion.

Context {E : Type} {H : Host E}.

(** The bytes a pass writes first, as the stamp determines them. *)
Definition rendered (p : program) (o : Options) (ts : string) : exn + string :=
  match p with
  | AutoCommitter => inr (heartbeat_payload ts)
  | AutoCommitterReadme =>
      match Format.format elaborate_field ts (opt_line_template o) with
      | inr line => inr (terminated line)
      | inl e => inl e
      end
  end.

Lemma mkdir_parents_inv p (w w' : World E) u :
  mkdir_parents p w = (Normal u, w') ->
  host w' = host w /\ trace w' = trace w.
Proof.
  unfold mkdir_parents. intros Hm. crack Hm.
  injection Hm as _ <-. split; reflexivity.
Qed.

Lemma open_append_inv p (w w' : World E) u :
  open_append p w = (Normal u, w') ->
  host w' = host w /\ trace w' = trace w.
Proof.
  unfold open_append. intros Hm. crack Hm;
    injection Hm as _ <-; split; reflexivity.
Qed.

Lemma open_truncate_inv p (w w' : World E) u :
  open_truncate p w = (Normal u, w') ->
  host w' = host w /\ trace w' = trace w.
Proof.
  unfold open_truncate. intros Hm. crack Hm;
    injection Hm as _ <-; split; reflexivity.
Qed.

Lemma read_text_inv p (w w' : World E) s :
  read_text p w = (Normal s, w') -> w' = w.
Proof.
  unfold read_text. intros Hm. crack Hm. injection Hm as _ <-. reflexivity.
Qed.

Lemma path_exists_inv p (w w' : World E) b :
  path_exists p w = (Normal b, w') -> w' = w.
Proof.
  unfold path_exists. intros Hm.
  destruct (fault Stat (Pathlib.str p) (host w)); [discriminate|].
  injection Hm as _ <-. reflexivity.
Qed.

Lemma f_write_inv p data (w w' : World E) u :
  f_write p data w = (Normal u, w') ->
  host w' = host w /\
  trace w' = (trace w ++ [Write (Pathlib.str p) data])%list.
Proof. unfold f_write. intros [= _ <-]. split; reflexivity. Qed.

Lemma write_heartbeat_inv target (w w' : World E) ts :
  write_heartbeat target w = (Normal ts, w') ->
  exists t h1,
    now (host w) = (t, h1) /\ ts = Datetime.strftime t stamp /\
    trace w' = (trace w ++ [Clock t;
                            Write (Pathlib.str target)
                              (heartbeat_payload ts)])%list.
Proof.
  unfold write_heartbeat. intros Hw.
  apply bind_normal_inv in Hw. destruct Hw as (u & wa & Hmk & Hw).
  destruct (mkdir_parents_inv _ _ _ _ Hmk) as [Hha Hta].
  apply bind_normal_inv in Hw. destruct Hw as (t & wb & Hnow & Hw).
  unfold datetime_now in Hnow.
  destruct (now (host wa)) as [t0 h1] eqn:Hclock.
  injection Hnow as -> <-.
  apply bind_normal_inv in Hw. destruct Hw as (u1 & wc & Hop & Hw).
  destruct (open_append_inv _ _ _ _ Hop) as [Hhc Htc].
  apply bind_normal_inv in Hw. destruct Hw as (u2 & wd & Hfw & Hw).
  destruct (f_write_inv _ _ _ _ _ Hfw) as [Hhd Htd].
  apply ret_inv in Hw. destruct Hw as [<- <-].
  exists t, h1. rewrite <- Hha. split; [exact Hclock | split; [reflexivity|]].
  rewrite Htd, Htc, trace_emit. cbn [trace]. rewrite Hta, <- app_assoc.
  reflexivity.
Qed.

Lemma write_line_inv target line prepend (w w' : World E) u :
  write_line target line prepend w = (Normal u, w') ->
  host w' = host w /\
  exists more,
    trace w' = (trace w ++ Write (Pathlib.str target) (terminated line)
                           :: more)%list /\
    count_events is_clock more = 0.
Proof.
  unfold write_line. fold (terminated line). intros Hw.
  apply bind_normal_inv in Hw. destruct Hw as (u0 & wa & Hmk & Hw).
  destruct (mkdir_parents_inv _ _ _ _ Hmk) as [Hha Hta].
  destruct prepend.
  - apply bind_normal_inv in Hw. destruct Hw as (present & wb & Hex & Hw).
    apply path_exists_inv in Hex. subst wb.
    apply bind_normal_inv in Hw. destruct Hw as (existing & wc & Hrd & Hw).
    assert (Hwc : wc = wa).
    { destruct present; [exact (read_text_inv _ _ _ _ Hrd)|].
      apply ret_inv in Hrd. destruct Hrd as [_ <-]. reflexivity. }
    subst wc.
    apply bind_normal_inv in Hw. destruct Hw as (u1 & wd & Hop & Hw).
    destruct (open_truncate_inv _ _ _ _ Hop) as [Hhd Htd].
    apply bind_normal_inv in Hw. destruct Hw as (u2 & we & Hf1 & Hf2).
    destruct (f_write_inv _ _ _ _ _ Hf1) as [Hhe Hte].
    destruct (f_write_inv _ _ _ _ _ Hf2) as [Hhf Htf].
    split; [congruence|].
    exists [Write (Pathlib.str target) existing]. split; [|reflexivity].
    rewrite Htf, Hte, Htd, Hta, <- app_assoc. reflexivity.
  - apply bind_normal_inv in Hw. destruct Hw as (u1 & wd & Hop & Hf1).
    destruct (open_append_inv _ _ _ _ Hop) as [Hhd Htd].
    destruct (f_write_inv _ _ _ _ _ Hf1) as [Hhe Hte].
    split; [congruence|].
    exists []. split; [|reflexivity].
    rewrite Hte, Htd, Hta. reflexivity.
Qed.

End Inversion.

(** ** The trace only grows *)

Section Onward.

Context {E : Type} {H : Host E}.

(** A block that, however it ends, only adds events to the trace. *)
Definition onward {A} (m : M E A) : Prop :=
  forall w o w', m w = (o, w') -> exists l, trace w' = (trace w ++ l)%list.

Lemma onward_same {A} (m : M E A) :
  (forall w o w', m w = (o, w') -> trace w' = trace w) -> onward m.
Proof.
  intros Hm w o w' Hr. exists []. rewrite app_nil_r. exact (Hm _ _ _ Hr).
Qed.

Lemma onward_ret {A} (a : A) : onward (ret a).
Proof. apply onward_same. intros w o w' [= _ <-]. reflexivity. Qed.

Lemma onward_raise {A} e : onward (@raise E A e).
Proof. apply onward_same. intros w o w' [= _ <-]. reflexivity. Qed.

Lemma onward_continue {A} : onward (@continue_ E A).
Proof. apply onward_same. intros w o w' [= _ <-]. reflexivity. Qed.

Lemma onward_bind {A B} (m : M E A) (k : A -> M E B) :
  onward m -> (forall a, onward (k a)) -> onward (bind m k).
Proof.
  intros Hm Hk w o w'. unfold bind.
  destruct (m w) as [[a|e| |] w1] eqn:Hmw.
  - intros Hkw. destruct (Hm _ _ _ Hmw) as [l1 H1].
    destruct (Hk a _ _ _ Hkw) as [l2 H2].
    exists (l1 ++ l2)%list. rewrite H2, H1, app_assoc. reflexivity.
  - intros [= _ <-]. exact (Hm _ _ _ Hmw).
  - intros [= _ <-]. exact (Hm _ _ _ Hmw).
  - intros [= _ <-]. exact (Hm _ _ _ Hmw).
Qed.

Lemma onward_try {A} (body : M E A) handler :
  onward body -> (forall e h, handler e = Some h -> onward h) ->
  onward (try_except body handler).
Proof.
  intros Hb Hh w o w'. unfold try_except.
  destruct (body w) as [[a|e| |] w1] eqn:Hbw.
  - intros [= _ <-]. exact (Hb _ _ _ Hbw).
  - destruct (handler e) as [h|] eqn:He.
    + intros Hhw. destruct (Hb _ _ _ Hbw) as [l1 H1].
      destruct (Hh e h He _ _ _ Hhw) as [l2 H2].
      exists (l1 ++ l2)%list. rewrite H2, H1, app_assoc. reflexivity.
    + intros [= _ <-]. exact (Hb _ _ _ Hbw).
  - intros [= _ <-]. exact (Hb _ _ _ Hbw).
  - intros [= _ <-]. exact (Hb _ _ _ Hbw).
Qed.

Lemma onward_getattr args name : onward (getattr args name).
Proof.
  unfold getattr. destruct (args !! name); [apply onward_ret | apply onward_raise].
Qed.

Lemma onward_expect_str v : onward (expect_str v).
Proof. destruct v; first [apply onward_ret | apply onward_raise]. Qed.

Lemma onward_expect_float v : onward (expect_float v).
Proof. destruct v; first [apply onward_ret | apply onward_raise]. Qed.

Lemma onward_print to items : onward (print to items).
Proof. intros w o w'. unfold print. intros [= _ <-]. eexists. reflexivity. Qed.

Lemma onward_sleep secs : onward (time_sleep secs).
Proof.
  intros w o w'. unfold time_sleep.
  destruct (timeout secs) as [e|q];
    [intros [= _ <-]; exists []; symmetry; apply app_nil_r|].
  destruct (sleep_fault q (host w));
    [intros [= _ <-]; exists []; symmetry; apply app_nil_r|].
  destruct (interrupted q (host w)) as [hit h'].
  destruct hit; intros [= _ <-]; eexists; reflexivity.
Qed.

(** Whatever the collaborator answers, the call is what is added. *)
Lemma run_trace cmd cwd (w w' : World E) o :
  subprocess_run cmd cwd w = (o, w') ->
  trace w' = (trace w ++ [Spawn cmd (Pathlib.str cwd)])%list.
Proof.
  unfold subprocess_run.
  destruct (spawn cmd (Pathlib.str cwd) (files w) (host w)) as [[res fs] h].
  destruct res as [r|e]; [destruct (returncode r =? 0)%Z|];
    intros [= _ <-]; reflexivity.
Qed.

Lemma onward_sh cmd cwd : onward (sh cmd cwd).
Proof.
  unfold sh. apply onward_bind; [|intros; apply onward_ret].
  intros w o w' Hr. eexists. exact (run_trace _ _ _ _ _ Hr).
Qed.

Lemma onward_push p args repo : onward (push p args repo).
Proof.
  unfold push. apply onward_bind.
  - destruct p; [|apply onward_getattr].
    apply onward_bind; [apply onward_getattr | intros; apply onward_raise].
  - intros v. destruct (negb (truthy v)); [|apply onward_ret].
    apply onward_bind; [apply onward_getattr|]. intros r1.
    apply onward_bind; [apply onward_expect_str|]. intros remote.
    apply onward_bind; [apply onward_getattr|]. intros b1.
    apply onward_bind; [apply onward_expect_str|]. intros branch.
    apply onward_try.
    + apply onward_bind; [apply onward_sh | intros; apply onward_ret].
    + intros e h. destruct e; try discriminate. intros [= <-].
      apply onward_print.
Qed.

Lemma onward_pause args : onward (pause args).
Proof.
  unfold pause.
  apply onward_bind; [apply onward_getattr|]. intros v.
  apply onward_bind; [apply onward_expect_float|]. intros q.
  apply onward_sleep.
Qed.

(** What a block that only adds events, none of the kind [P], leaves
    behind. *)
Lemma onward_silent (P : event -> bool) {A} (m : M E A) (w : World E) :
  onward m -> silent P m ->
  exists l, trace (snd (m w)) = (trace w ++ l)%list /\ count_events P l = 0.
Proof.
  intros Hon Hsi. destruct (m w) as [o w'] eqn:Hm. cbn [snd].
  destruct (Hon _ _ _ Hm) as [l Hl]. exists l. split; [exact Hl|].
  pose proof (Hsi _ _ _ Hm) as Hc.
  rewrite Hl, count_events_app in Hc. lia.
Qed.

End Onward.

Section OneStamp.

Context {E : Type} {H : Host E}.

Lemma mutate_inv p o target (w w' : World E) ts :
  mutate p (parse_args p o) target w = (Normal ts, w') ->
  exists t h1 data more,
    now (host w) = (t, h1) /\ ts = Datetime.strftime t stamp /\
    rendered p o ts = inr data /\
    trace w' = (trace w ++ Clock t :: Write (Pathlib.str target) data
                           :: more)%list /\
    count_events is_clock more = 0.
Proof.
  destruct p.
  - intros Hm. cbn [mutate] in Hm.
    destruct (write_heartbeat_inv target w w' ts Hm)
      as (t & h1 & Hnow & Hts & Htr).
    exists t, h1, (heartbeat_payload ts), []. repeat split; assumption.
  - destruct (now (host w)) as [t h1] eqn:Hnow.
    destruct (Format.format elaborate_field (Datetime.strftime t stamp)
                (opt_line_template o)) as [e|line] eqn:Hfmt.
    + rewrite (readme_mutate_fails o target w t h1 e Hnow Hfmt).
      discriminate.
    + rewrite (readme_mutate_renders o target w t h1 line Hnow Hfmt).
      intros Hm. apply bind_normal_inv in Hm.
      destruct Hm as (u & wa & Hwl & Hret).
      apply ret_inv in Hret. destruct Hret as [<- <-].
      destruct (write_line_inv _ _ _ _ _ _ Hwl) as (_ & more & Htr & Hmore).
      exists t, h1, (terminated line), more.
      split; [reflexivity | split; [reflexivity | split; [|split]]].
      * unfold rendered. rewrite Hfmt. reflexivity.
      * rewrite Htr. unfold ticked. rewrite trace_emit. cbn [trace].
        rewrite <- app_assoc. reflexivity.
      * exact Hmore.
Qed.

(** What a pass does once the commit has failed without the marker. *)
Definition report (args : Namespace) (r : CommandResult) : M E unit :=
  let* _ := print Stderr ["Commit failed:" ++ Text.nl; stdout r; stderr r] in
  let* secs := getattr args "interval" in
  let* secs := expect_float secs in
  let* _ := time_sleep secs in
  continue_.

(** The commit step of a pass and all that follows it, by the way the
    call of the collaborator ends. *)
Lemma commit_onwards p o repo ts (w1 : World E) :
  (let* _ := commit (parse_args p o) repo ts in
   conclude p (parse_args p o) repo) w1 =
    match subprocess_run (commit_line o ts) repo w1 with
    | (Normal _, wa) => conclude p (parse_args p o) repo wa
    | (Raised (CalledProcessError r), wa) =>
        (let* _ :=
           (if Text.contains marker (Text.lower (stdout r ++ stderr r))
            then ret tt else report (parse_args p o) r) in
         conclude p (parse_args p o) repo) wa
    | (Raised e, wa) => (Raised e, wa)
    | (Continued, wa) => (Continued, wa)
    | (Looping, wa) => (Looping, wa)
    end.
Proof.
  unfold bind at 1. unfold commit.
  rewrite (bind_normal _ _ _ _ _ (commit_cmd_line p o ts w1)). cbv beta.
  unfold try_except. unfold bind at 1. unfold sh. unfold bind at 1.
  destruct (subprocess_run (commit_line o ts) repo w1) as [[r|e| |] wa];
    try reflexivity.
  destruct e; reflexivity.
Qed.

Lemma conclude_onward p args repo : onward (conclude p args repo).
Proof.
  unfold conclude.
  apply onward_bind; [apply onward_push | intros; apply onward_pause].
Qed.

Lemma conclude_reads_no_clock p args repo :
  silent is_clock (conclude p args repo).
Proof.
  unfold conclude.
  apply silent_bind; [apply silent_push, is_clock_passive|].
  intros _. apply silent_pause, is_clock_passive.
Qed.

Lemma report_onward args r : onward (report args r).
Proof.
  unfold report.
  apply onward_bind; [apply onward_print|]. intros _.
  apply onward_bind; [apply onward_getattr|]. intros v.
  apply onward_bind; [apply onward_expect_float|]. intros q.
  apply onward_bind; [apply onward_sleep | intros; apply onward_continue].
Qed.

Lemma report_reads_no_clock args r : silent is_clock (report args r).
Proof.
  unfold report.
  apply silent_bind; [apply silent_print, is_clock_passive|]. intros _.
  apply silent_bind; [apply silent_getattr|]. intros v.
  apply silent_bind; [apply silent_expect_float|]. intros q.
  apply silent_bind; [apply silent_sleep, is_clock_passive|].
  intros _. apply silent_continue.
Qed.

(** From a staged file on, a pass starts with the commit of the stamp
    it is given and never reads the clock. *)
Lemma commit_comes_first p o repo ts (w1 : World E) :
  exists rest,
    trace (snd ((let* _ := commit (parse_args p o) repo ts in
                 conclude p (parse_args p o) repo) w1)) =
      (trace w1 ++ Spawn (commit_line o ts) (Pathlib.str repo) :: rest)%list /\
    count_events is_clock rest = 0.
Proof.
  rewrite (commit_onwards p o repo ts w1).
  destruct (subprocess_run (commit_line o ts) repo w1) as [out wa] eqn:Hrun.
  pose proof (run_trace _ _ _ _ _ Hrun) as Hwa.
  assert (Hstop : exists rest,
            trace wa =
              (trace w1 ++ Spawn (commit_line o ts) (Pathlib.str repo)
                 :: rest)%list /\
            count_events is_clock rest = 0).
  { exists []. split; [exact Hwa | reflexivity]. }
  assert (Hgo : forall m : M E unit,
            onward m -> silent is_clock m ->
            exists rest,
              trace (snd (m wa)) =
                (trace w1 ++ Spawn (commit_line o ts) (Pathlib.str repo)
                   :: rest)%list /\
              count_events is_clock rest = 0).
  { intros m Hon Hsi.
    destruct (onward_silent is_clock m wa Hon Hsi) as (l & Hl & Hc).
    exists l. split; [|exact Hc].
    rewrite Hl, Hwa, <- app_assoc. reflexivity. }
  destruct out as [r|e| |]; try exact Hstop.
  - apply Hgo; [apply conclude_onward | apply conclude_reads_no_clock].
  - destruct e; try exact Hstop.
    apply Hgo.
    + apply onward_bind; [|intros; apply conclude_onward].
      destruct (Text.contains marker (Text.lower (stdout r ++ stderr r)));
        [apply onward_ret | apply report_onward].
    + apply silent_bind; [|intros; apply conclude_reads_no_clock].
      destruct (Text.contains marker (Text.lower (stdout r ++ stderr r)));
        [apply silent_ret | apply report_reads_no_clock].
Qed.

(** C10.  Take a pass of either program that gets as far as the staged
    file.  The clock was read once, at the start of the pass; the
    stamp [ts] of that reading is what the line written to the file was
    rendered with; and the pass goes on with the commit whose message
    is the configured message, a space and the same [ts]: that command
    is the next thing the pass runs, and whatever follows, the pass
    never reads the clock again. *)
Theorem one_timestamp_per_pass p o repo target (w w1 : World E) ts :
  staged_pass p (parse_args p o) repo target w = (Normal ts, w1) ->
  exists t h1 data more rest,
    now (host w) = (t, h1) /\ ts = Datetime.strftime t stamp /\
    rendered p o ts = inr data /\
    trace w1 = (trace w ++ Clock t :: Write (Pathlib.str target) data
                           :: more)%list /\
    trace (snd (iteration p (parse_args p o) repo target w)) =
      (trace w1 ++ Spawn (commit_line o ts) (Pathlib.str repo)
                :: rest)%list /\
    nth 3 (commit_line o ts) "" = opt_message o ++ " " ++ ts /\
    count_events is_clock
      (trace (snd (iteration p (parse_args p o) repo target w))) =
      S (count_events is_clock (trace w)).
Proof.
  intros Hpass.
  assert (Hit : iteration p (parse_args p o) repo target w =
                  (let* _ := commit (parse_args p o) repo ts in
                   conclude p (parse_args p o) repo) w1).
  { rewrite iteration_split. rewrite (bind_normal _ _ _ _ _ Hpass).
    reflexivity. }
  destruct (commit_comes_first p o repo ts w1) as (rest & Hrest & Hquiet).
  rewrite <- Hit in Hrest.
  unfold staged_pass in Hpass.
  apply bind_normal_inv in Hpass. destruct Hpass as (ts0 & wa & Hmut & Hpass).
  apply bind_normal_inv in Hpass. destruct Hpass as (u & wb & Hst & Hret).
  apply ret_inv in Hret. destruct Hret as [-> ->].
  destruct (mutate_inv p o target w wa ts Hmut)
    as (t & h1 & data & more & Hnow & Hts & Hren & Htr & Hmore).
  assert (Hstage : exists cmd cwd,
             trace w1 = (trace wa ++ [Spawn cmd cwd])%list).
  { unfold stage in Hst.
    destruct (Pathlib.relative_to target repo) as [rel|]; [|discriminate].
    apply bind_normal_inv in Hst. destruct Hst as (out & wc & Hsh & Hret).
    apply ret_inv in Hret. destruct Hret as [_ <-].
    destruct (sh_normal_inv _ _ _ _ _ Hsh) as (r & fs & h & _ & _ & _ & ->).
    eexists _, _. unfold answered. rewrite trace_emit. reflexivity. }
  destruct Hstage as (cmd & cwd & Htr1).
  assert (Hfull : trace w1 =
            (trace w ++ Clock t :: Write (Pathlib.str target) data
                     :: (more ++ [Spawn cmd cwd]))%list).
  { rewrite Htr1, Htr, <- app_assoc. reflexivity. }
  exists t, h1, data, (more ++ [Spawn cmd cwd])%list, rest.
  split; [exact Hnow|]. split; [exact Hts|]. split; [exact Hren|].
  split; [exact Hfull|]. split; [exact Hrest|]. split; [reflexivity|].
  rewrite Hrest, Hfull.
  change (Clock t :: Write (Pathlib.str target) data
            :: (more ++ [Spawn cmd cwd]))%list
    with ([Clock t; Write (Pathlib.str target) data]
            ++ (more ++ [Spawn cmd cwd]))%list.
  change (Spawn (commit_line o ts) (Pathlib.str repo) :: rest)%list
    with ([Spawn (commit_line o ts) (Pathlib.str repo)] ++ rest)%list.
  rewrite !count_events_app, Hmore, Hquiet. unfold count_events. simpl. lia.
Qed.

End OneStamp.

Lemma one_timestamp_per_pass_witness :
  let ts := "2024-01-01T00:00:00.000000Z" in
  let args := parse_args AutoCommitterReadme (Fake.options "main") in
  let run := iteration AutoCommitterReadme args Fake.root Fake.readme
               (Fake.world0 true) in
  fst (staged_pass AutoCommitterReadme args Fake.root Fake.readme
         (Fake.world0 true)) = Normal ts /\
  count_events is_clock (trace (snd run)) = 1 /\
  count_events
    (fun ev =>
       match ev with
       | Spawn ["git"; "commit"; "-m";
                "[bot] heartbeat 2024-01-01T00:00:00.000000Z"] _ => true
       | _ => false
       end) (trace (snd run)) = 1.
Proof.
  intros ts args run.
  pose (pass := staged_pass AutoCommitterReadme args Fake.root Fake.readme
                  (Fake.world0 true)).
  assert (Hpass : pass = (Normal ts, snd pass)) by (vm_compute; reflexivity).
  destruct (one_timestamp_per_pass AutoCommitterReadme (Fake.options "main")
              Fake.root Fake.readme (Fake.world0 true) (snd pass) ts Hpass)
    as (t & h1 & data & more & rest & _ & _ & _ & _ & _ & _ & Hcount).
  split; [fold pass; rewrite Hpass; reflexivity|].
  split; [exact Hcount | vm_compute; reflexivity].
Defined.

(** * Further properties *)

(** ** Which commands a pass runs *)

(** Kinds of events that only commands can belong to. *)
Definition commands_only (P : event -> bool) : Prop :=
  (forall q, P (Sleep q) = false) /\
  (forall s x, P (Print s x) = false) /\
  (forall t, P (Clock t) = false) /\
  (forall p d, P (Write p d) = false).

(** A command that is not [git add], [git commit] or [git push] run in
    the directory [cwd0]. *)
Definition foreign (cwd0 : string) (ev : event) : bool :=
  match ev with
  | Spawn (g :: verb :: _) cwd =>
      negb (String.eqb g "git" &&
            (String.eqb verb "add" || String.eqb verb "commit" ||
             String.eqb verb "push") &&
            String.eqb cwd cwd0)
  | Spawn _ _ => true
  | _ => false
  end.

Lemma is_push_commands_only : commands_only is_push.
Proof. repeat split. Qed.

Lemma foreign_commands_only cwd0 : commands_only (foreign cwd0).
Proof. repeat split. Qed.

Section Discreet.

Context {E : Type} {H : Host E}.
Variable P : event -> bool.

Local Abbreviation quiet m := (@silent E P _ m).

Lemma silent_bind_on {A B} (m : M E A) (k : A -> M E B) :
  quiet m ->
  (forall a, (exists w w1, m w = (Normal a, w1)) -> quiet (k a)) ->
  quiet (bind m k).
Proof.
  intros Hm Hk w o w'. unfold bind.
  destruct (m w) as [[a|e| |] w1] eqn:Hmw.
  - intros Hkw.
    rewrite (Hk a (ex_intro _ w (ex_intro _ w1 Hmw)) _ _ _ Hkw).
    exact (Hm _ _ _ Hmw).
  - intros [= _ <-]. exact (Hm _ _ _ Hmw).
  - intros [= _ <-]. exact (Hm _ _ _ Hmw).
  - intros [= _ <-]. exact (Hm _ _ _ Hmw).
Qed.

Lemma discreet_run cmd cwd :
  P (Spawn cmd (Pathlib.str cwd)) = false ->
  quiet (subprocess_run cmd cwd).
Proof.
  intros Hc w o w'. unfold subprocess_run.
  destruct (spawn cmd (Pathlib.str cwd) (files w) (host w)) as [[res fs] h].
  destruct res as [r|e].
  - destruct (returncode r =? 0)%Z; intros [= _ <-];
      rewrite count_events_emit, Hc; simpl; lia.
  - intros [= _ <-]. rewrite count_events_emit, Hc. simpl. lia.
Qed.

Lemma discreet_sh cmd cwd :
  P (Spawn cmd (Pathlib.str cwd)) = false -> quiet (sh cmd cwd).
Proof.
  intros Hc. unfold sh.
  apply silent_bind; [apply discreet_run; assumption|].
  intros r. apply silent_ret.
Qed.

Lemma discreet_print to items : commands_only P -> quiet (print to items).
Proof.
  intros (_ & Hp & _) w o w'. unfold print. intros [= _ <-].
  rewrite count_events_emit, Hp. lia.
Qed.

Lemma discreet_sleep secs : commands_only P -> quiet (time_sleep secs).
Proof.
  intros (Hs & _) w o w'. unfold time_sleep.
  destruct (timeout secs) as [e|q]; [intros [= _ <-]; reflexivity|].
  destruct (sleep_fault q (host w)); [intros [= _ <-]; reflexivity|].
  destruct (interrupted q (host w)) as [hit h'].
  destruct hit; intros [= _ <-]; rewrite count_events_emit, Hs; simpl; lia.
Qed.

Lemma discreet_now : commands_only P -> quiet datetime_now.
Proof.
  intros (_ & _ & Hc & _) w o w'. unfold datetime_now.
  destruct (now (host w)) as [t h']. intros [= _ <-].
  rewrite count_events_emit, Hc. simpl. lia.
Qed.

Lemma discreet_mkdir p : quiet (mkdir_parents p).
Proof.
  intros w o w'. unfold mkdir_parents. intros Hm. crack Hm;
    injection Hm as _ <-; reflexivity.
Qed.

Lemma discreet_open_append p : quiet (open_append p).
Proof.
  intros w o w'. unfold open_append. intros Hm. crack Hm;
    injection Hm as _ <-; reflexivity.
Qed.

Lemma discreet_open_truncate p : quiet (open_truncate p).
Proof.
  intros w o w'. unfold open_truncate. intros Hm. crack Hm;
    injection Hm as _ <-; reflexivity.
Qed.

Lemma discreet_read_text p : quiet (read_text p).
Proof.
  intros w o w'. unfold read_text. intros Hm. crack Hm;
    injection Hm as _ <-; reflexivity.
Qed.

Lemma discreet_exists p : quiet (path_exists p).
Proof.
  intros w o w'. unfold path_exists.
  destruct (fault Stat (Pathlib.str p) (host w)); intros [= _ <-]; reflexivity.
Qed.

Lemma discreet_f_write p data : commands_only P -> quiet (f_write p data).
Proof.
  intros (_ & _ & _ & Hw) w o w'. unfold f_write. intros [= _ <-].
  rewrite count_events_emit, Hw. simpl. lia.
Qed.

Lemma discreet_write_heartbeat target :
  commands_only P -> quiet (write_heartbeat target).
Proof.
  intros HP. unfold write_heartbeat.
  apply silent_bind; [apply discreet_mkdir|]. intros _.
  apply silent_bind; [apply discreet_now; exact HP|]. intros t.
  apply silent_bind; [apply discreet_open_append|]. intros _.
  apply silent_bind; [apply discreet_f_write; exact HP|]. intros _.
  apply silent_ret.
Qed.

Lemma discreet_write_line target line prepend :
  commands_only P -> quiet (write_line target line prepend).
Proof.
  intros HP. unfold write_line.
  apply silent_bind; [apply discreet_mkdir|]. intros _.
  destruct prepend.
  - apply silent_bind; [apply discreet_exists|]. intros present.
    apply silent_bind;
      [destruct present; [apply discreet_read_text | apply silent_ret]|].
    intros existing.
    apply silent_bind; [apply discreet_open_truncate|]. intros _.
    apply silent_bind; [apply discreet_f_write; exact HP|]. intros _.
    apply discreet_f_write. exact HP.
  - apply silent_bind; [apply discreet_open_append|]. intros _.
    apply discreet_f_write. exact HP.
Qed.

Lemma silent_lift {A} (r : exn + A) : quiet (lift r).
Proof. destruct r; [apply silent_raise | apply silent_ret]. Qed.

Lemma discreet_mutate p args target :
  commands_only P -> quiet (mutate p args target).
Proof.
  intros HP. destruct p; cbn [mutate].
  - apply discreet_write_heartbeat. exact HP.
  - apply silent_bind; [apply discreet_now; exact HP|]. intros t.
    apply silent_bind.
    { destruct (hasattr args "line-template"); [|apply silent_getattr].
      apply silent_bind; [apply silent_getattr | intros; apply silent_raise]. }
    intros _.
    apply silent_bind; [apply silent_getattr|]. intros v.
    apply silent_bind; [apply silent_expect_str|]. intros template.
    apply silent_bind; [apply silent_lift|]. intros line.
    apply silent_bind; [apply silent_getattr|]. intros prepend.
    apply silent_bind; [apply discreet_write_line; exact HP|]. intros _.
    apply silent_ret.
Qed.

Lemma discreet_pause args : commands_only P -> quiet (pause args).
Proof.
  intros HP. unfold pause.
  apply silent_bind; [apply silent_getattr|]. intros v.
  apply silent_bind; [apply silent_expect_float|]. intros q.
  apply discreet_sleep. exact HP.
Qed.

Lemma discreet_stage repo target :
  (forall rel, P (Spawn ["git"; "add"; rel] (Pathlib.str repo)) = false) ->
  quiet (stage repo target).
Proof.
  intros Hadd. unfold stage.
  destruct (Pathlib.relative_to target repo); [|apply silent_raise].
  apply silent_bind; [|intros; apply silent_ret].
  apply discreet_sh. apply Hadd.
Qed.

(** Whatever the options, the command the commit step builds is a
    [git commit]. *)
Lemma commit_cmd_shape args ts (w w1 : World E) cmd :
  commit_cmd args ts w = (Normal cmd, w1) ->
  exists rest, cmd = "git" :: "commit" :: rest.
Proof.
  unfold commit_cmd. intros Hc.
  apply bind_normal_inv in Hc. destruct Hc as (m & wa & _ & Hc).
  apply bind_normal_inv in Hc. destruct Hc as (a & wb & _ & Hc).
  destruct (truthy a).
  - apply bind_normal_inv in Hc. destruct Hc as (a' & wc & _ & Hc).
    apply ret_inv in Hc. destruct Hc as [<- _]. eexists. reflexivity.
  - apply ret_inv in Hc. destruct Hc as [<- _]. eexists. reflexivity.
Qed.

Lemma discreet_commit args repo ts :
  commands_only P ->
  (forall rest,
     P (Spawn ("git" :: "commit" :: rest) (Pathlib.str repo)) = false) ->
  quiet (commit args repo ts).
Proof.
  intros HP Hcommit. unfold commit.
  apply silent_bind_on; [apply silent_commit_cmd|].
  intros cmd (w & w1 & Hcmd).
  destruct (commit_cmd_shape _ _ _ _ _ Hcmd) as [rest ->].
  apply silent_try.
  - apply silent_bind; [|intros; apply silent_ret].
    apply discreet_sh. apply Hcommit.
  - intros e h. destruct e; try discriminate. intros [= <-].
    destruct (Text.contains marker (Text.lower (stdout r ++ stderr r)));
      [apply silent_ret|].
    apply silent_bind; [apply discreet_print; exact HP|]. intros _.
    apply silent_bind; [apply silent_getattr|]. intros v.
    apply silent_bind; [apply silent_expect_float|]. intros q.
    apply silent_bind; [apply discreet_sleep; exact HP|]. intros _.
    apply silent_continue.
Qed.

(** The push step of auto_committer.py runs no command at all: its
    condition raises first, whatever the options hold. *)
Lemma discreet_push_auto_committer args repo :
  quiet (push AutoCommitter args repo).
Proof.
  unfold push. intros w o w'. unfold bind at 1. unfold bind at 1.
  unfold getattr. destruct (args !! "no"); intros [= _ <-]; reflexivity.
Qed.

Lemma discreet_push_readme args repo :
  commands_only P ->
  (forall remote branch,
     P (Spawn ["git"; "push"; remote; branch] (Pathlib.str repo)) = false) ->
  quiet (push AutoCommitterReadme args repo).
Proof.
  intros HP Hpush. unfold push.
  apply silent_bind; [apply silent_getattr|].
  intros v. destruct (negb (truthy v)); [|apply silent_ret].
  apply silent_bind; [apply silent_getattr|]. intros r1.
  apply silent_bind; [apply silent_expect_str|]. intros remote.
  apply silent_bind; [apply silent_getattr|]. intros b1.
  apply silent_bind; [apply silent_expect_str|]. intros branch.
  apply silent_try.
  - apply silent_bind; [|intros; apply silent_ret].
    apply discreet_sh. apply Hpush.
  - intros e h. destruct e; try discriminate. intros [= <-].
    apply discreet_print. exact HP.
Qed.

End Discreet.

Section Passes.

Context {E : Type} {H : Host E}.

Lemma silent_while (P : event -> bool) (body : M E unit) (n : nat) :
  silent P body -> silent P (while_true n body).
Proof.
  intros Hb. induction n as [|n IH]; intros w o w'; simpl.
  - intros [= _ <-]. reflexivity.
  - destruct (body w) as [[u|e| |] w1] eqn:Hbw.
    + intros Hrest. rewrite (IH _ _ _ Hrest). exact (Hb _ _ _ Hbw).
    + intros [= _ <-]. exact (Hb _ _ _ Hbw).
    + intros Hrest. rewrite (IH _ _ _ Hrest). exact (Hb _ _ _ Hbw).
    + intros [= _ <-]. exact (Hb _ _ _ Hbw).
Qed.

Lemma silent_result (P : event -> bool) {A} (m : M E A) (w : World E) :
  silent P m ->
  count_events P (trace (snd (m w))) = count_events P (trace w).
Proof.
  intros Hm. destruct (m w) as [o w'] eqn:Hmw. exact (Hm _ _ _ Hmw).
Qed.

Lemma silent_iteration (P : event -> bool) p args repo target :
  silent P (mutate p args target) -> silent P (stage repo target) ->
  (forall ts, silent P (commit args repo ts)) ->
  silent P (push p args repo) -> silent P (pause args) ->
  silent P (iteration p args repo target).
Proof.
  intros Hm Hs Hc Hp Hz. unfold iteration.
  apply silent_bind; [exact Hm|]. intros ts.
  apply silent_bind; [exact Hs|]. intros _.
  apply silent_bind; [apply Hc|]. intros _.
  apply silent_bind; [exact Hp|]. intros _. exact Hz.
Qed.

Lemma foreign_git (repo : Pathlib.Path) (verb : string) (rest : list string) :
  String.eqb verb "add" || String.eqb verb "commit" || String.eqb verb "push"
    = true ->
  foreign (Pathlib.str repo) (Spawn ("git" :: verb :: rest) (Pathlib.str repo))
    = false.
Proof.
  intros Hv. cbn [foreign]. rewrite Hv, !String.eqb_refl. reflexivity.
Qed.

(** auto_committer.py never runs [git push]: however many passes are
    observed, with whatever options and in whatever world, no push is
    added to the trace. *)
Theorem auto_committer_never_pushes args repo target n (w : World E) :
  count_events is_push
    (trace (snd (while_true n (iteration AutoCommitter args repo target) w)))
    = count_events is_push (trace w).
Proof.
  apply silent_result, silent_while, silent_iteration.
  - apply discreet_mutate, is_push_commands_only.
  - apply discreet_stage. reflexivity.
  - intros ts. apply discreet_commit; [apply is_push_commands_only|].
    reflexivity.
  - apply discreet_push_auto_committer.
  - apply discreet_pause, is_push_commands_only.
Qed.

(** With [--no-push], auto_committer_readme.py never runs [git push]. *)
Theorem no_push_is_honoured o repo target n (w : World E) :
  opt_no_push o = true ->
  count_events is_push
    (trace (snd (while_true n
                   (iteration AutoCommitterReadme
                      (parse_args AutoCommitterReadme o) repo target) w)))
    = count_events is_push (trace w).
Proof.
  intros Hno.
  apply silent_result, silent_while, silent_iteration.
  - apply discreet_mutate, is_push_commands_only.
  - apply discreet_stage. reflexivity.
  - intros ts. apply discreet_commit; [apply is_push_commands_only|].
    reflexivity.
  - intros w0 out w'. rewrite (push_disabled o repo w0 Hno).
    intros [= _ <-]. reflexivity.
  - apply discreet_pause, is_push_commands_only.
Qed.

(** The loop of either program runs nothing but [git add], [git commit]
    and [git push], each in the repository directory: whatever the
    options, the passes add no other command to the trace. *)
Theorem loop_runs_only_add_commit_push p args repo target n (w : World E) :
  count_events (foreign (Pathlib.str repo))
    (trace (snd (while_true n (iteration p args repo target) w)))
    = count_events (foreign (Pathlib.str repo)) (trace w).
Proof.
  apply silent_result, silent_while, silent_iteration.
  - apply discreet_mutate, foreign_commands_only.
  - apply discreet_stage. intros rel. apply foreign_git. reflexivity.
  - intros ts. apply discreet_commit; [apply foreign_commands_only|].
    intros rest. apply foreign_git. reflexivity.
  - destruct p.
    + apply discreet_push_auto_committer.
    + apply discreet_push_readme; [apply foreign_commands_only|].
      intros remote branch. apply foreign_git. reflexivity.
  - apply discreet_pause, foreign_commands_only.
Qed.

End Passes.

Lemma no_push_is_honoured_witness :
  let o := {| opt_repo := "/srv/repo"; opt_branch := "main";
              opt_remote := "origin"; opt_file := "README.md";
              opt_interval := Finite 1; opt_message := "[bot] heartbeat";
              opt_author := None; opt_no_push := true;
              opt_line_template := "- heartbeat {ts}";
              opt_prepend := false |} in
  let run := while_true 3
               (iteration AutoCommitterReadme
                  (parse_args AutoCommitterReadme o) Fake.root Fake.readme)
               (Fake.world0 true) in
  count_events is_push (trace (snd run)) = 0 /\
  count_events is_commit (trace (snd run)) = 3.
Proof.
  intros o run. split.
  - unfold run.
    rewrite (no_push_is_honoured o Fake.root Fake.readme 3 (Fake.world0 true)
               eq_refl).
    reflexivity.
  - vm_compute. reflexivity.
Defined.

(** ** Failures inside a pass *)

Section PassFailures.

Context {E : Type} {H : Host E}.

(** In auto_committer_readme.py the push step ends normally whatever
    status [git push] exits with: a zero status leaves nothing but the
    command on the trace, any other status adds the report on the
    error stream. *)
Theorem readme_push_never_fatal o repo (w : World E) r fs h :
  opt_no_push o = false ->
  spawn ["git"; "push"; opt_remote o; opt_branch o] (Pathlib.str repo)
    (files w) (host w) = (Exited r, fs, h) ->
  let called := answered ["git"; "push"; opt_remote o; opt_branch o]
                  repo w fs h in
  push AutoCommitterReadme (parse_args AutoCommitterReadme o) repo w =
    (Normal tt,
     if (returncode r =? 0)%Z then called
     else emit (Print Stderr
                  (Text.join " "
                     ["Push failed (will retry on next loop):" ++ Text.nl;
                      stdout r; stderr r] ++ Text.nl)) called).
Proof.
  intros Hn Hs called. unfold push. attrs. mrun. rewrite Hn. mrun.
  destruct (Z.eqb_spec (returncode r) 0) as [Hz|Hz].
  - rewrite (sh_success _ repo w r fs h Hs Hz). reflexivity.
  - rewrite (sh_failure _ repo w r fs h Hs Hz). reflexivity.
Qed.

(** The commit command of either program: [--author] and its value are
    passed exactly when an author was given and is not the empty
    string; an empty [--author] is dropped without a word. *)
Theorem author_only_when_given p o ts (w : World E) :
  let base := ["git"; "commit"; "-m"; opt_message o ++ " " ++ ts] in
  fst (commit_cmd (parse_args p o) ts w) =
    Normal match opt_author o with
           | Some a => if String.eqb a "" then base
                       else (base ++ ["--author"; a])%list
           | None => base
           end.
Proof.
  intros base. rewrite commit_cmd_line. unfold commit_line. cbn [fst].
  destruct (opt_author o) as [a|]; [|reflexivity].
  destruct (String.eqb a ""); reflexivity.
Qed.

(** A [git add] that fails is fatal: the pass raises the error, the
    loop ends with it, and nothing is committed in that pass. *)
Theorem add_failure_is_fatal p args repo target (w w1 : World E) ts rel
    r fs h n :
  mutate p args target w = (Normal ts, w1) ->
  Pathlib.relative_to target repo = Some rel ->
  spawn ["git"; "add"; Pathlib.str rel] (Pathlib.str repo) (files w1) (host w1)
    = (Exited r, fs, h) ->
  returncode r <> 0%Z ->
  while_true (S n) (iteration p args repo target) w =
    (Raised (CalledProcessError r),
     answered ["git"; "add"; Pathlib.str rel] repo w1 fs h).
Proof.
  intros Hm Hrel Hs Hz. cbn [while_true]. unfold iteration.
  rewrite (bind_normal _ _ _ _ _ Hm). cbv beta.
  unfold bind at 1. unfold stage. rewrite Hrel.
  unfold bind at 1. rewrite (sh_failure _ repo w1 r fs h Hs Hz). reflexivity.
Qed.

(** A target file outside the repository is noticed only after it has
    been written: the pass changes the file and then raises
    [ValueError], before any command is run. *)
Theorem target_outside_repository p args repo target (w w1 : World E) ts n :
  mutate p args target w = (Normal ts, w1) ->
  Pathlib.relative_to target repo = None ->
  while_true (S n) (iteration p args repo target) w =
    (Raised (ValueError "path is not in the subpath of the repository"), w1).
Proof.
  intros Hm Hrel. cbn [while_true]. unfold iteration.
  rewrite (bind_normal _ _ _ _ _ Hm). cbv beta.
  unfold bind at 1. unfold stage. rewrite Hrel. reflexivity.
Qed.

(** With an interval that [time.sleep] refuses the sleep itself
    raises: a pass that got as far as its sleep ends with that
    exception. *)
Theorem refused_interval_is_fatal p o (w : World E) e :
  timeout (opt_interval o) = inl e ->
  pause (parse_args p o) w = (Raised e, w).
Proof.
  intros Hq. unfold pause. attrs. mrun.
  exact (time_sleep_refuses (opt_interval o) e w Hq).
Qed.

End PassFailures.

Section Retry.

Context {E : Type} {H : Host E}.

(** The retry after a failed commit depends on the interval, which is
    never validated: with one that [time.sleep] refuses (a negative
    number, a NaN, an infinity, a length beyond the range of the
    platform) the failure is printed and then the sleep raises, so the
    failed commit ends the program after all, with the exception of
    the sleep. *)
Theorem refused_interval_breaks_retry p o repo (w1 : World E) ts r fs h e :
  spawn (commit_line o ts) (Pathlib.str repo) (files w1) (host w1)
    = (Exited r, fs, h) ->
  returncode r <> 0%Z ->
  Text.contains marker (Text.lower (stdout r ++ stderr r)) = false ->
  timeout (opt_interval o) = inl e ->
  commit (parse_args p o) repo ts w1 =
    (Raised e,
     emit (Print Stderr (commit_failed_text r))
       (answered (commit_line o ts) repo w1 fs h)).
Proof.
  intros Hs Hz Hm Hq.
  rewrite (commit_reports p o repo w1 ts r fs h Hs Hz Hm).
  unfold bind. rewrite (time_sleep_refuses _ e _ Hq). reflexivity.
Qed.

End Retry.

Lemma readme_push_never_fatal_witness :
  fst (push AutoCommitterReadme
         (parse_args AutoCommitterReadme (Fake.options "main"))
         Fake.root (Fake.world0 false)) = Normal tt.
Proof.
  rewrite (readme_push_never_fatal (Fake.options "main") Fake.root
             (Fake.world0 false)
             (Fake.ko 1 "" "fatal: unable to access the remote")
             (files (Fake.world0 false)) (host (Fake.world0 false))
             eq_refl).
  - reflexivity.
  - vm_compute. reflexivity.
Defined.

Lemma add_failure_is_fatal_witness :
  let refusal := Fake.ko 128 "" "fatal: pathspec did not match any files" in
  let w := Fake.inject [Some refusal] (Fake.world0 true) in
  fst (while_true 5
         (iteration AutoCommitter
            (parse_args AutoCommitter (Fake.options "main"))
            Fake.root Fake.readme) w) = Raised (CalledProcessError refusal).
Proof.
  intros refusal w.
  pose (w1 := snd (mutate AutoCommitter
                     (parse_args AutoCommitter (Fake.options "main"))
                     Fake.readme w)).
  rewrite (add_failure_is_fatal AutoCommitter
             (parse_args AutoCommitter (Fake.options "main"))
             Fake.root Fake.readme w w1 "2024-01-01T00:00:00.000000Z"
             (Pathlib.parse "README.md") refusal (files w1)
             (Fake.with_canned [] (host w1)) 4).
  - reflexivity.
  - vm_compute. reflexivity.
  - vm_compute. reflexivity.
  - vm_compute. reflexivity.
  - discriminate.
Defined.

Lemma target_outside_repository_witness :
  let elsewhere := Pathlib.parse "/tmp/heartbeat.txt" in
  let run := while_true 5
               (iteration AutoCommitter
                  (parse_args AutoCommitter (Fake.options "main"))
                  Fake.root elsewhere) (Fake.world0 true) in
  fst run =
    Raised (ValueError "path is not in the subpath of the repository") /\
  files (snd run) !! "/tmp/heartbeat.txt" =
    Some (File ("heartbeat: 2024-01-01T00:00:00.000000Z" ++ Text.nl)).
Proof.
  intros elsewhere run.
  pose (w1 := snd (mutate AutoCommitter
                     (parse_args AutoCommitter (Fake.options "main"))
                     elsewhere (Fake.world0 true))).
  assert (Hrun : run =
            (Raised (ValueError "path is not in the subpath of the repository"),
             w1)).
  { unfold run.
    apply (target_outside_repository AutoCommitter
             (parse_args AutoCommitter (Fake.options "main"))
             Fake.root elsewhere (Fake.world0 true) w1
             "2024-01-01T00:00:00.000000Z" 4).
    - vm_compute. reflexivity.
    - vm_compute. reflexivity. }
  rewrite Hrun. split; [reflexivity | vm_compute; reflexivity].
Defined.

Lemma refused_interval_is_fatal_witness :
  fst (pause (parse_args AutoCommitterReadme hasty) (Fake.world0 true)) =
    Raised (ValueError "sleep length must be non-negative").
Proof.
  rewrite (refused_interval_is_fatal AutoCommitterReadme hasty
             (Fake.world0 true)
             (ValueError "sleep length must be non-negative")).
  - reflexivity.
  - vm_compute. reflexivity.
Defined.

Lemma refused_interval_breaks_retry_witness :
  let refusal := Fake.ko 1 "" "error: cannot lock ref" in
  let w := Fake.inject [Some refusal] (Fake.world0 true) in
  fst (commit (parse_args AutoCommitterReadme hasty) Fake.root "T" w) =
    Raised (ValueError "sleep length must be non-negative") /\
  fst (commit (parse_args AutoCommitter (every (Finite (-10000000000))))
         Fake.root "T" w) = Raised too_large /\
  fst (commit (parse_args AutoCommitter (every (Finite 10000000000)))
         Fake.root "T" w) = Raised too_large /\
  fst (commit (parse_args AutoCommitter (every NaN)) Fake.root "T" w) =
    Raised (ValueError "Invalid value NaN (not a number)").
Proof.
  intros refusal w. split; [|split; [|split]].
  - rewrite (refused_interval_breaks_retry AutoCommitterReadme hasty Fake.root
               w "T" refusal (files w) (Fake.with_canned [] (host w))
               (ValueError "sleep length must be non-negative")).
    + reflexivity.
    + vm_compute. reflexivity.
    + discriminate.
    + vm_compute. reflexivity.
    + vm_compute. reflexivity.
  - rewrite (refused_interval_breaks_retry AutoCommitter
               (every (Finite (-10000000000))) Fake.root
               w "T" refusal (files w) (Fake.with_canned [] (host w))
               too_large).
    + reflexivity.
    + vm_compute. reflexivity.
    + discriminate.
    + vm_compute. reflexivity.
    + vm_compute. reflexivity.
  - rewrite (refused_interval_breaks_retry AutoCommitter
               (every (Finite 10000000000)) Fake.root
               w "T" refusal (files w) (Fake.with_canned [] (host w))
               too_large).
    + reflexivity.
    + vm_compute. reflexivity.
    + discriminate.
    + vm_compute. reflexivity.
    + vm_compute. reflexivity.
  - rewrite (refused_interval_breaks_retry AutoCommitter (every NaN) Fake.root
               w "T" refusal (files w) (Fake.with_canned [] (host w))
               (ValueError "Invalid value NaN (not a number)")).
    + reflexivity.
    + vm_compute. reflexivity.
    + discriminate.
    + vm_compute. reflexivity.
    + reflexivity.
Defined.

(** ** Branch initialisation, the other paths *)

Section BranchPaths.

Context {E : Type} {H : Host E}.

(** A checkout that fails after a successful verification is handled
    like a missing branch: [checkout -b] is tried, and what
    [ensure_branch] reports is the outcome of that command, not the
    failure of the checkout. *)
Theorem checkout_failure_falls_back repo branch (w : World E)
    r1 fs1 h1 r2 fs2 h2 r3 fs3 h3 :
  spawn (verify_cmd branch) (Pathlib.str repo) (files w) (host w)
    = (Exited r1, fs1, h1) ->
  returncode r1 = 0%Z ->
  spawn (checkout_cmd branch) (Pathlib.str repo) fs1 h1
    = (Exited r2, fs2, h2) ->
  returncode r2 <> 0%Z ->
  spawn (create_cmd branch) (Pathlib.str repo) fs2 h2
    = (Exited r3, fs3, h3) ->
  let w1 := answered (verify_cmd branch) repo w fs1 h1 in
  let w2 := answered (checkout_cmd branch) repo w1 fs2 h2 in
  ensure_branch repo branch w =
    (if (returncode r3 =? 0)%Z then Normal tt
     else Raised (CalledProcessError r3),
     answered (create_cmd branch) repo w2 fs3 h3).
Proof.
  intros Hv Hz1 Hc Hz2 Hb w1 w2. unfold ensure_branch.
  fold (verify_cmd branch) (checkout_cmd branch) (create_cmd branch).
  erewrite try_except_handles with (e := CalledProcessError r2) (w1 := w2);
    [ | | reflexivity].
  - destruct (Z.eqb_spec (returncode r3) 0) as [Hz3|Hz3].
    + rewrite (bind_normal _ _ _ _ _
                 (sh_success (create_cmd branch) repo w2 r3 fs3 h3 Hb Hz3)).
      reflexivity.
    + rewrite (bind_raised _ _ _ _ _
                 (sh_failure (create_cmd branch) repo w2 r3 fs3 h3 Hb Hz3)).
      reflexivity.
  - rewrite (bind_normal _ _ _ _ _
               (sh_success (verify_cmd branch) repo w r1 fs1 h1 Hv Hz1)).
    cbv beta.
    rewrite (bind_raised _ _ _ _ _
               (sh_failure (checkout_cmd branch) repo w1 r2 fs2 h2 Hc Hz2)).
    reflexivity.
Qed.

(** Only a non-zero exit status makes [ensure_branch] create the
    branch: when the verification cannot be run at all (no executable,
    an interrupt), the exception leaves [ensure_branch] at once and no
    second command is tried. *)
Theorem verification_error_propagates repo branch (w : World E) e fs1 h1 :
  spawn (verify_cmd branch) (Pathlib.str repo) (files w) (host w)
    = (Failed e, fs1, h1) ->
  (forall r, e <> CalledProcessError r) ->
  ensure_branch repo branch w =
    (Raised e, answered (verify_cmd branch) repo w fs1 h1).
Proof.
  intros Hv Hne. unfold ensure_branch, try_except.
  fold (verify_cmd branch).
  unfold bind at 1. unfold sh at 1. unfold bind at 1.
  unfold subprocess_run at 1. rewrite Hv. fold (answered (verify_cmd branch) repo w fs1 h1).
  destruct e; try reflexivity. exfalso. exact (Hne r eq_refl).
Qed.

End BranchPaths.


Lemma checkout_failure_falls_back_witness :
  let blocked := Fake.ko 1 "" "error: Your local changes would be overwritten" in
  let w := Fake.inject [None; Some blocked] (Fake.world0 true) in
  fst (ensure_branch Fake.root "main" w) =
    Raised (CalledProcessError
              (Fake.ko 128 "" "fatal: a branch with that name already exists")) /\
  trace (snd (ensure_branch Fake.root "main" w)) =
    [Spawn (verify_cmd "main") "/srv/repo";
     Spawn (checkout_cmd "main") "/srv/repo";
     Spawn (create_cmd "main") "/srv/repo"].
Proof.
  intros blocked w.
  rewrite (checkout_failure_falls_back Fake.root "main" w
             (Fake.ok ("main" ++ Text.nl)) (files w)
             (Fake.with_canned [Some blocked] (host w))
             blocked (files w) (Fake.with_canned [] (host w))
             (Fake.ko 128 "" "fatal: a branch with that name already exists")
             (files w) (Fake.with_canned [] (host w))).
  - split; reflexivity.
  - vm_compute. reflexivity.
  - reflexivity.
  - vm_compute. reflexivity.
  - discriminate.
  - vm_compute. reflexivity.
Defined.

Lemma verification_error_propagates_witness :
  let w := Scripted.world [Failed (OSError "No such file or directory: 'git'")]
             false in
  fst (ensure_branch Fake.root "main" w) =
    Raised (OSError "No such file or directory: 'git'") /\
  trace (snd (ensure_branch Fake.root "main" w)) =
    [Spawn (verify_cmd "main") "/srv/repo"].
Proof.
  intros w.
  rewrite (verification_error_propagates Fake.root "main" w
             (OSError "No such file or directory: 'git'") (files w)
             {| Scripted.script := []; Scripted.impatient := false |}).
  - split; reflexivity.
  - reflexivity.
  - intros r. discriminate.
Defined.

(** ** Interrupts and other errors *)

(** What the handler of the loop prints. *)
Definition farewell : string :=
  Text.join " " [Text.nl ++ "Stopped by user."] ++ Text.nl.

Section Interrupts.

Context {E : Type} {H : Host E}.

(** A loop that has ended within [k] passes ends the same way when it
    is observed for longer. *)
Lemma while_true_settles (body : M E unit) k :
  forall n (w w' : World E) o,
    while_true k body w = (o, w') -> o <> Looping -> k <= n ->
    while_true n body w = (o, w').
Proof.
  induction k as [|k IH]; intros n w w' o; simpl.
  - intros [= <- _] Hl. contradiction.
  - intros Hk Hl Hle. destruct n as [|n]; [lia|]. simpl.
    destruct (body w) as [[u|e| |] w1]; try exact Hk.
    + apply IH; [exact Hk | exact Hl | lia].
    + apply IH; [exact Hk | exact Hl | lia].
Qed.

Lemma sh_error cmd cwd (w : World E) e fs h :
  spawn cmd (Pathlib.str cwd) (files w) (host w) = (Failed e, fs, h) ->
  sh cmd cwd w = (Raised e, answered cmd cwd w fs h).
Proof.
  intros Hs. unfold sh, bind, subprocess_run. rewrite Hs. reflexivity.
Qed.

(** An interrupt that reaches the loop ends the program in good order:
    once start-up is over and some pass, the first or a later one,
    raises [KeyboardInterrupt], [main] prints the farewell to the
    standard output and returns, so the exit status is 0, however much
    longer the loop would have been observed. *)
Theorem interrupt_in_loop_exits_cleanly p o k n (w : World E) paths :
  let args := parse_args p o in
  let w1 := snd (startup p args w) in
  let loop m := while_true m (iteration p args (fst paths) (snd paths)) w1 in
  fst (startup p args w) = Normal paths ->
  fst (loop k) = Raised KeyboardInterrupt ->
  k <= n ->
  main p o n w = (Normal tt, emit (Print Stdout farewell) (snd (loop k))) /\
  exit_status (fst (main p o n w)) = Some 0%Z.
Proof.
  intros args w1 loop Hs Hk Hle.
  assert (Hmain : main p o n w =
            (Normal tt, emit (Print Stdout farewell) (snd (loop k)))).
  { unfold main. fold args.
    rewrite (bind_normal _ _ w w1 paths)
      by (rewrite <- Hs; subst w1; apply surjective_pairing).
    cbv beta.
    assert (Hloop : while_true n (iteration p args (fst paths) (snd paths)) w1
                    = (Raised KeyboardInterrupt, snd (loop k))).
    { apply (while_true_settles _ k n); [ | discriminate | exact Hle].
      fold (loop k). rewrite <- Hk. apply surjective_pairing. }
    unfold try_except. rewrite Hloop. reflexivity. }
  split; [exact Hmain | rewrite Hmain; reflexivity].
Qed.

(** Before the loop nothing but a non-zero exit status is handled: when
    the repository path has resolved, [.git] is there and the first
    command, [git status], cannot be run at all or is interrupted, the
    exception leaves [main] as it is, with no message of the program,
    no second command and no farewell. *)
Theorem startup_error_is_not_caught p o n (w : World E) repo e fs h :
  resolve (opt_repo o) (host w) = inr repo ->
  fault Stat (Pathlib.str (Pathlib.joinpath repo ".git")) (host w) = None ->
  files w !! Pathlib.str (Pathlib.joinpath repo ".git") <> None ->
  spawn status_cmd (Pathlib.str repo) (files w) (host w) = (Failed e, fs, h) ->
  (forall r, e <> CalledProcessError r) ->
  main p o n w = (Raised e, answered status_cmd repo w fs h).
Proof.
  intros Hr Hf Hgit Hs Hne. unfold main.
  apply bind_raised. unfold startup. attrs. mrun. rewrite Hr. mrun.
  unfold path_exists. rewrite Hf.
  destruct (files w !! Pathlib.str (Pathlib.joinpath repo ".git"))
    as [nd|] eqn:Hnd; [clear Hgit | contradiction].
  mrun. fold status_cmd.
  rewrite (sh_error status_cmd repo w e fs h Hs).
  destruct e; try reflexivity. exfalso. exact (Hne r eq_refl).
Qed.

End Interrupts.

Lemma interrupt_in_loop_exits_cleanly_witness :
  let w := Scripted.world [] true in
  exit_status (fst (main AutoCommitterReadme (Fake.options "main") 5 w))
    = Some 0%Z /\
  count_events is_commit
    (trace (snd (main AutoCommitterReadme (Fake.options "main") 5 w))) = 1.
Proof.
  intros w.
  destruct (interrupt_in_loop_exits_cleanly AutoCommitterReadme
              (Fake.options "main") 1 5 w (Fake.root, Fake.readme))
    as [Hmain Hstatus].
  - vm_compute. reflexivity.
  - vm_compute. reflexivity.
  - lia.
  - split; [exact Hstatus|]. rewrite Hmain. vm_compute. reflexivity.
Defined.

Lemma startup_error_is_not_caught_witness :
  let w := Scripted.world [Failed KeyboardInterrupt] false in
  main AutoCommitter (Fake.options "main") 5 w =
    (Raised KeyboardInterrupt,
     {| files := files w;
        host := {| Scripted.script := []; Scripted.impatient := false |};
        trace := [Spawn status_cmd "/srv/repo"] |}).
Proof.
  intros w.
  rewrite (startup_error_is_not_caught AutoCommitter (Fake.options "main") 5 w
             Fake.root KeyboardInterrupt (files w)
             {| Scripted.script := []; Scripted.impatient := false |}).
  - reflexivity.
  - reflexivity.
  - reflexivity.
  - vm_compute. discriminate.
  - reflexivity.
  - intros r. discriminate.
Defined.

(** ** A start-up that succeeds *)

Definition note : string :=
  Text.join " "
    ["NOTE: Working tree has changes; they may be included in commits."]
  ++ Text.nl.

Section Banner.

Context {E : Type} {H : Host E}.

(** The line each program announces its loop with. *)
Definition banner (p : program) (o : Options) (repo : Pathlib.Path) : string :=
  Text.join " "
    [match p with
     | AutoCommitter =>
         "Starting loop: repo=" ++ Pathlib.str repo ++
         ", branch=" ++ opt_branch o ++
         ", remote=" ++ opt_remote o ++
         ", every " ++ pystr (VFloat (opt_interval o)) ++ "s"
     | AutoCommitterReadme =>
         "Starting: repo=" ++ Pathlib.str repo ++
         ", branch=" ++ opt_branch o ++
         ", file=" ++ opt_file o ++
         ", every " ++ pystr (VFloat (opt_interval o)) ++ "s"
     end] ++ Text.nl.

(** Uncommitted changes do not stop a start-up.  When the repository
    path has resolved, [.git] is there and [git status] exits with
    status 0, its output decides one thing only, whether the note goes
    to the error stream: it does exactly when the output, stripped of
    white space at both ends, is not empty.  Either way the branch is
    ensured next, and when that succeeds the program announces its loop
    on the standard output and enters it with the resolved repository
    and the target file below it. *)
Theorem changes_only_warn p o (w w2 : World E) repo r fs h :
  let w1 := answered status_cmd repo w fs h in
  let warned :=
    if String.eqb (Text.strip (stdout r)) "" then w1
    else emit (Print Stderr note) w1 in
  resolve (opt_repo o) (host w) = inr repo ->
  fault Stat (Pathlib.str (Pathlib.joinpath repo ".git")) (host w) = None ->
  files w !! Pathlib.str (Pathlib.joinpath repo ".git") <> None ->
  spawn status_cmd (Pathlib.str repo) (files w) (host w) = (Exited r, fs, h) ->
  returncode r = 0%Z ->
  ensure_branch repo (opt_branch o) warned = (Normal tt, w2) ->
  startup p (parse_args p o) w =
    (Normal (repo, Pathlib.joinpath repo (opt_file o)),
     emit (Print Stdout (banner p o repo)) w2).
Proof.
  intros w1 warned Hr Hf Hgit Hs Hz Hb. unfold startup. attrs. mrun.
  rewrite Hr. mrun. unfold path_exists. rewrite Hf.
  destruct (files w !! Pathlib.str (Pathlib.joinpath repo ".git"))
    as [nd|] eqn:Hnd; [clear Hgit | contradiction].
  mrun. fold status_cmd.
  rewrite (sh_success status_cmd repo w r fs h Hs Hz). fold w1.
  subst warned.
  destruct (String.eqb (Text.strip (stdout r)) ""); mrun;
    [ | fold note ]; rewrite Hb; destruct p; reflexivity.
Qed.

End Banner.

Lemma changes_only_warn_witness :
  let warnings l :=
    count_events
      (fun ev => match ev with Print Stderr _ => true | _ => false end) l in
  let args := parse_args AutoCommitter (Fake.options "main") in
  let dirty := Scripted.world
                 [Exited (Fake.ok (" M README.md" ++ Text.nl))] false in
  (** a no-break space and a line feed *)
  let blank := String (ascii_of_nat 194) (String (ascii_of_nat 160) Text.nl) in
  let clean := Scripted.world [Exited (Fake.ok blank)] false in
  (fst (startup AutoCommitter args dirty) = Normal (Fake.root, Fake.readme) /\
   warnings (trace (snd (startup AutoCommitter args dirty))) = 1) /\
  (fst (startup AutoCommitter args clean) = Normal (Fake.root, Fake.readme) /\
   warnings (trace (snd (startup AutoCommitter args clean))) = 0).
Proof.
  intros warnings args dirty blank clean.
  pose (rest := {| Scripted.script := []; Scripted.impatient := false |}).
  split.
  - unfold args.
    rewrite (changes_only_warn AutoCommitter (Fake.options "main") dirty
               (snd (ensure_branch Fake.root "main"
                       (emit (Print Stderr note)
                          (answered status_cmd Fake.root dirty (files dirty)
                             rest))))
               Fake.root
               (Fake.ok (" M README.md" ++ Text.nl)) (files dirty) rest).
    + split; [reflexivity | vm_compute; reflexivity].
    + reflexivity.
    + reflexivity.
    + vm_compute. discriminate.
    + reflexivity.
    + reflexivity.
    + vm_compute. reflexivity.
  - unfold args.
    rewrite (changes_only_warn AutoCommitter (Fake.options "main") clean
               (snd (ensure_branch Fake.root "main"
                       (answered status_cmd Fake.root clean (files clean)
                          rest)))
               Fake.root (Fake.ok blank) (files clean) rest).
    + split; [reflexivity | vm_compute; reflexivity].
    + reflexivity.
    + reflexivity.
    + vm_compute. discriminate.
    + reflexivity.
    + reflexivity.
    + vm_compute. reflexivity.
Defined.

(** ** The path that is staged *)

Section StagedPath.

Context {E : Type} {H : Host E}.

Lemma strip_parts_app (base rest : list string) :
  Pathlib.strip_parts base (base ++ rest) = Some rest.
Proof.
  induction base as [|b base IH]; [reflexivity|].
  simpl. rewrite String.eqb_refl. exact IH.
Qed.

Lemma anchor_relative (s : string) :
  String.prefix "/" s = false -> Pathlib.anchor_of s = Pathlib.Relative.
Proof.
  intros Hs. unfold Pathlib.anchor_of. rewrite Hs.
  destruct s as [|c r]; [reflexivity|].
  cbn [String.prefix] in Hs |- *.
  destruct (Ascii.ascii_dec "/" c);
    [destruct r; cbn in Hs; discriminate Hs | reflexivity].
Qed.

Lemma anchor_eqb_refl (a : Pathlib.anchor) : Pathlib.anchor_eqb a a = true.
Proof. destruct a; reflexivity. Qed.

(** A [--file] that does not start with a slash is staged under its own
    name: the target is the repository joined with it, and what
    [git add] is given is the option itself, empty and [.] components
    dropped, whatever the repository is.  The step cannot fail with the
    [ValueError] of a target outside the repository. *)
Theorem relative_file_is_staged_by_name repo file (w : World E) :
  String.prefix "/" file = false ->
  stage repo (Pathlib.joinpath repo file) w =
    (let* _ := sh ["git"; "add"; Pathlib.str (Pathlib.parse file)] repo in
     ret tt) w.
Proof.
  intros Hrel. apply anchor_relative in Hrel.
  unfold stage, Pathlib.joinpath, Pathlib.relative_to, Pathlib.absolute.
  cbn [Pathlib.root Pathlib.parse]. rewrite Hrel.
  cbn [Pathlib.root Pathlib.parts].
  rewrite anchor_eqb_refl, strip_parts_app.
  unfold Pathlib.str, Pathlib.parse. cbn [Pathlib.root Pathlib.parts].
  rewrite Hrel. reflexivity.
Qed.

End StagedPath.

Lemma relative_file_is_staged_by_name_witness :
  trace (snd (stage Fake.root (Pathlib.joinpath Fake.root "./docs//log.md")
                (Fake.world0 true)))
    = [Spawn ["git"; "add"; "docs/log.md"] "/srv/repo"].
Proof.
  rewrite (relative_file_is_staged_by_name Fake.root "./docs//log.md"
             (Fake.world0 true)).
  - vm_compute. reflexivity.
  - reflexivity.
Defined.

(** ** The marker, in any letter case *)

Section AnyCase.

Context {E : Type} {H : Host E}.

Lemma lower_app (a b : string) :
  Text.lower (a ++ b) = Text.lower a ++ Text.lower b.
Proof.
  induction a as [|c a IH]; [reflexivity|].
  rewrite TextFacts.app_cons. cbn [Text.lower].
  rewrite TextFacts.app_cons, IH. reflexivity.
Qed.

Lemma prefix_app (a b : string) : String.prefix a (a ++ b) = true.
Proof.
  induction a as [|c a IH]; [destruct b; reflexivity|].
  rewrite TextFacts.app_cons. simpl.
  destruct (Ascii.ascii_dec c c) as [_|Hbad]; [exact IH | contradiction].
Qed.

Lemma contains_middle (needle a b : string) :
  Text.contains needle (a ++ needle ++ b) = true.
Proof.
  induction a as [|c a IH].
  - rewrite TextFacts.app_nil. apply TextFacts.contains_prefix, prefix_app.
  - rewrite TextFacts.app_cons, contains_cons, IH. apply orb_true_r.
Qed.

(** The marker is recognised in any letter case and wherever it lies in
    the standard output followed by the standard error, across the
    seam between the two as well: a commit that exits with a non-zero
    status and such an output ends the commit step without a message,
    a sleep or a retry. *)
Theorem marker_in_any_case p o repo (w1 : World E) ts r fs h a m b :
  let cmd := commit_line o ts in
  spawn cmd (Pathlib.str repo) (files w1) (host w1) = (Exited r, fs, h) ->
  returncode r <> 0%Z ->
  stdout r ++ stderr r = a ++ m ++ b ->
  Text.lower m = marker ->
  commit (parse_args p o) repo ts w1 = (Normal tt, answered cmd repo w1 fs h).
Proof.
  intros cmd Hs Hz Hout Hm.
  apply (commit_passes p o repo w1 ts r fs h Hs).
  right. split; [exact Hz|].
  rewrite Hout, !lower_app, Hm. apply contains_middle.
Qed.

End AnyCase.

Lemma marker_in_any_case_witness :
  let r := Fake.ko 1 ("On branch main" ++ Text.nl ++ "Nothing To")
             (" Commit, working tree clean" ++ Text.nl) in
  let w := Fake.inject [Some r] (Fake.world0 true) in
  commit (parse_args AutoCommitter (Fake.options "main")) Fake.root "now" w =
    (Normal tt,
     answered (commit_line (Fake.options "main") "now") Fake.root w (files w)
       (Fake.with_canned [] (host w))).
Proof.
  intros r w.
  apply (marker_in_any_case AutoCommitter (Fake.options "main") Fake.root w
           "now" r (files w) (Fake.with_canned [] (host w))
           ("On branch main" ++ Text.nl) "Nothing To Commit"
           (", working tree clean" ++ Text.nl)).
  - vm_compute. reflexivity.
  - discriminate.
  - vm_compute. reflexivity.
  - vm_compute. reflexivity.
Defined.

(** ** Append mode only appends *)

Lemma append_empty (s : string) : s ++ "" = s.
Proof.
  induction s as [|c s IH]; [reflexivity|].
  rewrite TextFacts.app_cons, IH. reflexivity.
Qed.

Lemma append_assoc (a b c : string) : (a ++ b) ++ c = a ++ (b ++ c).
Proof.
  induction a as [|x a IH]; [reflexivity|].
  rewrite !TextFacts.app_cons, IH. reflexivity.
Qed.

Section AppendOnly.

Context {E : Type} {H : Host E}.
Variable target : string.

(** From one world to the other no file has lost or changed a byte,
    and no file but the target has gained one. *)
Definition grown (w w' : World E) : Prop :=
  forall k, exists added,
    content (files w') k = content (files w) k ++ added /\
    (k <> target -> added = "").

(** A block that, however it ends, leaves the files grown. *)
Definition keeps {A} (m : M E A) : Prop :=
  forall w o w', m w = (o, w') -> grown w w'.

Lemma grown_same (w w' : World E) :
  (forall k, content (files w') k = content (files w) k) -> grown w w'.
Proof.
  intros Hsame k. exists "". rewrite append_empty. split; [apply Hsame | trivial].
Qed.

Lemma grown_refl (w : World E) : grown w w.
Proof. apply grown_same. reflexivity. Qed.

Lemma grown_trans (w1 w2 w3 : World E) :
  grown w1 w2 -> grown w2 w3 -> grown w1 w3.
Proof.
  intros H12 H23 k.
  destruct (H12 k) as (a & Ha & Hna). destruct (H23 k) as (b & Hb & Hnb).
  exists (a ++ b). split.
  - rewrite Hb, Ha. apply append_assoc.
  - intros Hk. rewrite (Hna Hk), (Hnb Hk). reflexivity.
Qed.

Lemma keeps_ret {A} (a : A) : keeps (ret a).
Proof. intros w o w' [= _ <-]. apply grown_refl. Qed.

Lemma keeps_raise {A} e : keeps (@raise E A e).
Proof. intros w o w' [= _ <-]. apply grown_refl. Qed.

Lemma keeps_continue {A} : keeps (@continue_ E A).
Proof. intros w o w' [= _ <-]. apply grown_refl. Qed.

Lemma keeps_bind_on {A B} (m : M E A) (k : A -> M E B) :
  keeps m ->
  (forall a, (exists w w1, m w = (Normal a, w1)) -> keeps (k a)) ->
  keeps (bind m k).
Proof.
  intros Hm Hk w o w'. unfold bind.
  destruct (m w) as [[a|e| |] w1] eqn:Hmw.
  - intros Hkw. apply (grown_trans w w1 w'); [exact (Hm _ _ _ Hmw)|].
    exact (Hk a (ex_intro _ w (ex_intro _ w1 Hmw)) _ _ _ Hkw).
  - intros [= _ <-]. exact (Hm _ _ _ Hmw).
  - intros [= _ <-]. exact (Hm _ _ _ Hmw).
  - intros [= _ <-]. exact (Hm _ _ _ Hmw).
Qed.

Lemma keeps_bind {A B} (m : M E A) (k : A -> M E B) :
  keeps m -> (forall a, keeps (k a)) -> keeps (bind m k).
Proof. intros Hm Hk. apply keeps_bind_on; [exact Hm | intros a _; apply Hk]. Qed.

Lemma keeps_try {A} (body : M E A) handler :
  keeps body -> (forall e h, handler e = Some h -> keeps h) ->
  keeps (try_except body handler).
Proof.
  intros Hb Hh w o w'. unfold try_except.
  destruct (body w) as [[a|e| |] w1] eqn:Hbw.
  - intros [= _ <-]. exact (Hb _ _ _ Hbw).
  - destruct (handler e) as [h|] eqn:He.
    + intros Hhw. apply (grown_trans w w1 w'); [exact (Hb _ _ _ Hbw)|].
      exact (Hh e h He _ _ _ Hhw).
    + intros [= _ <-]. exact (Hb _ _ _ Hbw).
  - intros [= _ <-]. exact (Hb _ _ _ Hbw).
  - intros [= _ <-]. exact (Hb _ _ _ Hbw).
Qed.

Lemma keeps_while (body : M E unit) (n : nat) :
  keeps body -> keeps (while_true n body).
Proof.
  intros Hb. induction n as [|n IH]; intros w o w'; simpl.
  - intros [= _ <-]. apply grown_refl.
  - destruct (body w) as [[u|e| |] w1] eqn:Hbw.
    + intros Hrest. apply (grown_trans w w1 w'); [exact (Hb _ _ _ Hbw)|].
      exact (IH _ _ _ Hrest).
    + intros [= _ <-]. exact (Hb _ _ _ Hbw).
    + intros Hrest. apply (grown_trans w w1 w'); [exact (Hb _ _ _ Hbw)|].
      exact (IH _ _ _ Hrest).
    + intros [= _ <-]. exact (Hb _ _ _ Hbw).
Qed.

Lemma keeps_getattr args name : keeps (getattr args name).
Proof.
  unfold getattr. destruct (args !! name); [apply keeps_ret | apply keeps_raise].
Qed.

Lemma keeps_expect_str v : keeps (expect_str v).
Proof. destruct v; first [apply keeps_ret | apply keeps_raise]. Qed.

Lemma keeps_expect_float v : keeps (expect_float v).
Proof. destruct v; first [apply keeps_ret | apply keeps_raise]. Qed.

Lemma keeps_lift {A} (r : exn + A) : keeps (lift r).
Proof. destruct r; [apply keeps_raise | apply keeps_ret]. Qed.

Lemma keeps_print to items : keeps (print to items).
Proof.
  intros w o w'. unfold print. intros [= _ <-]. apply grown_same. reflexivity.
Qed.

Lemma keeps_sleep secs : keeps (time_sleep secs).
Proof.
  intros w o w'. unfold time_sleep.
  destruct (timeout secs) as [e|q]; [intros [= _ <-]; apply grown_refl|].
  destruct (sleep_fault q (host w)); [intros [= _ <-]; apply grown_refl|].
  destruct (interrupted q (host w)) as [hit h'].
  destruct hit; intros [= _ <-]; apply grown_same; reflexivity.
Qed.

Lemma keeps_now : keeps datetime_now.
Proof.
  intros w o w'. unfold datetime_now.
  destruct (now (host w)) as [t h']. intros [= _ <-].
  apply grown_same. reflexivity.
Qed.

Lemma keeps_mkdir p : keeps (mkdir_parents p).
Proof.
  intros w o w'. unfold mkdir_parents.
  destruct (fault Mkdir (Pathlib.str p) (host w));
    [intros [= _ <-]; apply grown_refl|].
  destruct (make_dirs (Pathlib.lineage p) (files w)) as [e|fs'] eqn:Hm;
    intros [= _ <-]; [apply grown_refl|].
  apply grown_same. intros k. cbn [files].
  exact (make_dirs_content _ _ _ k Hm).
Qed.

Lemma keeps_open_append p : keeps (open_append p).
Proof.
  intros w o w'. unfold open_append.
  destruct (fault OpenAppend (Pathlib.str p) (host w));
    [intros [= _ <-]; apply grown_refl|].
  destruct (files w !! Pathlib.str p) as [[d|]|] eqn:Hp;
    intros [= _ <-]; try apply grown_refl.
  apply grown_same. intros k. cbn [files]. unfold content.
  destruct (decide (Pathlib.str p = k)) as [<-|Hne].
  - rewrite lookup_insert_eq, Hp. reflexivity.
  - rewrite lookup_insert_ne by exact Hne. reflexivity.
Qed.

Lemma keeps_f_write p data :
  Pathlib.str p = target -> keeps (f_write p data).
Proof.
  intros Hp w o w'. unfold f_write. intros [= _ <-] k.
  rewrite files_emit. cbn [files].
  destruct (decide (Pathlib.str p = k)) as [Hk|Hne].
  - exists data. split; [|intros Hbad; congruence].
    unfold content. rewrite <- Hk, lookup_insert_eq. reflexivity.
  - exists "". rewrite append_empty. split; [|trivial].
    unfold content. rewrite lookup_insert_ne by exact Hne. reflexivity.
Qed.

(** A command that leaves the contents of the files alone. *)
Definition tidy (cmd : list string) (cwd : string) : Prop :=
  forall fs h k, content (snd (fst (spawn cmd cwd fs h))) k = content fs k.

Lemma keeps_run cmd cwd :
  tidy cmd (Pathlib.str cwd) -> keeps (subprocess_run cmd cwd).
Proof.
  intros Ht w o w'. unfold subprocess_run.
  pose proof (Ht (files w) (host w)) as Hk.
  destruct (spawn cmd (Pathlib.str cwd) (files w) (host w)) as [[res fs] h].
  cbn [fst snd] in Hk.
  destruct res as [r|e]; [destruct (returncode r =? 0)%Z|];
    intros [= _ <-]; apply grown_same; exact Hk.
Qed.

Lemma keeps_sh cmd cwd : tidy cmd (Pathlib.str cwd) -> keeps (sh cmd cwd).
Proof.
  intros Ht. unfold sh.
  apply keeps_bind; [apply keeps_run; exact Ht | intros r; apply keeps_ret].
Qed.

Lemma keeps_write_heartbeat p :
  Pathlib.str p = target -> keeps (write_heartbeat p).
Proof.
  intros Hp. unfold write_heartbeat.
  apply keeps_bind; [apply keeps_mkdir|]. intros _.
  apply keeps_bind; [apply keeps_now|]. intros t.
  apply keeps_bind; [apply keeps_open_append|]. intros _.
  apply keeps_bind; [apply keeps_f_write; exact Hp|]. intros _.
  apply keeps_ret.
Qed.

Lemma keeps_write_line p line :
  Pathlib.str p = target -> keeps (write_line p line false).
Proof.
  intros Hp. unfold write_line.
  apply keeps_bind; [apply keeps_mkdir|]. intros _.
  apply keeps_bind; [apply keeps_open_append|]. intros _.
  apply keeps_f_write. exact Hp.
Qed.

Lemma keeps_mutate p o path :
  Pathlib.str path = target ->
  p = AutoCommitter \/ opt_prepend o = false ->
  keeps (mutate p (parse_args p o) path).
Proof.
  intros Hp Hmode. destruct p; cbn [mutate].
  - apply keeps_write_heartbeat. exact Hp.
  - destruct Hmode as [Hbad|Hmode]; [discriminate|].
    apply keeps_bind; [apply keeps_now|]. intros t.
    apply keeps_bind.
    { destruct (hasattr _ "line-template"); [|apply keeps_getattr].
      apply keeps_bind; [apply keeps_getattr | intros; apply keeps_raise]. }
    intros _.
    apply keeps_bind; [apply keeps_getattr|]. intros v.
    apply keeps_bind; [apply keeps_expect_str|]. intros template.
    apply keeps_bind; [apply keeps_lift|]. intros line.
    apply keeps_bind_on; [apply keeps_getattr|].
    intros a (w & w1 & Ha). unfold getattr in Ha.
    rewrite args_prepend, Hmode in Ha. apply ret_inv in Ha.
    destruct Ha as [<- _]. cbn [truthy].
    apply keeps_bind; [apply keeps_write_line; exact Hp|]. intros _.
    apply keeps_ret.
Qed.

Lemma keeps_pause args : keeps (pause args).
Proof.
  unfold pause.
  apply keeps_bind; [apply keeps_getattr|]. intros v.
  apply keeps_bind; [apply keeps_expect_float|]. intros q.
  apply keeps_sleep.
Qed.

Variable repo : Pathlib.Path.

Hypothesis git_is_tidy :
  forall verb rest,
    String.eqb verb "add" || String.eqb verb "commit" || String.eqb verb "push"
      = true ->
    tidy ("git" :: verb :: rest) (Pathlib.str repo).

Lemma keeps_stage path : keeps (stage repo path).
Proof.
  unfold stage.
  destruct (Pathlib.relative_to path repo); [|apply keeps_raise].
  apply keeps_bind; [|intros; apply keeps_ret].
  apply keeps_sh, git_is_tidy. reflexivity.
Qed.

Lemma keeps_commit args ts : keeps (commit args repo ts).
Proof.
  unfold commit.
  apply keeps_bind_on.
  { unfold commit_cmd.
    apply keeps_bind; [apply keeps_getattr|]. intros m.
    apply keeps_bind; [apply keeps_getattr|]. intros a.
    destruct (truthy a); [|apply keeps_ret].
    apply keeps_bind; [apply keeps_expect_str | intros; apply keeps_ret]. }
  intros cmd (w & w1 & Hcmd).
  destruct (commit_cmd_shape _ _ _ _ _ Hcmd) as [rest ->].
  apply keeps_try.
  - apply keeps_bind; [|intros; apply keeps_ret].
    apply keeps_sh, git_is_tidy. reflexivity.
  - intros e h. destruct e; try discriminate. intros [= <-].
    destruct (Text.contains marker (Text.lower (stdout r ++ stderr r)));
      [apply keeps_ret|].
    apply keeps_bind; [apply keeps_print|]. intros _.
    apply keeps_bind; [apply keeps_getattr|]. intros v.
    apply keeps_bind; [apply keeps_expect_float|]. intros q.
    apply keeps_bind; [apply keeps_sleep|]. intros _.
    apply keeps_continue.
Qed.

Lemma keeps_push p args : keeps (push p args repo).
Proof.
  unfold push. apply keeps_bind.
  { destruct p; [|apply keeps_getattr].
    apply keeps_bind; [apply keeps_getattr | intros; apply keeps_raise]. }
  intros v. destruct (negb (truthy v)); [|apply keeps_ret].
  apply keeps_bind; [apply keeps_getattr|]. intros r1.
  apply keeps_bind; [apply keeps_expect_str|]. intros remote.
  apply keeps_bind; [apply keeps_getattr|]. intros b1.
  apply keeps_bind; [apply keeps_expect_str|]. intros branch.
  apply keeps_try.
  - apply keeps_bind; [|intros; apply keeps_ret].
    apply keeps_sh, git_is_tidy. reflexivity.
  - intros e h. destruct e; try discriminate. intros [= <-].
    apply keeps_print.
Qed.

Lemma keeps_iteration p o path :
  Pathlib.str path = target ->
  p = AutoCommitter \/ opt_prepend o = false ->
  keeps (iteration p (parse_args p o) repo path).
Proof.
  intros Hp Hmode. unfold iteration.
  apply keeps_bind; [apply keeps_mutate; assumption|]. intros ts.
  apply keeps_bind; [apply keeps_stage|]. intros _.
  apply keeps_bind; [apply keeps_commit|]. intros _.
  apply keeps_bind; [apply keeps_push|]. intros _.
  apply keeps_pause.
Qed.

End AppendOnly.

Section AppendMode.

Context {E : Type} {H : Host E}.

(** auto_committer.py, and auto_committer_readme.py without
    [--prepend], only ever append.  As long as [git add], [git commit]
    and [git push] leave the contents of the working tree alone, then
    after any number of passes, however each of them ended, every file
    holds what it held before, the target file followed by what was
    added to it and every other file nothing more. *)
Theorem append_mode_only_appends p o repo target n (w : World E) :
  p = AutoCommitter \/ opt_prepend o = false ->
  (forall verb rest,
     String.eqb verb "add" || String.eqb verb "commit" || String.eqb verb "push"
       = true ->
     tidy ("git" :: verb :: rest) (Pathlib.str repo)) ->
  forall k, exists added,
    content
      (files (snd (while_true n (iteration p (parse_args p o) repo target) w)))
      k = content (files w) k ++ added /\
    (k <> Pathlib.str target -> added = "").
Proof.
  intros Hmode Htidy.
  destruct (while_true n (iteration p (parse_args p o) repo target) w)
    as [out w'] eqn:Hrun.
  exact (keeps_while (Pathlib.str target) _ n
           (keeps_iteration (Pathlib.str target) repo Htidy p o target
              eq_refl Hmode)
           w out w' Hrun).
Qed.

End AppendMode.

Lemma fake_git_is_tidy cmd cwd : @tidy Fake.Repo _ cmd cwd.
Proof.
  intros fs h k. cbn [spawn Fake.repo_host].
  destruct (Fake.respond cmd h). reflexivity.
Qed.

Lemma append_mode_only_appends_witness :
  let run := while_true 3
               (iteration AutoCommitterReadme
                  (parse_args AutoCommitterReadme (Fake.options "main"))
                  Fake.root Fake.readme) (Fake.world0 true) in
  (exists added,
     content (files (snd run)) "/srv/repo/README.md" =
       content (files (Fake.world0 true)) "/srv/repo/README.md" ++ added /\
     ("/srv/repo/README.md" <> Pathlib.str Fake.readme -> added = "")) /\
  count_events is_write (trace (snd run)) = 3.
Proof.
  intros run. split.
  - apply (append_mode_only_appends AutoCommitterReadme (Fake.options "main")
             Fake.root Fake.readme 3 (Fake.world0 true)).
    + right. reflexivity.
    + intros verb rest _. apply fake_git_is_tidy.
  - vm_compute. reflexivity.
Defined.

(** ** A pass in which nothing fails *)

Section CleanPass.

Context {E : Type} {H : Host E}.

Lemma push_succeeds o repo (w : World E) r fs h :
  opt_no_push o = false ->
  spawn (push_line o) (Pathlib.str repo) (files w) (host w)
    = (Exited r, fs, h) ->
  returncode r = 0%Z ->
  push AutoCommitterReadme (parse_args AutoCommitterReadme o) repo w =
    (Normal tt, answered (push_line o) repo w fs h).
Proof.
  intros Hn Hs Hz. unfold push. attrs. mrun. rewrite Hn. mrun.
  fold (push_line o).
  rewrite (sh_success (push_line o) repo w r fs h Hs Hz). reflexivity.
Qed.

Lemma pause_sleeps p o (w : World E) secs h :
  timeout (opt_interval o) = inr secs ->
  sleep_fault secs (host w) = None ->
  interrupted secs (host w) = (false, h) ->
  pause (parse_args p o) w = (Normal tt, slept secs w h).
Proof.
  intros Hq Hf Hi. unfold pause. attrs. mrun.
  exact (time_sleep_quiet (opt_interval o) secs w h Hq Hf Hi).
Qed.

(** A pass of auto_committer_readme.py in which nothing fails: once the
    file is changed and staged, a commit and a push that both exit with
    status 0 are followed by one sleep of the interval, and the pass
    ends there, provided the interval is one [time.sleep] accepts, the
    system does not refuse the sleep and no signal cuts it short.  The
    commit, the push and the sleep are all it adds to the trace, in
    this order, and nothing is printed. *)
Theorem clean_pass_commits_pushes_sleeps o repo target (w w1 : World E) ts
    rc fsc hc rp fsp hp secs h' :
  let args := parse_args AutoCommitterReadme o in
  let w2 := answered (commit_line o ts) repo w1 fsc hc in
  let w3 := answered (push_line o) repo w2 fsp hp in
  staged_pass AutoCommitterReadme args repo target w = (Normal ts, w1) ->
  spawn (commit_line o ts) (Pathlib.str repo) (files w1) (host w1)
    = (Exited rc, fsc, hc) ->
  returncode rc = 0%Z ->
  opt_no_push o = false ->
  spawn (push_line o) (Pathlib.str repo) fsc hc = (Exited rp, fsp, hp) ->
  returncode rp = 0%Z ->
  timeout (opt_interval o) = inr secs ->
  sleep_fault secs hp = None ->
  interrupted secs hp = (false, h') ->
  iteration AutoCommitterReadme args repo target w =
    (Normal tt, slept secs w3 h') /\
  trace (slept secs w3 h') =
    (trace w1 ++ [Spawn (commit_line o ts) (Pathlib.str repo);
                  Spawn (push_line o) (Pathlib.str repo);
                  Sleep secs])%list.
Proof.
  intros args w2 w3 Hpre Hc Hzc Hn Hp Hzp Hq Hf Hi. subst args. split.
  - rewrite (pass_after_commit AutoCommitterReadme o repo target w w1 ts
               rc fsc hc Hpre Hc (or_introl Hzc)).
    fold w2. unfold conclude.
    rewrite (bind_normal _ _ _ _ _
               (push_succeeds o repo w2 rp fsp hp Hn Hp Hzp)).
    cbv beta. fold w3.
    exact (pause_sleeps AutoCommitterReadme o w3 secs h' Hq Hf Hi).
  - unfold slept, w3, w2, answered, emit. cbn [trace].
    rewrite <- !app_assoc. reflexivity.
Qed.

End CleanPass.

Lemma clean_pass_commits_pushes_sleeps_witness :
  let o := Fake.options "main" in
  let args := parse_args AutoCommitterReadme o in
  let ts := "2024-01-01T00:00:00.000000Z" in
  let run := iteration AutoCommitterReadme args Fake.root Fake.readme
               (Fake.world0 true) in
  fst run = Normal tt /\
  trace (snd run) =
    [Clock Scripted.epoch;
     Write "/srv/repo/README.md" ("- heartbeat " ++ ts ++ Text.nl);
     Spawn ["git"; "add"; "README.md"] "/srv/repo";
     Spawn ["git"; "commit"; "-m"; "[bot] heartbeat " ++ ts] "/srv/repo";
     Spawn ["git"; "push"; "origin"; "main"] "/srv/repo";
     Sleep 1].
Proof.
  intros o args ts run.
  pose (w1 := snd (staged_pass AutoCommitterReadme args Fake.root Fake.readme
                     (Fake.world0 true))).
  pose (c := Fake.respond (commit_line o ts) (host w1)).
  pose (q := Fake.respond (push_line o) (snd c)).
  destruct (clean_pass_commits_pushes_sleeps o Fake.root Fake.readme
              (Fake.world0 true) w1 ts (fst c) (files w1) (snd c)
              (fst q) (files w1) (snd q) 1%Q (snd q)) as [Hrun Htrace].
  - vm_compute. reflexivity.
  - vm_compute. reflexivity.
  - vm_compute. reflexivity.
  - reflexivity.
  - vm_compute. reflexivity.
  - vm_compute. reflexivity.
  - vm_compute. reflexivity.
  - reflexivity.
  - reflexivity.
  - unfold run, args. rewrite Hrun. split; [reflexivity|].
    cbn [snd]. rewrite Htrace. vm_compute. reflexivity.
Defined.
